(** * DeskCNC serial driver: frame codec, command executor and modal translator

    A shallow embedding of [deskcnc_serial.py].

    Conventions of the embedding:
    - Python [bytes] are lists of integers in [0, 255];
    - Python floats (millimetres, millimetres per minute) are IEEE 754
      binary64 numbers, Rocq's primitive [float]: the same format and the
      same arithmetic, rounded to nearest even, with signed zeros,
      infinities and NaN.  The integer constants the driver mixes into
      float arithmetic (0, 300, 1620, 3378400) are the floats of the same
      value, which is what Python converts them to before it computes; the
      one thing this changes is the sign of a zero ([-0] is the integer 0
      in Python and the float -0.0 here), which no frame, comparison or
      exception of the driver depends on;
    - methods that do I/O are state transformers over a scripted serial
      port that records every frame written; exceptions are results, and the
      unbounded loops of the driver take a fuel argument. *)

From Stdlib Require Import ZArith QArith Qround List String Bool Lia Floats.
Import ListNotations.

Set Warnings "-inexact-float".

Local Open Scope Z_scope.

(** ** Python values used by the driver *)

Module Py.

Definition bytes := list Z.

Inductive exn : Type :=
| SerialException (msg : string)
| OSError
| NotImplementedError
| OverflowError
| ZeroDivisionError
| ValueError.

(** Sequencing of operations that may raise. *)
Definition and_then {A B} (r : exn + A) (k : A -> exn + B) : exn + B :=
  match r with
  | inl e => inl e
  | inr a => k a
  end.

(** [a / b] on floats: Python raises when the divisor compares equal to
    zero (either zero), and computes the IEEE quotient otherwise. *)
Definition truediv (a b : float) : exn + float :=
  if (b =? 0)%float then inl ZeroDivisionError else inr (a / b)%float.

(** [int(x)] on a float: the value truncated toward zero; infinities and
    NaN have no integer.  A finite float is [m * 2 ^ e], signed. *)
Definition int (x : float) : exn + Z :=
  match Prim2SF x with
  | S754_zero _ => inr 0
  | S754_finite s m e =>
      let a := if 0 <=? e then Z.pos m * 2 ^ e else Z.pos m / 2 ^ (- e) in
      inr (if s then - a else a)
  | S754_infinity _ => inl OverflowError
  | S754_nan => inl ValueError
  end.

(** [round(x)] on a float: the nearest integer, ties to even. *)
Definition round (x : float) : exn + Z :=
  match Prim2SF x with
  | S754_zero _ => inr 0
  | S754_finite s m e =>
      let a :=
        if 0 <=? e then Z.pos m * 2 ^ e
        else
          let d := 2 ^ (- e) in
          let f := Z.pos m / d in
          match 2 * (Z.pos m mod d) ?= d with
          | Lt => f
          | Gt => f + 1
          | Eq => if Z.even f then f else f + 1
          end in
      inr (if s then - a else a)
  | S754_infinity _ => inl OverflowError
  | S754_nan => inl ValueError
  end.

(** [np.clip(a, a_min, a_max)] is [minimum(a_max, maximum(a, a_min))]. *)
Definition clip (a a_min a_max : Z) : Z := Z.min a_max (Z.max a a_min).

Fixpoint le_digits (length : nat) (n : Z) : bytes :=
  match length with
  | O => []
  | S k => n mod 256 :: le_digits k (n / 256)
  end.

(** [n.to_bytes(length, byteorder="little", signed=...)]. *)
Definition to_bytes (n : Z) (length : nat) (signed : bool) : exn + bytes :=
  let bits := 8 * Z.of_nat length in
  if signed then
    if (- 2 ^ (bits - 1) <=? n) && (n <? 2 ^ (bits - 1))
    then inr (le_digits length (n mod 2 ^ bits))
    else inl OverflowError
  else
    if (0 <=? n) && (n <? 2 ^ bits)
    then inr (le_digits length n)
    else inl OverflowError.

(** [int.from_bytes(b, byteorder="little", signed=...)], the inverse used to
    read an encoded field back. *)
Fixpoint from_digits (b : bytes) : Z :=
  match b with
  | [] => 0
  | d :: rest => d + 256 * from_digits rest
  end.

Definition from_bytes (b : bytes) (signed : bool) : Z :=
  let u := from_digits b in
  let bits := 8 * Z.of_nat (List.length b) in
  if signed && (2 ^ (bits - 1) <=? u) then u - 2 ^ bits else u.

(** [bytearray(n)]: [n] zero bytes. *)
Definition bytearray (n : nat) : bytes := repeat 0 n.

Fixpoint bytes_eqb (a b : bytes) : bool :=
  match a, b with
  | [], [] => true
  | x :: a', y :: b' => (x =? y) && bytes_eqb a' b'
  | _, _ => false
  end.

(** [b[-k:]]: the last [k] bytes (all of [b] when it is shorter). *)
Definition last_bytes (k : nat) (b : bytes) : bytes :=
  skipn (List.length b - k) b.

End Py.

Import Py.

(** ** Frame codec (module-level functions of the driver) *)

Definition MIN_FEEDRATE : Z := 62500.
Definition MAX_FEEDRATE : Z := 1250.

Definition COM_RESET : bytes :=
  [0x40; 0x52] ++ bytearray 14 ++ [0x01; 0x01] ++ bytearray 5 ++ [0x12].

(** XOR over all bytes of [command]; the result is a one-byte string. *)
Definition checksum (command : bytes) : bytes :=
  [fold_left Z.lxor command 0].

(** Millimetres to the device's step unit (1 step = 0.015 mm), as four
    little-endian signed bytes. *)
Definition encodeValueMM (val : float) : exn + bytes :=
  and_then (truediv val 0.015) (fun quotient =>
  and_then (int quotient) (fun numsteps =>
  to_bytes numsteps 4 true)).

(** Millimetres per minute to the device's feed unit, as two little-endian
    unsigned bytes. *)
Definition encodeFeedrate (val : float) : exn + bytes :=
  and_then (truediv 3378400 val) (fun quotient =>
  and_then (int quotient) (fun num =>
  let num := clip num MAX_FEEDRATE MIN_FEEDRATE in
  to_bytes num 2 false)).

(** ** State, exceptions and fuel

    A computation over a state [St] returns a value, raises, or runs out of
    fuel; the state it reached is kept in every case, because an [except]
    clause continues from the state the [try] body left behind. *)

Inductive result (A : Type) : Type :=
| Val (a : A)
| Exc (e : exn)
| OutOfFuel.

Arguments Val {A} a.
Arguments Exc {A} e.
Arguments OutOfFuel {A}.

Definition M (St A : Type) : Type := St -> result A * St.

Definition ret {St A} (a : A) : M St A := fun s => (Val a, s).

Definition bind {St A B} (c : M St A) (k : A -> M St B) : M St B :=
  fun s =>
    match c s with
    | (Val a, s') => k a s'
    | (Exc e, s') => (Exc e, s')
    | (OutOfFuel, s') => (OutOfFuel, s')
    end.

Definition raise {St A} (e : exn) : M St A := fun s => (Exc e, s).

Definition out_of_fuel {St A} : M St A := fun s => (OutOfFuel, s).

Definition get {St} : M St St := fun s => (Val s, s).

Definition modify {St} (f : St -> St) : M St unit := fun s => (Val tt, f s).

(** [try: body except <handles>: handler]. *)
Definition try_except {St A} (body : M St A) (handles : exn -> bool)
    (handler : exn -> M St A) : M St A :=
  fun s =>
    match body s with
    | (Exc e, s') => if handles e then handler e s' else (Exc e, s')
    | r => r
    end.

Declare Scope monad_scope.
Delimit Scope monad_scope with monad.
Notation "x <- c ;; k" := (bind c (fun x => k))
  (at level 61, c at next level, right associativity) : monad_scope.
Notation "c ;; k" := (bind c (fun _ => k))
  (at level 61, right associativity) : monad_scope.
Local Open Scope monad_scope.

(** [while not cond(): body]. *)
Fixpoint while_not {St} (fuel : nat) (cond : M St bool) (body : M St unit)
    : M St unit :=
  match fuel with
  | O => out_of_fuel
  | S n =>
      b <- cond ;;
      if b then ret tt else body ;; while_not n cond body
  end.

(** [for x in xs: body(x)]. *)
Fixpoint for_each {St A} (xs : list A) (body : A -> M St unit) : M St unit :=
  match xs with
  | [] => ret tt
  | x :: rest => body x ;; for_each rest body
  end.

(** [time.sleep] and logging have no effect on the modelled state. *)
Definition sleep {St} : M St unit := ret tt.
Definition pass {St} : M St unit := ret tt.

Definition lift_exn {St A} (r : exn + A) : M St A :=
  match r with
  | inl e => raise e
  | inr a => ret a
  end.

(** ** The serial port

    [serial.Serial] is an external library; the port is modelled by what the
    driver can observe of it.  [written] records every [write] call in
    order.  [incoming] scripts the outcome of the successive reads: the data
    a read returns, or a read that raises; once the script is used up a read
    times out and returns no data.  [opening] scripts the successive
    [open()] calls the same way. *)

Inductive reading : Type :=
| Data (b : bytes)
| ReadFails.

Record Serial : Type := mkSerial {
  is_open : bool;
  written : list bytes;
  incoming : list reading;
  opening : list (option exn)
}.

Module Port.

Definition portNotOpenError : exn :=
  SerialException "Attempting to use a port that is not open".

Definition set_open (b : bool) (p : Serial) : Serial :=
  mkSerial b (written p) (incoming p) (opening p).

Definition set_incoming (i : list reading) (p : Serial) : Serial :=
  mkSerial (is_open p) (written p) i (opening p).

Definition close : M Serial unit := modify (set_open false).

Definition open : M Serial unit := fun p =>
  if is_open p then (Exc (SerialException "Port is already open."), p)
  else
    match opening p with
    | [] => (Val tt, set_open true p)
    | None :: rest =>
        (Val tt, mkSerial true (written p) (incoming p) rest)
    | Some e :: rest =>
        (Exc e, mkSerial false (written p) (incoming p) rest)
    end.

Definition write (b : bytes) : M Serial unit := fun p =>
  if is_open p
  then (Val tt, mkSerial true (written p ++ [b]) (incoming p) (opening p))
  else (Exc portNotOpenError, p).

Definition read (size : nat) : M Serial bytes := fun p =>
  if is_open p then
    match incoming p with
    | [] => (Val [], p)
    | Data b :: rest => (Val (firstn size b), set_incoming rest p)
    | ReadFails :: rest =>
        (Exc (SerialException "read failed"), set_incoming rest p)
    end
  else (Exc portNotOpenError, p).

Definition inWaiting : M Serial nat := fun p =>
  if is_open p then
    match incoming p with
    | [] => (Val O, p)
    | Data b :: _ => (Val (List.length b), p)
    | ReadFails :: rest =>
        (Exc (SerialException "read failed"), set_incoming rest p)
    end
  else (Exc portNotOpenError, p).

End Port.

(** ** class DeskCNC

    A [DeskCNC] object holds nothing but its port [_ser], so its methods are
    computations over the port. *)

Module DeskCNC.

Section Firmware.

(** The byte contents of [firmware.txt] and [firmware_response.txt], the two
    files [send_firmware] reads; they are not part of the driver, and are
    taken to exist and to hold well-formed hexadecimal bytes. *)
Variable firmware_txt : bytes.
Variable firmware_response_txt : bytes.

(** low level device reset without initialisation *)
Definition reset : M Serial bool :=
  Port.write COM_RESET ;;
  n <- Port.inWaiting ;;
  response <- Port.read n ;;
  ret (bytes_eqb (last_bytes 5 response) [0xFB; 0x32; 0x32; 0x34; 0xF5]).

(** [fw[i:i+64] for i in range(0, len(fw), 64)] *)
Fixpoint chunks (k : nat) (fw : bytes) : list bytes :=
  match k with
  | O => []
  | S k' =>
      match fw with
      | [] => []
      | _ => firstn 64 fw :: chunks k' (skipn 64 fw)
      end
  end.

Fixpoint send_chunks (cs : list bytes) (response : bytes) : M Serial bytes :=
  match cs with
  | [] => ret response
  | c :: rest =>
      Port.write c ;;
      n <- Port.inWaiting ;;
      r <- Port.read n ;;
      send_chunks rest (response ++ r)
  end.

(** sends file and compares response with another file *)
Definition send_firmware : M Serial bool :=
  let fw := firmware_txt in
  let resp_expected := firmware_response_txt in
  response <- send_chunks (chunks (List.length fw) fw) [] ;;
  n <- Port.inWaiting ;;
  r <- Port.read n ;;
  let response := response ++ r in
  ret (bytes_eqb response resp_expected).

Definition is_open_now : M Serial bool := fun p => (Val (is_open p), p).

Definition caught_on_restart (e : exn) : bool :=
  match e with
  | SerialException _ | OSError => true
  | _ => false
  end.

(** complete reset of device incl. all initialisations *)
Definition restart_device (fuel : nat) : M Serial unit :=
  Port.close ;;
  while_not fuel is_open_now
    (try_except
       (Port.open ;;
        while_not fuel reset pass ;;
        while_not fuel send_firmware pass)
       caught_on_restart
       (fun _ => Port.close ;; sleep)).

Definition STATUS_QUERY : bytes :=
  [0x40; 0x57] ++ bytearray 14 ++ [0x01; 0x01] ++ bytearray 5.

Definition machineReady : M Serial bool :=
  let command := STATUS_QUERY in
  let msg := command ++ checksum command in
  Port.write msg ;;
  response <- Port.read 18 ;;
  if bytes_eqb response []
  then raise (SerialException "device not responding")
  else ret (bytes_eqb (last_bytes 1 response) [0xEC]).

Fixpoint executeCommand (fuel : nat) (command : bytes) (count : Z)
    : M Serial unit :=
  match fuel with
  | O => out_of_fuel
  | S n =>
      let msg := command ++ checksum command in
      Port.write msg ;;
      response <- Port.read 1 ;;
      while_not n machineReady sleep ;;
      if negb (bytes_eqb response [0x02]) then
        if count <? 2 then executeCommand n command (count + 1)
        else raise (SerialException "wrong response from device")
      else ret tt
  end.

(** rapid positioning *)
Definition G0 (fuel : nat) (posX posY posZ : float) : M Serial unit :=
  let command := [0x40; 0x4E] in
  x <- lift_exn (encodeValueMM (- posX)) ;;
  let command := command ++ x in
  y <- lift_exn (encodeValueMM posY) ;;
  let command := command ++ y in
  z <- lift_exn (encodeValueMM posZ) ;;
  let command := command ++ z in
  f <- lift_exn (encodeFeedrate infinity) ;;
  let command := command ++ f in
  let command := command ++ [0xDB; 0x00] in
  let command := command ++ bytearray 5 in
  executeCommand fuel command 0.

(** linear interpolation *)
Definition G1 (fuel : nat) (posX posY posZ : float) (feedrate : float)
    : M Serial unit :=
  let command := [0x40; 0x4D] in
  x <- lift_exn (encodeValueMM (- posX)) ;;
  let command := command ++ x in
  y <- lift_exn (encodeValueMM posY) ;;
  let command := command ++ y in
  z <- lift_exn (encodeValueMM posZ) ;;
  let command := command ++ z in
  f <- lift_exn (encodeFeedrate feedrate) ;;
  let command := command ++ f in
  let command := command ++ bytearray 7 in
  executeCommand fuel command 0.

Definition G2 : M Serial unit := raise NotImplementedError.
Definition G3 : M Serial unit := raise NotImplementedError.
Definition G17 : M Serial unit := ret tt.
Definition G18 : M Serial unit := raise NotImplementedError.
Definition G19 : M Serial unit := raise NotImplementedError.
Definition G20 : M Serial unit := raise NotImplementedError.
Definition G21 : M Serial unit := ret tt.
Definition G90 : M Serial unit := ret tt.
Definition G91 : M Serial unit := raise NotImplementedError.
Definition G94 : M Serial unit := ret tt.

Definition spindle (fuel : nat) (state : bytes) : M Serial unit :=
  let command := [0x40; 0x4F] in
  let command := command ++ bytearray 14 in
  let command := command ++ [0x02] in
  let command := command ++ state in
  let command := command ++ bytearray 5 in
  res <- executeCommand fuel command 0 ;;
  sleep ;;
  ret res.

(** Spindle on Clockwise *)
Definition M3 (fuel : nat) : M Serial unit := spindle fuel [0x01].

(** Spindle on Counter Clockwise (not supported by hardware) *)
Definition M4 (fuel : nat) : M Serial unit := spindle fuel [0x01].

(** Spindle Off *)
Definition M5 (fuel : nat) : M Serial unit := spindle fuel [0x00].

(** Coolant Off (not supported by hardware) *)
Definition M9 : M Serial unit := ret tt.

End Firmware.

End DeskCNC.

(** ** class ModalGCodeParser: reads gcode and keeps modal state *)

Module ModalGCodeParser.

(** The [pygcode] classes the translator tells apart; every other class is
    [GCodeOther]. *)
Inductive GCodeType : Type :=
| GCodeFeedRate
| GCodeRapidMove
| GCodeLinearMove
| GCodeArcMoveCW
| GCodeArcMoveCCW
| GCodeSelectXYPlane
| GCodeSelectZXPlane
| GCodeSelectYZPlane
| GCodeUseInches
| GCodeUseMillimeters
| GCodeAbsoluteDistanceMode
| GCodeIncrementalDistanceMode
| GCodeUnitsPerMinuteMode
| GCodeStartSpindleCW
| GCodeStartSpindleCCW
| GCodeStopSpindle
| GCodeCoolantOff
| GCodeOther (name : string).

(** [pygcode.Word]: a letter and a number. *)
Record Word : Type := mkWord {
  letter : string;
  value : float
}.

(** A [pygcode] gcode object: its class, its own word and its parameter
    words ([gcode.params.values()], in order). *)
Record GCode : Type := mkGCode {
  type : GCodeType;
  word : Word;
  params : list Word
}.

(** [pygcode.Line(line_text).block]: the words left over as modal parameters
    and the gcodes of the line.  Parsing the text is [pygcode]'s work. *)
Record Block : Type := mkBlock {
  modal_params : list Word;
  gcodes : list GCode
}.

Record Parser : Type := mkParser {
  device : Serial;
  posX : float;
  posY : float;
  posZ : float;
  feedrate : float;
  mode : GCodeType;
  offsetX : float;
  offsetY : float;
  offsetZ : float;
  spindleOn : bool;
  absolutepositionmode : bool
}.

Definition set_device (d : Serial) (p : Parser) : Parser :=
  mkParser d (posX p) (posY p) (posZ p) (feedrate p) (mode p)
    (offsetX p) (offsetY p) (offsetZ p) (spindleOn p) (absolutepositionmode p).

Definition set_posX (v : float) (p : Parser) : Parser :=
  mkParser (device p) v (posY p) (posZ p) (feedrate p) (mode p)
    (offsetX p) (offsetY p) (offsetZ p) (spindleOn p) (absolutepositionmode p).

Definition set_posY (v : float) (p : Parser) : Parser :=
  mkParser (device p) (posX p) v (posZ p) (feedrate p) (mode p)
    (offsetX p) (offsetY p) (offsetZ p) (spindleOn p) (absolutepositionmode p).

Definition set_posZ (v : float) (p : Parser) : Parser :=
  mkParser (device p) (posX p) (posY p) v (feedrate p) (mode p)
    (offsetX p) (offsetY p) (offsetZ p) (spindleOn p) (absolutepositionmode p).

Definition set_feedrate (v : float) (p : Parser) : Parser :=
  mkParser (device p) (posX p) (posY p) (posZ p) v (mode p)
    (offsetX p) (offsetY p) (offsetZ p) (spindleOn p) (absolutepositionmode p).

Definition set_mode (m : GCodeType) (p : Parser) : Parser :=
  mkParser (device p) (posX p) (posY p) (posZ p) (feedrate p) m
    (offsetX p) (offsetY p) (offsetZ p) (spindleOn p) (absolutepositionmode p).

Definition set_offsetX (v : float) (p : Parser) : Parser :=
  mkParser (device p) (posX p) (posY p) (posZ p) (feedrate p) (mode p)
    v (offsetY p) (offsetZ p) (spindleOn p) (absolutepositionmode p).

Definition set_offsetY (v : float) (p : Parser) : Parser :=
  mkParser (device p) (posX p) (posY p) (posZ p) (feedrate p) (mode p)
    (offsetX p) v (offsetZ p) (spindleOn p) (absolutepositionmode p).

Definition set_offsetZ (v : float) (p : Parser) : Parser :=
  mkParser (device p) (posX p) (posY p) (posZ p) (feedrate p) (mode p)
    (offsetX p) (offsetY p) v (spindleOn p) (absolutepositionmode p).

Definition set_spindleOn (b : bool) (p : Parser) : Parser :=
  mkParser (device p) (posX p) (posY p) (posZ p) (feedrate p) (mode p)
    (offsetX p) (offsetY p) (offsetZ p) b (absolutepositionmode p).

Definition set_absolutepositionmode (b : bool) (p : Parser) : Parser :=
  mkParser (device p) (posX p) (posY p) (posZ p) (feedrate p) (mode p)
    (offsetX p) (offsetY p) (offsetZ p) (spindleOn p) b.

(** [__init__(self, mill, infile)] *)
Definition init (mill : Serial) : Parser :=
  mkParser mill 0 0 0 300 GCodeLinearMove 0 0 0 false true.

Definition applyWord (word : Word) (self : Parser) : Parser :=
  if absolutepositionmode self then
    let self :=
      if (letter word =? "X")%string then set_posX (value word) self
      else self in
    let self :=
      if (letter word =? "Y")%string then set_posY (value word) self
      else self in
    let self :=
      if (letter word =? "Z")%string then set_posZ (value word) self
      else self in
    if (letter word =? "F")%string then set_feedrate (value word) self
    else self
  else
    let self :=
      if (letter word =? "X")%string
      then set_posX (posX self + value word)%float self
      else self in
    let self :=
      if (letter word =? "Y")%string
      then set_posY (posY self + value word)%float self
      else self in
    let self :=
      if (letter word =? "Z")%string
      then set_posZ (posZ self + value word)%float self
      else self in
    if (letter word =? "F")%string then set_feedrate (value word) self
    else self.

(** A call on [self.device]. *)
Definition on_device {A} (c : M Serial A) : M Parser A :=
  fun self =>
    let (r, d) := c (device self) in (r, set_device d self).

Definition is_SerialException (e : exn) : bool :=
  match e with
  | SerialException _ => true
  | _ => false
  end.

Section Collaborators.

Variable firmware_txt : bytes.
Variable firmware_response_txt : bytes.

(** Two tables of [pygcode]: the execution order its gcodes are sorted by,
    and the word a gcode class is built with when called without
    arguments. *)
Variable exec_order : GCodeType -> Z.
Variable default_word : GCodeType -> Word.

(** The statements of [executeGCode] inside [try]. *)
Definition executeGCode_try (fuel : nat) (gcode : GCode) : M Parser unit :=
  for_each (params gcode) (fun word => modify (applyWord word)) ;;
  match type gcode with
  | GCodeFeedRate => modify (applyWord (word gcode))
  | GCodeRapidMove =>
      self <- get ;;
      on_device (DeskCNC.G0 fuel (posX self + offsetX self)
                   (posY self + offsetY self) (posZ self + offsetZ self)) ;;
      modify (set_mode (type gcode))
  | GCodeLinearMove =>
      self <- get ;;
      (if (1620 <? feedrate self)%float
       then modify (set_feedrate 1620)
       else ret tt) ;;
      self <- get ;;
      on_device (DeskCNC.G1 fuel (posX self + offsetX self)
                   (posY self + offsetY self) (posZ self + offsetZ self)
                   (feedrate self)) ;;
      modify (set_mode (type gcode))
  | GCodeArcMoveCW =>
      on_device DeskCNC.G2 ;; modify (set_mode (type gcode))
  | GCodeArcMoveCCW =>
      on_device DeskCNC.G3 ;; modify (set_mode (type gcode))
  | GCodeSelectXYPlane => on_device DeskCNC.G17
  | GCodeSelectZXPlane => on_device DeskCNC.G18
  | GCodeSelectYZPlane => on_device DeskCNC.G19
  | GCodeUseInches => on_device DeskCNC.G20
  | GCodeUseMillimeters => on_device DeskCNC.G21
  | GCodeAbsoluteDistanceMode => modify (set_absolutepositionmode true)
  | GCodeIncrementalDistanceMode => modify (set_absolutepositionmode false)
  | GCodeUnitsPerMinuteMode => on_device DeskCNC.G94
  | GCodeStartSpindleCW =>
      on_device (DeskCNC.M3 fuel) ;; modify (set_spindleOn true)
  | GCodeStartSpindleCCW =>
      on_device (DeskCNC.M4 fuel) ;; modify (set_spindleOn true)
  | GCodeStopSpindle =>
      on_device (DeskCNC.M5 fuel) ;; modify (set_spindleOn false)
  | GCodeCoolantOff => on_device DeskCNC.M9
  | GCodeOther _ => ret tt
  end.

(** The [except serial.SerialException] clause of [executeGCode], up to the
    recursive call. *)
Definition executeGCode_except (fuel : nat) : M Parser unit :=
  on_device (DeskCNC.restart_device firmware_txt firmware_response_txt fuel) ;;
  modify (fun self => set_offsetX (- posX self) self) ;;
  modify (fun self => set_offsetY (- posY self) self) ;;
  modify (fun self => set_offsetZ (- posZ self) self) ;;
  self <- get ;;
  if spindleOn self then on_device (DeskCNC.M3 fuel) else ret tt.

Fixpoint executeGCode (fuel : nat) (gcode : GCode) : M Parser unit :=
  match fuel with
  | O => out_of_fuel
  | S n =>
      try_except (executeGCode_try n gcode) is_SerialException
        (fun err => executeGCode_except n ;; executeGCode n gcode)
  end.

(** [sorted(...)] on gcodes: stable, by [exec_order]. *)
Fixpoint insert_sorted (g : GCode) (l : list GCode) : list GCode :=
  match l with
  | [] => [g]
  | h :: t =>
      if exec_order (type g) <? exec_order (type h) then g :: h :: t
      else h :: insert_sorted g t
  end.

Definition sorted (l : list GCode) : list GCode :=
  fold_left (fun acc g => insert_sorted g acc) l [].

(** [self.mode()]: a gcode of the class stored in [mode], without
    parameters. *)
Definition instantiate (t : GCodeType) : GCode :=
  mkGCode t (default_word t) [].

(** [parseLine], from the parsed block of the line on. *)
Definition parseLine (fuel : nat) (block : Block) : M Parser unit :=
  for_each (modal_params block) (fun word => modify (applyWord word)) ;;
  for_each (sorted (gcodes block)) (executeGCode fuel) ;;
  if (List.length (gcodes block) =? 0)%nat
  then self <- get ;; executeGCode fuel (instantiate (mode self))
  else ret tt.

Definition run (fuel : nat) (input : list Block) : M Parser unit :=
  for_each input (parseLine fuel).

End Collaborators.

End ModalGCodeParser.

(** ** Definitions used to state the properties *)

Import ModalGCodeParser.

(** The step count [encodeValueMM] computes, and the reading of a position
    field back into steps. *)
Definition numsteps (val : float) : exn + Z :=
  and_then (truediv val 0.015) int.

Definition decodeSteps (b : bytes) : Z := from_bytes b true.

(** The reading of a feed field back into the device's feed unit. *)
Definition decodeFeed (b : bytes) : Z := from_bytes b false.

(** A float that is a number: a zero or [m * 2 ^ e], signed. *)
Definition finite (x : float) : bool :=
  match Prim2SF x with
  | S754_zero _ | S754_finite _ _ _ => true
  | S754_infinity _ | S754_nan => false
  end.

(** The rational number a finite float is, exactly. *)
Definition float_value (x : float) : Q :=
  match Prim2SF x with
  | S754_finite s m e =>
      let a :=
        if 0 <=? e then inject_Z (Z.pos m * 2 ^ e)
        else Z.pos m # Z.to_pos (2 ^ (- e)) in
      if s then (- a)%Q else a
  | _ => 0%Q
  end.

(** The feed encoder as the specification words it: [round(K / f)], then
    the clamp.  Compared with [encodeFeedrate] below. *)
Definition encodeFeedrate_rounding (mmPerMin : float) : exn + bytes :=
  and_then (truediv 3378400 mmPerMin) (fun quotient =>
  and_then (round quotient) (fun num =>
  let num := clip num 1250 62500 in
  to_bytes num 2 false)).

(** A port that is open, with nothing written and nothing to read. *)
Definition idle_port : Serial := mkSerial true [] [] [].

(** A command with its checksum, as [executeCommand] transmits it. *)
Definition framed (command : bytes) : bytes := command ++ checksum command.

Definition STATUS_FRAME : bytes := framed DeskCNC.STATUS_QUERY.

(** The command [M3] has [spindle] build: state byte 01. *)
Definition SPINDLE_ON : bytes :=
  [0x40; 0x4F] ++ bytearray 14 ++ [0x02] ++ [0x01] ++ bytearray 5.

(** The loop [while not self.machineReady(): time.sleep(0.001)]. *)
Definition wait_ready (fuel : nat) : M Serial unit :=
  while_not fuel DeskCNC.machineReady sleep.

Definition wrong_response : exn :=
  SerialException "wrong response from device".

(** Answers to a status query: [busy] is a non-empty answer that does not
    end in the done marker, [done] one that does.  [completes polls] holds
    when [polls] is a run of busy answers closed by a done one. *)
Definition busy (r : reading) : bool :=
  match r with
  | Data b =>
      negb (bytes_eqb (firstn 18 b) [])
      && negb (bytes_eqb (last_bytes 1 (firstn 18 b)) [0xEC])
  | ReadFails => false
  end.

Definition done (r : reading) : bool :=
  match r with
  | Data b => bytes_eqb (last_bytes 1 (firstn 18 b)) [0xEC]
  | ReadFails => false
  end.

Fixpoint completes (polls : list reading) : bool :=
  match polls with
  | [] => false
  | [d] => done d
  | b :: rest => busy b && completes rest
  end.

(** The data of an acknowledgement read is the accepted marker. *)
Definition accepted (a : bytes) : bool := bytes_eqb (firstn 1 a) [0x02].

(** How many times [frame] occurs in a log of written frames. *)
Definition transmissions (frame : bytes) (log : list bytes) : nat :=
  List.length (filter (bytes_eqb frame) log).

(** The port after one round of [executeCommand]: the frame and [polls]
    status queries written, the answers consumed up to [rest]. *)
Definition after_round (p : Serial) (frame : bytes) (polls : nat)
    (rest : list reading) : Serial :=
  mkSerial true (written p ++ frame :: repeat STATUS_FRAME polls) rest
    (opening p).

(** All words of a list applied in order. *)
Definition applyWords (words : list Word) (self : Parser) : Parser :=
  fold_left (fun s w => applyWord w s) words self.

(** The limit [executeGCode] puts on the feed rate of a linear move. *)
Definition clamp_feed (f : float) : float :=
  if (1620 <? f)%float then 1620%float else f.

(** The state in which a linear move reaches the device call: parameter
    words applied, feed rate limited. *)
Definition linear_ready (gcode : GCode) (self : Parser) : Parser :=
  let s := applyWords (params gcode) self in
  set_feedrate (clamp_feed (feedrate s)) s.

(** The three assignments of the [except] clause of [executeGCode]: each
    offset becomes the negated position. *)
Definition with_offsets (self : Parser) : Parser :=
  set_offsetZ (- posZ self)
    (set_offsetY (- posY self) (set_offsetX (- posX self) self)).

(** The body of the [while] loop of [restart_device]. *)
Definition restart_attempt (fw rsp : bytes) (fuel : nat) : M Serial unit :=
  try_except
    (Port.open ;;
     while_not fuel DeskCNC.reset pass ;;
     while_not fuel (DeskCNC.send_firmware fw rsp) pass)%monad
    DeskCNC.caught_on_restart
    (fun _ => Port.close ;; sleep)%monad.

(** The command bytes [G0] and [G1] build, when every field encodes. *)
Definition position_fields (x y z : float) : exn + bytes :=
  match encodeValueMM (- x), encodeValueMM y, encodeValueMM z with
  | inr bx, inr by_, inr bz => inr ((bx ++ by_) ++ bz)
  | inl e, _, _ => inl e
  | _, inl e, _ => inl e
  | _, _, inl e => inl e
  end.

Definition rapid_command (x y z : float) : exn + bytes :=
  match position_fields x y z, encodeFeedrate infinity with
  | inr pos, inr f =>
      inr (((([0x40; 0x4E] ++ pos) ++ f) ++ [0xDB; 0x00]) ++ bytearray 5)
  | inl e, _ => inl e
  | _, inl e => inl e
  end.

Definition linear_command (x y z f : float) : exn + bytes :=
  match position_fields x y z, encodeFeedrate f with
  | inr pos, inr fb => inr ((([0x40; 0x4D] ++ pos) ++ fb) ++ bytearray 7)
  | inl e, _ => inl e
  | _, inl e => inl e
  end.

(** The frames written so far on the translator's device. *)
Definition plog (self : Parser) : list bytes := written (device self).

(** Whatever its outcome, [c] takes a state to an [R]-related one. *)
Definition respects {St A} (R : St -> St -> Prop) (c : M St A) : Prop :=
  forall s r s', c s = (r, s') -> R s s'.

(** The two relations used below: the log of frames only grows, and the
    port stays as open or closed as it was. *)
Definition grows {St} (log : St -> list bytes) (s s' : St) : Prop :=
  exists more, log s' = log s ++ more.

Definition same_openness (p p' : Serial) : Prop := is_open p' = is_open p.

(** The fields of the translator other than its device. *)
Definition modal_fields (s : Parser) :=
  (posX s, posY s, posZ s, feedrate s, mode s,
   (offsetX s, offsetY s, offsetZ s), spindleOn s, absolutepositionmode s).

(** A coordinate after the words of one axis letter have been added to it,
    in the order of the list. *)
Definition shift (axis : string) (words : list Word) (x : float) : float :=
  fold_left
    (fun acc w => if (letter w =? axis)%string then (acc + value w)%float
                  else acc)
    words x.

(** No word of the list is an F word. *)
Definition no_F (words : list Word) : bool :=
  forallb (fun w => negb (letter w =? "F")%string) words.

(** The gcode classes after which [executeGCode] records the motion
    mode. *)
Definition is_motion (t : GCodeType) : bool :=
  match t with
  | GCodeRapidMove | GCodeLinearMove | GCodeArcMoveCW | GCodeArcMoveCCW =>
      true
  | _ => false
  end.

(** The block [pygcode] makes of a line of parameter words: the axis words
    stay modal parameters, and an F word becomes a gcode of its own, of
    class [GCodeFeedRate], holding that word and no parameters. *)
Definition parameter_line (axis_words : list Word) (F : option float)
    : Block :=
  mkBlock axis_words
    match F with
    | Some v => [mkGCode GCodeFeedRate (mkWord "F" v) []]
    | None => []
    end.

(** The XOR of all bytes of a string, as a number. *)
Definition xor_fold (b : bytes) : Z := fold_left Z.lxor b 0.

Definition is_byte (z : Z) : Prop := 0 <= z < 256.

(** One round of [executeCommand] as the device answers it: the
    acknowledgement, then the answers to the status queries.  [round_script]
    is what the port delivers in such a round, [round_frames] what the
    driver writes in it, and a round is rejected when the acknowledgement is
    not the accepted marker while the wait for readiness ends. *)
Definition round_script (r : bytes * list reading) : list reading :=
  Data (fst r) :: snd r.

Definition round_frames (frame : bytes) (r : bytes * list reading)
    : list bytes :=
  frame :: repeat STATUS_FRAME (List.length (snd r)).

Definition rejected_round (r : bytes * list reading) : bool :=
  negb (accepted (fst r)) && completes (snd r).

Definition not_responding : exn := SerialException "device not responding".

(** The command [M5] has [spindle] build: state byte 00. *)
Definition SPINDLE_OFF : bytes :=
  [0x40; 0x4F] ++ bytearray 14 ++ [0x02] ++ [0x00] ++ bytearray 5.

(** The gcode classes whose device method raises [NotImplementedError]. *)
Definition unsupported (t : GCodeType) : bool :=
  match t with
  | GCodeArcMoveCW | GCodeArcMoveCCW | GCodeSelectZXPlane
  | GCodeSelectYZPlane | GCodeUseInches => true
  | _ => false
  end.

(** The gcodes [executeGCode] handles without writing to the port, with
    what they do to the state once the parameter words are applied. *)
Definition local_effect (gcode : GCode) : option (Parser -> Parser) :=
  match type gcode with
  | GCodeFeedRate => Some (applyWord (word gcode))
  | GCodeAbsoluteDistanceMode => Some (set_absolutepositionmode true)
  | GCodeIncrementalDistanceMode => Some (set_absolutepositionmode false)
  | GCodeSelectXYPlane | GCodeUseMillimeters | GCodeUnitsPerMinuteMode
  | GCodeCoolantOff | GCodeOther _ => Some (fun self => self)
  | _ => None
  end.

(** The spindle gcodes: the command they send and the flag they leave. *)
Definition spindle_effect (t : GCodeType) : option (bytes * bool) :=
  match t with
  | GCodeStartSpindleCW | GCodeStartSpindleCCW => Some (SPINDLE_ON, true)
  | GCodeStopSpindle => Some (SPINDLE_OFF, false)
  | _ => None
  end.

(** A motion mode stays a motion mode. *)
Definition keeps_motion_mode (s s' : Parser) : Prop :=
  is_motion (mode s) = true -> is_motion (mode s') = true.

(** A port on which the device rejects three submissions in a row: every
    acknowledgement read is wrong (the third one times out with no data),
    and every wait for readiness ends. *)
Definition rejecting_port : Serial :=
  mkSerial true []
    [Data [0x03]; Data [0x00]; Data [0xEC];
     Data [0x15]; Data [0xEC];
     Data []; Data [0x00; 0xEC];
     Data [0x02]]
    [].

(** *** A small bench for concrete runs

    A three-byte firmware image with a one-byte expected response, the
    answers a device gives during a successful restart, to an accepted and
    to a rejected command, and a few gcodes and lines. *)
Definition bench_firmware : bytes := [0x01; 0x02; 0x03].
Definition bench_response : bytes := [0x07].

(** An execution order that ranks every gcode alike, so that [sorted] keeps
    the order of the line.  The lines of the runs below hold one gcode at
    most, and every order sorts those alike. *)
Definition unordered (t : GCodeType) : Z := 0.

Definition bench_default_word (t : GCodeType) : Word :=
  match t with
  | GCodeRapidMove => mkWord "G" 0
  | GCodeLinearMove => mkWord "G" 1
  | GCodeArcMoveCW => mkWord "G" 2
  | GCodeArcMoveCCW => mkWord "G" 3
  | _ => mkWord "G" 0
  end.

Definition bring_up : list reading :=
  [Data [0xFB; 0x32; 0x32; 0x34; 0xF5]; Data bench_response; Data []].

Definition accepting : list reading := [Data [0x02]; Data [0xEC]].

Definition rejecting : list reading := [Data [0x03]; Data [0xEC]].

Definition move_X10 : GCode :=
  mkGCode GCodeLinearMove (mkWord "G" 1) [mkWord "X" 10].

Definition rapid_X10 : GCode :=
  mkGCode GCodeRapidMove (mkWord "G" 0) [mkWord "X" 10].

(** The read of the acknowledgement fails; the restart then succeeds and
    the command is accepted. *)
Definition faulting_port : Serial :=
  mkSerial true [] (ReadFails :: bring_up ++ accepting) [].

(** The same with the spindle running: after the restart the reissued
    spindle-on is accepted, and then the command. *)
Definition faulting_port_spindle : Serial :=
  mkSerial true [] (ReadFails :: bring_up ++ accepting ++ accepting) [].

(** The read of the acknowledgement fails and the restart succeeds, but the
    device then rejects the reissued spindle-on three times. *)
Definition reissue_rejecting_port : Serial :=
  mkSerial true []
    (ReadFails :: bring_up ++ rejecting ++ rejecting ++ rejecting) [].

(** The command is rejected three times; the restart then succeeds and the
    command is accepted. *)
Definition thrice_rejecting_port : Serial :=
  mkSerial true []
    (rejecting ++ rejecting ++ rejecting ++ bring_up ++ accepting) [].

(** The command is rejected three times and the restart succeeds, but the
    device then rejects the reissued spindle-on three times as well. *)
Definition rejecting_throughout_port : Serial :=
  mkSerial true []
    (rejecting ++ rejecting ++ rejecting ++ bring_up
     ++ rejecting ++ rejecting ++ rejecting) [].

(** A closed port whose first [open()] fails and whose second one
    succeeds, the device then answering the reset and the firmware. *)
Definition reopening_port : Serial :=
  mkSerial false [] bring_up [Some OSError; None].

(** The device accepts two commands. *)
Definition accepting_twice_port : Serial :=
  mkSerial true [] (accepting ++ accepting) [].

(** Lines made of parameter words: X10 Y5, Y5, X20 F500 and X20. *)
Definition line_X10_Y5 : Block :=
  parameter_line [mkWord "X" 10; mkWord "Y" 5] None.

Definition line_Y5 : Block := parameter_line [mkWord "Y" 5] None.

Definition line_X20_F500 : Block :=
  parameter_line [mkWord "X" 20] (Some 500%float).

Definition line_X20 : Block := parameter_line [mkWord "X" 20] None.

(** A linear move asking for 2000 mm/min. *)
Definition fast_move : GCode :=
  mkGCode GCodeLinearMove (mkWord "G" 1) [mkWord "X" 10; mkWord "F" 2000].

(** ** The frame codec *)

Example encodeValueMM_1 : encodeValueMM 1 = inr [66; 0; 0; 0].
Proof. reflexivity. Qed.

Example encodeValueMM_m1 : encodeValueMM (-1) = inr [190; 255; 255; 255].
Proof. reflexivity. Qed.

Example encodeFeedrate_300 : encodeFeedrate 300 = inr [253; 43].
Proof. reflexivity. Qed.

Example checksum_COM_RESET :
  checksum (firstn 23 COM_RESET) = last_bytes 1 COM_RESET.
Proof. reflexivity. Qed.

(** *** Floats *)

Lemma float_of_spec (x : float) (sf : spec_float) :
  Prim2SF x = sf -> x = SF2Prim sf.
Proof. intros <-. symmetry. apply SF2Prim_Prim2SF. Qed.

(** A float above zero is plus infinity or a positive number. *)
Lemma positive_float (f : float) :
  (0 <? f)%float = true ->
  f = infinity \/ exists m e, Prim2SF f = S754_finite false m e.
Proof.
  rewrite ltb_spec. change (Prim2SF 0) with (S754_zero false).
  destruct (Prim2SF f) as [s | s | | s m e] eqn:E; cbn; try discriminate.
  - destruct s; [discriminate|]. intros _. left.
    exact (float_of_spec _ _ E).
  - destruct s; [discriminate|]. intros _. right. now exists m, e.
Qed.

Lemma iter_pos_invariant {A} (P : A -> Prop) (f : A -> A) :
  (forall a, P a -> P (f a)) ->
  forall n a, P a -> P (iter_pos f n a).
Proof.
  intros Hf. induction n as [n IH | n IH |]; intros a Ha; cbn; auto.
Qed.

Lemma shr_1_nonneg mrs : 0 <= shr_m mrs -> 0 <= shr_m (shr_1 mrs).
Proof.
  destruct mrs as [m r s]. cbn [shr_m]. intros H.
  destruct m as [|[p|p|]|p]; cbn; lia.
Qed.

Lemma shr_fexp_nonneg m e l :
  0 <= m -> 0 <= shr_m (fst (shr_fexp prec emax m e l)).
Proof.
  intros H. unfold shr_fexp, shr.
  assert (H0 : 0 <= shr_m (shr_record_of_loc m l))
    by (destruct l as [|[| |]]; exact H).
  destruct (fexp prec emax (Zdigits2 m + e) - e) as [|p|p]; cbn [fst];
    try exact H0.
  apply (iter_pos_invariant (fun mrs => 0 <= shr_m mrs)); [|exact H0].
  exact shr_1_nonneg.
Qed.

Lemma round_nearest_even_nonneg m l : 0 <= m -> 0 <= round_nearest_even m l.
Proof.
  intros H. destruct l as [|[| |]]; cbn; try lia.
  destruct (Z.even m); lia.
Qed.

(** Rounding a non-negative mantissa gives a zero, a positive number or
    plus infinity. *)
Lemma binary_round_aux_nonneg mx ex lx :
  0 <= mx ->
  match binary_round_aux prec emax false mx ex lx with
  | S754_zero s | S754_infinity s | S754_finite s _ _ => s = false
  | S754_nan => False
  end.
Proof.
  intros H. unfold binary_round_aux.
  pose proof (shr_fexp_nonneg mx ex lx H) as H1.
  destruct (shr_fexp prec emax mx ex lx) as [mrs' e']. cbn [fst] in H1.
  pose proof (round_nearest_even_nonneg _ (loc_of_shr_record mrs') H1) as H2.
  pose proof (shr_fexp_nonneg _ e' loc_Exact H2) as H3.
  destruct (shr_fexp prec emax _ e' loc_Exact) as [mrs'' e''].
  cbn [fst] in H3.
  destruct (shr_m mrs'') as [|m|m]; [reflexivity| |lia].
  destruct (e'' <=? emax - prec); reflexivity.
Qed.

Lemma SFdiv_core_nonneg mx ex my ey :
  0 <= fst (fst (SFdiv_core_binary prec emax (Z.pos mx) ex (Z.pos my) ey)).
Proof.
  unfold SFdiv_core_binary.
  set (s := ex - ey - _).
  set (m' := match s with Z0 => Z.pos mx | Z.pos _ => Z.shiftl (Z.pos mx) s
                        | Z.neg _ => 0 end).
  assert (Hm : 0 <= m').
  { unfold m'. destruct s; try lia. apply Z.shiftl_nonneg. lia. }
  pose proof (Z_div_mod m' (Z.pos my) eq_refl) as Hd.
  destruct (Z.div_eucl m' (Z.pos my)) as [q r]. cbn [fst].
  destruct Hd as [Hq Hr]. nia.
Qed.

(** The quotient of two positive numbers is a zero, a positive number or
    plus infinity. *)
Lemma quotient_of_positives (x y : float) mx ex my ey :
  Prim2SF x = S754_finite false mx ex ->
  Prim2SF y = S754_finite false my ey ->
  (x / y)%float = infinity
  \/ finite (x / y) = true
     /\ match Prim2SF (x / y) with
        | S754_zero s | S754_finite s _ _ => s = false
        | _ => False
        end.
Proof.
  intros Hx Hy.
  pose proof (div_spec x y) as Hd. rewrite Hx, Hy in Hd.
  unfold SF64div, SFdiv in Hd. cbn [xorb] in Hd.
  pose proof (SFdiv_core_nonneg mx ex my ey) as Hn.
  destruct (SFdiv_core_binary prec emax (Z.pos mx) ex (Z.pos my) ey)
    as [[mz ez] lz].
  cbn [fst] in Hn.
  pose proof (binary_round_aux_nonneg mz ez lz Hn) as Hr.
  rewrite <- Hd in Hr. unfold finite.
  destruct (Prim2SF (x / y)) as [s | s | | s m e] eqn:E.
  - right. split; [reflexivity|exact Hr].
  - left. subst s. exact (float_of_spec _ _ E).
  - contradiction.
  - right. split; [reflexivity|exact Hr].
Qed.

(** [int] truncates toward zero: it gives the floor of a number that is not
    negative and the ceiling of a number that is not positive. *)
Lemma int_of_finite (x : float) :
  finite x = true -> exists n, int x = inr n.
Proof.
  unfold finite, int. destruct (Prim2SF x); try discriminate; eauto.
Qed.

Lemma int_is_finite (x : float) n : int x = inr n -> finite x = true.
Proof.
  unfold finite, int. destruct (Prim2SF x); try discriminate; reflexivity.
Qed.

Lemma Qfloor_magnitude m e :
  Qfloor (if 0 <=? e then inject_Z (Z.pos m * 2 ^ e)
          else Z.pos m # Z.to_pos (2 ^ (- e)))
  = (if 0 <=? e then Z.pos m * 2 ^ e else Z.pos m / 2 ^ (- e)).
Proof.
  destruct (Z.leb_spec 0 e) as [He | He].
  - apply Qfloor_Z.
  - cbn [Qfloor]. rewrite Z2Pos.id; [reflexivity|].
    apply Z.pow_pos_nonneg; lia.
Qed.

Lemma magnitude_pos m e :
  (0 < (if 0 <=? e then inject_Z (Z.pos m * 2 ^ e)
        else Z.pos m # Z.to_pos (2 ^ (- e))))%Q.
Proof.
  destruct (Z.leb_spec 0 e) as [He | He].
  - assert (H : 0 < 2 ^ e) by (apply Z.pow_pos_nonneg; lia).
    unfold Qlt, inject_Z. cbn [Qnum Qden]. nia.
  - reflexivity.
Qed.

Lemma int_truncates (x : float) (n : Z) :
  int x = inr n ->
  ((0 <= float_value x)%Q -> n = Qfloor (float_value x))
  /\ ((float_value x <= 0)%Q -> n = Qceiling (float_value x)).
Proof.
  unfold int, float_value.
  destruct (Prim2SF x) as [s | s | | s m e]; try discriminate.
  - intros H. inversion H. split; reflexivity.
  - intros H. inversion H as [Hn]. clear H Hn.
    pose proof (magnitude_pos m e) as Hpos.
    pose proof (Qfloor_magnitude m e) as Hfl.
    cbv zeta.
    set (a := if 0 <=? e then inject_Z (Z.pos m * 2 ^ e)
              else Z.pos m # Z.to_pos (2 ^ (- e))) in *.
    destruct s.
    + split.
      * intros Hle. exfalso.
        apply (Qlt_irrefl 0). apply Qlt_le_trans with a; [exact Hpos|].
        apply Qopp_le_compat in Hle. rewrite Qopp_involutive in Hle.
        exact Hle.
      * intros _. unfold Qceiling.
        rewrite (Qfloor_comp _ a (Qopp_involutive a)), Hfl. reflexivity.
    + split.
      * intros _. now rewrite Hfl.
      * intros Hle. exfalso. apply (Qlt_irrefl 0).
        apply Qlt_le_trans with a; assumption.
Qed.

Lemma length_le_digits k n : List.length (le_digits k n) = k.
Proof.
  revert n. induction k; simpl; intros; [reflexivity | now rewrite IHk].
Qed.

Lemma from_le_digits k n :
  from_digits (le_digits k n) = n mod 256 ^ Z.of_nat k.
Proof.
  revert n. induction k as [|k IH]; intros n.
  - simpl. now rewrite Z.mod_1_r.
  - cbn [le_digits from_digits]. rewrite IH.
    rewrite Nat2Z.inj_succ, Z.pow_succ_r by lia.
    rewrite Z.rem_mul_r by lia. lia.
Qed.

Lemma from_bytes_signed4 n :
  - 2 ^ 31 <= n < 2 ^ 31 ->
  from_bytes (le_digits 4 (n mod 2 ^ 32)) true = n.
Proof.
  intros Hn. unfold from_bytes.
  rewrite from_le_digits, length_le_digits.
  change (256 ^ Z.of_nat 4) with (2 ^ 32).
  change (8 * Z.of_nat 4) with 32. change (32 - 1) with 31.
  rewrite Z.mod_mod by lia. rewrite Bool.andb_true_l.
  destruct (Z.leb_spec (2 ^ 31) (n mod 2 ^ 32)) as [H | H].
  - assert (n < 0).
    { destruct (Z.lt_ge_cases n 0); [assumption|].
      rewrite Z.mod_small in H by lia. lia. }
    rewrite <- (Z.mod_unique n (2 ^ 32) (-1) (n + 2 ^ 32)); lia.
  - destruct (Z.lt_ge_cases n 0) as [Hneg | Hpos].
    + rewrite <- (Z.mod_unique n (2 ^ 32) (-1) (n + 2 ^ 32)) in H; lia.
    + apply Z.mod_small. lia.
Qed.

Lemma from_bytes_unsigned2 n :
  0 <= n < 2 ^ 16 -> from_bytes (le_digits 2 n) false = n.
Proof.
  intros Hn. unfold from_bytes. rewrite Bool.andb_false_l.
  rewrite from_le_digits. change (256 ^ Z.of_nat 2) with (2 ^ 16).
  apply Z.mod_small. lia.
Qed.

Lemma clip_bounds a : 1250 <= clip a MAX_FEEDRATE MIN_FEEDRATE <= 62500.
Proof. unfold clip, MAX_FEEDRATE, MIN_FEEDRATE. lia. Qed.

Lemma encodeFeedrate_clipped num :
  to_bytes (clip num MAX_FEEDRATE MIN_FEEDRATE) 2 false
  = inr (le_digits 2 (clip num MAX_FEEDRATE MIN_FEEDRATE)).
Proof.
  pose proof (clip_bounds num) as H. unfold to_bytes.
  change (2 ^ (8 * Z.of_nat 2)) with 65536.
  destruct (Z.leb_spec 0 (clip num MAX_FEEDRATE MIN_FEEDRATE)); [|lia].
  destruct (Z.ltb_spec (clip num MAX_FEEDRATE MIN_FEEDRATE) 65536); [|lia].
  reflexivity.
Qed.

Lemma positive_is_not_zero (f : float) :
  (0 <? f)%float = true -> (f =? 0)%float = false.
Proof.
  rewrite ltb_spec, eqb_spec. change (Prim2SF 0) with (S754_zero false).
  destruct (Prim2SF f) as [s | s | | s m e]; cbn; try discriminate;
    destruct s; try discriminate; reflexivity.
Qed.

Lemma float_value_nonneg (x : float) :
  match Prim2SF x with
  | S754_zero s | S754_finite s _ _ => s = false
  | _ => False
  end ->
  (0 <= float_value x)%Q.
Proof.
  unfold float_value.
  destruct (Prim2SF x) as [s | s | | s m e]; try contradiction.
  - intros _. apply Qle_refl.
  - intros ->. apply Qlt_le_weak. apply magnitude_pos.
Qed.

Lemma truediv_nonzero (a b : float) :
  (b =? 0)%float = false -> truediv a b = inr (a / b)%float.
Proof. unfold truediv. now intros ->. Qed.

Lemma numsteps_quotient (v : float) : numsteps v = int (v / 0.015).
Proof. reflexivity. Qed.

Lemma encodeValueMM_numsteps (v : float) :
  encodeValueMM v
  = and_then (numsteps v) (fun numsteps => to_bytes numsteps 4 true).
Proof. reflexivity. Qed.

Lemma encodeFeedrate_quotient (f : float) :
  (f =? 0)%float = false ->
  encodeFeedrate f
  = and_then (int (3378400 / f))
      (fun num => inr (le_digits 2 (clip num MAX_FEEDRATE MIN_FEEDRATE))).
Proof.
  intros Hz. unfold encodeFeedrate. rewrite (truediv_nonzero _ _ Hz).
  cbn [and_then]. destruct (int (3378400 / f)) as [e | num]; [reflexivity|].
  cbn [and_then]. apply encodeFeedrate_clipped.
Qed.

(** The quotients are the rounded binary64 ones: 0.9899999999999999 / 0.015
    is 66.0 (the exact quotient is below 66), and 3378400 / 791.7506444809
    is 4267.0 (the exact quotient is below 4267). *)
Example encodeValueMM_binary64_quotient :
  encodeValueMM 0.9899999999999999 = inr [66; 0; 0; 0].
Proof. reflexivity. Qed.

Example encodeFeedrate_binary64_quotient :
  encodeFeedrate 791.7506444809 = inr [0xAB; 0x10]
  /\ decodeFeed [0xAB; 0x10] = 4267.
Proof. split; reflexivity. Qed.

(** A feed rate of zero, of either sign, cannot be encoded, and neither can
    NaN; a negative feed rate encodes as the fastest one. *)
Example encodeFeedrate_outside_the_claim :
  encodeFeedrate 0 = inl ZeroDivisionError
  /\ encodeFeedrate (-0) = inl ZeroDivisionError
  /\ encodeFeedrate nan = inl ValueError
  /\ encodeFeedrate (-300) = inr (le_digits 2 1250).
Proof. repeat split. Qed.

(** C3, as stated, fails twice.  At 900 mm/min the quotient is 3753.78,
    which the code truncates to 3753 (bytes A9 0E) where rounding gives 3754
    (bytes AA 0E).  And at the positive feed rate 1e-310 the quotient
    overflows to infinity: [int] raises [OverflowError] and no value in
    [1250, 62500] is emitted. *)
Lemma encodeFeedrate_is_not_round_then_clamp :
  encodeFeedrate 900 = inr [0xA9; 0x0E]
  /\ encodeFeedrate_rounding 900 = inr [0xAA; 0x0E]
  /\ encodeFeedrate 900 <> encodeFeedrate_rounding 900
  /\ (0 <? 1e-310)%float = true
  /\ finite 1e-310 = true
  /\ (3378400 / 1e-310)%float = infinity
  /\ encodeFeedrate 1e-310 = inl OverflowError.
Proof.
  split; [reflexivity|]. split; [reflexivity|].
  split; [discriminate|]. repeat split.
Qed.

(** C3, amended: for every positive finite feed rate [f], the binary64
    quotient [3378400 / f] is a number that is not negative, or it has
    overflowed to infinity.  In the first case [encodeFeedrate] truncates
    the quotient toward zero (its floor), clamps the result into
    [1250, 62500] and emits it as two little-endian unsigned bytes, so the
    encoded value lies in [1250, 62500]; in the second case [int] raises
    [OverflowError] and nothing is encoded.  An infinite feed rate encodes
    to exactly 1250. *)
Theorem encodeFeedrate_truncates_then_clamps (f : float) :
  (0 <? f)%float = true ->
  f <> infinity ->
  let q := (3378400 / f)%float in
  (q = infinity \/ finite q = true)
  /\ (q = infinity -> encodeFeedrate f = inl OverflowError)
  /\ (finite q = true ->
      exists n num : Z,
        int q = inr n
        /\ n = Qfloor (float_value q)
        /\ num = clip n 1250 62500
        /\ 1250 <= num <= 62500
        /\ encodeFeedrate f = inr (le_digits 2 num)
        /\ decodeFeed (le_digits 2 num) = num)
  /\ encodeFeedrate infinity = inr (le_digits 2 1250)
  /\ decodeFeed (le_digits 2 1250) = 1250.
Proof.
  intros Hpos Hfin q.
  pose proof (positive_is_not_zero f Hpos) as Hz.
  destruct (positive_float f Hpos) as [Hinf | (m & e & Hf)];
    [contradiction|].
  assert (Hclass :
            q = infinity
            \/ finite q = true
               /\ match Prim2SF q with
                  | S754_zero s | S754_finite s _ _ => s = false
                  | _ => False
                  end).
  { apply (quotient_of_positives 3378400 f 7255058756403200 (-31) m e);
      [reflexivity|exact Hf]. }
  split; [destruct Hclass as [H | [H _]]; [now left|now right]|].
  split.
  { intros Hq. rewrite (encodeFeedrate_quotient f Hz). fold q.
    rewrite Hq. reflexivity. }
  split; [|split; reflexivity].
  intros Hq.
  destruct Hclass as [H | [_ Hsign]].
  { rewrite H in Hq. discriminate Hq. }
  destruct (int_of_finite q Hq) as [n Hn].
  exists n, (clip n MAX_FEEDRATE MIN_FEEDRATE).
  pose proof (clip_bounds n) as Hb.
  split; [exact Hn|].
  split; [apply (int_truncates q n Hn); now apply float_value_nonneg|].
  split; [reflexivity|]. split; [exact Hb|].
  split.
  - rewrite (encodeFeedrate_quotient f Hz). fold q. rewrite Hn.
    reflexivity.
  - apply from_bytes_unsigned2. lia.
Qed.

Lemma encodeFeedrate_truncates_then_clamps_witness :
  (0 <? 900)%float = true
  /\ 900%float <> infinity
  /\ finite (3378400 / 900) = true
  /\ exists n num : Z,
       int (3378400 / 900) = inr n
       /\ n = Qfloor (float_value (3378400 / 900))
       /\ num = clip n 1250 62500
       /\ 1250 <= num <= 62500
       /\ encodeFeedrate 900 = inr (le_digits 2 num)
       /\ decodeFeed (le_digits 2 num) = num.
Proof.
  assert (Hpos : (0 <? 900)%float = true) by reflexivity.
  assert (Hfin : 900%float <> infinity) by discriminate.
  split; [exact Hpos|]. split; [exact Hfin|]. split; [reflexivity|].
  apply (encodeFeedrate_truncates_then_clamps 900 Hpos Hfin).
  reflexivity.
Defined.

(** C4, as stated, fails: 100000000 mm is 6666666666 steps, which does not
    fit four signed bytes; [to_bytes] raises [OverflowError] and nothing is
    encoded. *)
Lemma encodeValueMM_overflows :
  numsteps 100000000 = inr 6666666666
  /\ encodeValueMM 100000000 = inl OverflowError
  /\ ~ (forall v : float, finite v = true ->
          exists b n, encodeValueMM v = inr b
                      /\ numsteps v = inr n /\ decodeSteps b = n).
Proof.
  split; [reflexivity|]. split; [reflexivity|].
  intros H. destruct (H 100000000%float eq_refl) as (b & n & Hb & _).
  discriminate Hb.
Qed.

(** C4, amended: for every millimetre value [v] whose step count
    [int(v / 0.015)] exists and fits a signed 32-bit integer,
    [encodeValueMM] emits, as four little-endian signed bytes, the binary64
    quotient [v / 0.015] truncated toward zero: its floor when the quotient
    is not negative and its ceiling when it is not positive; 1.0 encodes 66
    steps and -1.0 encodes -66 steps. *)
Theorem encodeValueMM_truncates_toward_zero (v : float) (n : Z) :
  numsteps v = inr n ->
  - 2 ^ 31 <= n < 2 ^ 31 ->
  let q := float_value (v / 0.015) in
  exists b : bytes,
    encodeValueMM v = inr b
    /\ List.length b = 4%nat
    /\ decodeSteps b = n
    /\ finite (v / 0.015) = true
    /\ ((0 <= q)%Q -> n = Qfloor q)
    /\ ((q <= 0)%Q -> n = Qceiling q)
    /\ (exists b1, encodeValueMM 1 = inr b1 /\ decodeSteps b1 = 66)
    /\ (exists b2, encodeValueMM (-1) = inr b2 /\ decodeSteps b2 = -66).
Proof.
  intros Hn Hr q. exists (le_digits 4 (n mod 2 ^ 32)).
  rewrite numsteps_quotient in Hn.
  destruct (int_truncates _ _ Hn) as [Hfloor Hceil].
  split; [|split; [|split; [|split; [|split; [|split; [|split]]]]]].
  - rewrite encodeValueMM_numsteps, numsteps_quotient, Hn.
    cbn [and_then]. unfold to_bytes.
    change (8 * Z.of_nat 4 - 1) with 31. change (8 * Z.of_nat 4) with 32.
    destruct (Z.leb_spec (- 2 ^ 31) n); [|lia].
    destruct (Z.ltb_spec n (2 ^ 31)); [|lia].
    reflexivity.
  - apply length_le_digits.
  - apply from_bytes_signed4. assumption.
  - exact (int_is_finite _ _ Hn).
  - exact Hfloor.
  - exact Hceil.
  - exists [66; 0; 0; 0]. split; reflexivity.
  - exists [190; 255; 255; 255]. split; reflexivity.
Qed.

Lemma encodeValueMM_truncates_toward_zero_witness :
  numsteps (-1) = inr (-66)
  /\ (float_value (-1 / 0.015) <= 0)%Q
  /\ Qceiling (float_value (-1 / 0.015)) = -66
  /\ Qfloor (float_value (-1 / 0.015)) = -67
  /\ exists b : bytes,
       encodeValueMM (-1) = inr b
       /\ List.length b = 4%nat
       /\ decodeSteps b = -66.
Proof.
  assert (Hn : numsteps (-1) = inr (-66)) by reflexivity.
  assert (Hr : - 2 ^ 31 <= -66 < 2 ^ 31)
    by (split; [vm_compute; discriminate|reflexivity]).
  split; [exact Hn|]. split; [vm_compute; discriminate|].
  split; [reflexivity|]. split; [reflexivity|].
  destruct (encodeValueMM_truncates_toward_zero (-1) (-66) Hn Hr)
    as (b & Hb & Hl & Hd & _).
  now exists b.
Defined.

(** ** applyWord *)

Lemma set_feedrate_same (self : Parser) :
  set_feedrate (feedrate self) self = self.
Proof. destruct self; reflexivity. Qed.

(** C5, as stated, fails for the letter F: in Incremental mode an F word
    replaces the feed rate; it is not added to it.  From 300 mm/min, F100
    gives 100 and not 400. *)
Lemma applyWord_F_incremental_not_added :
  let self := set_absolutepositionmode false (init idle_port) in
  absolutepositionmode self = false
  /\ feedrate self = 300%float
  /\ feedrate (applyWord (mkWord "F" 100) self) = 100%float
  /\ (feedrate self + 100 = 400)%float
  /\ feedrate (applyWord (mkWord "F" 100) self)
     <> (feedrate self + 100)%float.
Proof.
  cbv zeta. split; [reflexivity|]. split; [reflexivity|].
  split; [reflexivity|]. split; [reflexivity|].
  intros H. vm_compute in H. discriminate H.
Qed.

(** C5, amended: for a word with letter X, Y or Z, [applyWord] replaces the
    corresponding position field by the word's value in Absolute mode and
    adds the value to it in Incremental mode; for a word with letter F it
    replaces the feed rate by the word's value in both modes.  Applying X10
    then X-3 from position X=0 yields X=7 in incremental mode and X=-3 in
    absolute mode. *)
Theorem applyWord_by_distance_mode (v : float) (self : Parser) :
  applyWord (mkWord "X" v) self
  = set_posX (if absolutepositionmode self then v else posX self + v)%float
      self
  /\ applyWord (mkWord "Y" v) self
     = set_posY (if absolutepositionmode self then v else posY self + v)%float
         self
  /\ applyWord (mkWord "Z" v) self
     = set_posZ (if absolutepositionmode self then v else posZ self + v)%float
         self
  /\ applyWord (mkWord "F" v) self = set_feedrate v self
  /\ posX (applyWord (mkWord "X" (-3))
             (applyWord (mkWord "X" 10)
                (set_absolutepositionmode false (init (device self)))))
     = 7%float
  /\ posX (applyWord (mkWord "X" (-3))
             (applyWord (mkWord "X" 10)
                (set_absolutepositionmode true (init (device self)))))
     = (-3)%float.
Proof.
  split; [|split; [|split; [|split; [|split]]]];
    try (unfold applyWord; destruct (absolutepositionmode self);
         reflexivity);
    reflexivity.
Qed.

(** ** Relations every step of a computation respects *)

Section Respects.

Context {St : Type}.
Variable R : St -> St -> Prop.
Hypothesis R_refl : forall s, R s s.
Hypothesis R_trans : forall s1 s2 s3, R s1 s2 -> R s2 s3 -> R s1 s3.

Lemma respects_ret {A} (a : A) : respects R (ret a).
Proof. intros s r s' H. inversion H; subst. apply R_refl. Qed.

Lemma respects_raise {A} e : respects R (@raise St A e).
Proof. intros s r s' H. inversion H; subst. apply R_refl. Qed.

Lemma respects_out_of_fuel {A} : respects R (@out_of_fuel St A).
Proof. intros s r s' H. inversion H; subst. apply R_refl. Qed.

Lemma respects_get : respects R (@get St).
Proof. intros s r s' H. inversion H; subst. apply R_refl. Qed.

Lemma respects_modify (f : St -> St) :
  (forall s, R s (f s)) -> respects R (modify f).
Proof. intros Hf s r s' H. inversion H; subst. apply Hf. Qed.

Lemma respects_bind {A B} (c : M St A) (k : A -> M St B) :
  respects R c -> (forall a, respects R (k a)) -> respects R (bind c k).
Proof.
  intros Hc Hk s r s' H. unfold bind in H.
  destruct (c s) as [[a | e |] s1] eqn:E; pose proof (Hc _ _ _ E) as H1.
  - exact (R_trans _ _ _ H1 (Hk a _ _ _ H)).
  - now inversion H; subst.
  - now inversion H; subst.
Qed.

Lemma respects_try_except {A} (c : M St A) handles handler :
  respects R c -> (forall e, respects R (handler e)) ->
  respects R (try_except c handles handler).
Proof.
  intros Hc Hh s r s' H. unfold try_except in H.
  destruct (c s) as [[a | e |] s1] eqn:E; pose proof (Hc _ _ _ E) as H1.
  - now inversion H; subst.
  - destruct (handles e).
    + exact (R_trans _ _ _ H1 (Hh e _ _ _ H)).
    + now inversion H; subst.
  - now inversion H; subst.
Qed.

Lemma respects_if {A} (b : bool) (c1 c2 : M St A) :
  respects R c1 -> respects R c2 -> respects R (if b then c1 else c2).
Proof. now destruct b. Qed.

Lemma respects_lift_exn {A} (r : exn + A) : respects R (lift_exn r).
Proof. destruct r; [apply respects_raise | apply respects_ret]. Qed.

Lemma respects_while_not fuel cond body :
  respects R cond -> respects R body ->
  respects R (while_not fuel cond body).
Proof.
  intros Hc Hb. induction fuel as [|n IH]; simpl.
  - apply respects_out_of_fuel.
  - apply respects_bind; [assumption|]. intros b.
    apply respects_if; [apply respects_ret|].
    apply respects_bind; [assumption | intros _; exact IH].
Qed.

Lemma respects_for_each {A} (xs : list A) body :
  (forall x, respects R (body x)) -> respects R (for_each xs body).
Proof.
  intros Hb. induction xs as [|x xs IH]; simpl.
  - apply respects_ret.
  - apply respects_bind; [apply Hb | intros _; exact IH].
Qed.

End Respects.

Lemma grows_refl {St} (log : St -> list bytes) s : grows log s s.
Proof. exists []. now rewrite app_nil_r. Qed.

Lemma grows_trans {St} (log : St -> list bytes) s1 s2 s3 :
  grows log s1 s2 -> grows log s2 s3 -> grows log s1 s3.
Proof.
  intros [m1 H1] [m2 H2]. exists (m1 ++ m2).
  now rewrite H2, H1, app_assoc.
Qed.

Lemma same_openness_refl p : same_openness p p.
Proof. reflexivity. Qed.

Lemma same_openness_trans p1 p2 p3 :
  same_openness p1 p2 -> same_openness p2 p3 -> same_openness p1 p3.
Proof. unfold same_openness. congruence. Qed.

Create HintDb respects.
#[local] Hint Resolve grows_refl grows_trans same_openness_refl
  same_openness_trans : respects.
#[local] Hint Resolve respects_ret respects_raise respects_out_of_fuel
  respects_get respects_lift_exn : respects.

Ltac respects_step :=
  first
    [ solve [eauto with respects]
    | apply respects_bind; [solve [eauto with respects]| |intro]
    | apply respects_if
    | apply respects_while_not;
        [solve [eauto with respects]|solve [eauto with respects]| |]
    | apply respects_try_except; [solve [eauto with respects]| |intro] ].

Ltac respects_tac := repeat respects_step.

(** *** The methods of the device *)

Section Device.

(** A relation on ports that reading and writing respect. *)
Variable R : Serial -> Serial -> Prop.
Hypothesis R_refl : forall s, R s s.
Hypothesis R_trans : forall s1 s2 s3, R s1 s2 -> R s2 s3 -> R s1 s3.
Hypothesis R_write : forall b, respects R (Port.write b).
Hypothesis R_read : forall size, respects R (Port.read size).
Hypothesis R_inWaiting : respects R Port.inWaiting.

#[local] Hint Resolve R_refl R_trans R_write R_read R_inWaiting : respects.

Lemma respects_reset : respects R DeskCNC.reset.
Proof. unfold DeskCNC.reset. respects_tac. Qed.

Lemma respects_send_chunks cs response :
  respects R (DeskCNC.send_chunks cs response).
Proof.
  revert response. induction cs as [|c cs IH]; intros response; simpl;
    respects_tac.
Qed.

#[local] Hint Resolve respects_reset respects_send_chunks : respects.

Lemma respects_send_firmware fw rsp :
  respects R (DeskCNC.send_firmware fw rsp).
Proof. unfold DeskCNC.send_firmware. respects_tac. Qed.

Lemma respects_machineReady : respects R DeskCNC.machineReady.
Proof. unfold DeskCNC.machineReady. respects_tac. Qed.

#[local] Hint Resolve respects_send_firmware respects_machineReady
  : respects.

Lemma respects_executeCommand fuel command count :
  respects R (DeskCNC.executeCommand fuel command count).
Proof.
  revert count. induction fuel as [|n IH]; intros count; simpl;
    unfold sleep; respects_tac.
Qed.

#[local] Hint Resolve respects_executeCommand : respects.

Lemma respects_G0 fuel x y z : respects R (DeskCNC.G0 fuel x y z).
Proof. unfold DeskCNC.G0. respects_tac. Qed.

Lemma respects_G1 fuel x y z f : respects R (DeskCNC.G1 fuel x y z f).
Proof. unfold DeskCNC.G1. respects_tac. Qed.

Lemma respects_spindle fuel state :
  respects R (DeskCNC.spindle fuel state).
Proof. unfold DeskCNC.spindle, sleep. respects_tac. Qed.

Hypothesis R_close : respects R Port.close.
Hypothesis R_open : respects R Port.open.

Lemma respects_is_open_now : respects R DeskCNC.is_open_now.
Proof. intros p r p' H. inversion H; subst. apply R_refl. Qed.

#[local] Hint Resolve R_close R_open respects_is_open_now : respects.

Lemma respects_restart_device fw rsp fuel :
  respects R (DeskCNC.restart_device fw rsp fuel).
Proof. unfold DeskCNC.restart_device, sleep, pass. respects_tac. Qed.

End Device.

(** *** The port primitives *)

Lemma write_open p b :
  is_open p = true ->
  Port.write b p
  = (Val tt, mkSerial true (written p ++ [b]) (incoming p) (opening p)).
Proof. intros Ho. unfold Port.write. now rewrite Ho. Qed.

Lemma read_data p size b rest :
  is_open p = true -> incoming p = Data b :: rest ->
  Port.read size p
  = (Val (firstn size b), mkSerial true (written p) rest (opening p)).
Proof.
  intros Ho Hi. unfold Port.read, Port.set_incoming. now rewrite Ho, Hi.
Qed.

Lemma read_writes size p r p' :
  Port.read size p = (r, p') -> written p' = written p.
Proof.
  unfold Port.read. destruct (is_open p); [|now inversion 1].
  destruct (incoming p) as [|[b|] rest]; now inversion 1.
Qed.

Lemma grows_close : respects (grows written) Port.close.
Proof.
  intros p r p' H. inversion H; subst. exists []. now rewrite app_nil_r.
Qed.

Lemma grows_open : respects (grows written) Port.open.
Proof.
  intros p r p' H. unfold Port.open in H. exists [].
  rewrite app_nil_r.
  destruct (is_open p); [now inversion H|].
  destruct (opening p) as [|[e|] rest]; now inversion H.
Qed.

Lemma grows_write b : respects (grows written) (Port.write b).
Proof.
  intros p r p' H. unfold Port.write in H.
  destruct (is_open p); inversion H; subst; simpl.
  - now exists [b].
  - apply grows_refl.
Qed.

Lemma grows_read size : respects (grows written) (Port.read size).
Proof.
  intros p r p' H. apply read_writes in H. exists [].
  now rewrite app_nil_r.
Qed.

Lemma grows_inWaiting : respects (grows written) Port.inWaiting.
Proof.
  intros p r p' H. unfold Port.inWaiting in H. exists [].
  rewrite app_nil_r.
  destruct (is_open p); [|now inversion H].
  destruct (incoming p) as [|[b|] rest]; now inversion H.
Qed.

Lemma same_openness_write b : respects same_openness (Port.write b).
Proof.
  intros p r p' H. unfold Port.write in H. unfold same_openness.
  destruct (is_open p) eqn:E; inversion H; subst; simpl; congruence.
Qed.

Lemma same_openness_read size : respects same_openness (Port.read size).
Proof.
  intros p r p' H. unfold Port.read in H. unfold same_openness.
  destruct (is_open p) eqn:E; [|inversion H; subst; congruence].
  destruct (incoming p) as [|[b|] rest]; inversion H; subst; simpl;
    congruence.
Qed.

Lemma same_openness_inWaiting : respects same_openness Port.inWaiting.
Proof.
  intros p r p' H. unfold Port.inWaiting in H. unfold same_openness.
  destruct (is_open p) eqn:E; [|inversion H; subst; congruence].
  destruct (incoming p) as [|[b|] rest]; inversion H; subst; simpl;
    congruence.
Qed.

#[local] Hint Resolve grows_close grows_open grows_write grows_read
  grows_inWaiting same_openness_write same_openness_read
  same_openness_inWaiting : respects.

Lemma grows_executeCommand fuel command count :
  respects (grows written) (DeskCNC.executeCommand fuel command count).
Proof. apply respects_executeCommand; eauto with respects. Qed.

Lemma grows_G0 fuel x y z : respects (grows written) (DeskCNC.G0 fuel x y z).
Proof. apply respects_G0; eauto with respects. Qed.

Lemma grows_G1 fuel x y z f :
  respects (grows written) (DeskCNC.G1 fuel x y z f).
Proof. apply respects_G1; eauto with respects. Qed.

Lemma grows_spindle fuel state :
  respects (grows written) (DeskCNC.spindle fuel state).
Proof. apply respects_spindle; eauto with respects. Qed.

Lemma grows_restart_device fw rsp fuel :
  respects (grows written) (DeskCNC.restart_device fw rsp fuel).
Proof. apply respects_restart_device; eauto with respects. Qed.

Lemma same_openness_spindle fuel state :
  respects same_openness (DeskCNC.spindle fuel state).
Proof. apply respects_spindle; eauto with respects. Qed.

#[local] Hint Resolve grows_executeCommand grows_G0 grows_G1 grows_spindle
  grows_restart_device : respects.

(** ** The command executor *)

Lemma bytes_eqb_eq a b : bytes_eqb a b = true <-> a = b.
Proof.
  revert b. induction a as [|x a IH]; intros [|y b]; simpl;
    try (split; [discriminate | discriminate]); try tauto.
  rewrite andb_true_iff, Z.eqb_eq, IH. split.
  - intros [-> ->]. reflexivity.
  - intros H. inversion H. auto.
Qed.

Lemma bytes_eqb_refl a : bytes_eqb a a = true.
Proof. now apply bytes_eqb_eq. Qed.

Lemma framed_inj c1 c2 : framed c1 = framed c2 -> c1 = c2.
Proof.
  unfold framed, checksum. intros H. now apply app_inj_tail in H.
Qed.

Lemma machineReady_data p b rest :
  is_open p = true -> incoming p = Data b :: rest ->
  DeskCNC.machineReady p
  = (if bytes_eqb (firstn 18 b) []
     then Exc (SerialException "device not responding")
     else Val (bytes_eqb (last_bytes 1 (firstn 18 b)) [0xEC]),
     mkSerial true (written p ++ [STATUS_FRAME]) rest (opening p)).
Proof.
  intros Ho Hi. unfold DeskCNC.machineReady.
  unfold bind at 1. rewrite (write_open _ _ Ho).
  unfold bind. erewrite read_data; [|reflexivity|exact Hi].
  cbn [written opening].
  destruct (bytes_eqb (firstn 18 b) []); reflexivity.
Qed.

Lemma done_not_empty b :
  bytes_eqb (last_bytes 1 (firstn 18 b)) [0xEC] = true ->
  bytes_eqb (firstn 18 b) [] = false.
Proof. destruct (firstn 18 b); [discriminate | reflexivity]. Qed.

(** A run of busy answers closed by a done one ends the wait, with one
    status query written per answer. *)
Lemma wait_ready_completes polls : forall rest p n,
  completes polls = true ->
  is_open p = true ->
  incoming p = polls ++ rest ->
  (List.length polls <= n)%nat ->
  wait_ready n p
  = (Val tt,
     mkSerial true (written p ++ repeat STATUS_FRAME (List.length polls))
       rest (opening p)).
Proof.
  induction polls as [|r polls IH]; intros rest p n Hc Ho Hi Hn.
  - discriminate Hc.
  - destruct n as [|n]; [cbn [List.length] in Hn; lia|].
    unfold wait_ready. cbn [while_not]. unfold bind at 1.
    destruct r as [b|]; [|destruct polls; discriminate Hc].
    rewrite (machineReady_data p b (polls ++ rest) Ho Hi).
    destruct polls as [|r' polls'].
    + cbn [completes done] in Hc. rewrite (done_not_empty _ Hc), Hc.
      reflexivity.
    + change (completes (Data b :: r' :: polls'))
        with (busy (Data b) && completes (r' :: polls')) in Hc.
      apply andb_true_iff in Hc. destruct Hc as [Hb Hc].
      cbn [busy] in Hb. apply andb_true_iff in Hb. destruct Hb as [Hb1 Hb2].
      apply negb_true_iff in Hb1, Hb2. rewrite Hb1, Hb2.
      unfold sleep, bind at 1, ret at 1.
      change (while_not n DeskCNC.machineReady (ret tt)) with (wait_ready n).
      rewrite (IH rest _ n Hc); try reflexivity.
      * cbn [written opening List.length repeat]. rewrite <- app_assoc.
        reflexivity.
      * cbn [List.length] in Hn |- *. lia.
Qed.

(** One round of [executeCommand]: the frame goes out, the acknowledgement
    is read, the wait ends; what follows depends on the acknowledgement and
    on [count]. *)
Lemma executeCommand_round n command count p a polls rest :
  is_open p = true ->
  incoming p = Data a :: polls ++ rest ->
  completes polls = true ->
  (List.length polls <= n)%nat ->
  DeskCNC.executeCommand (S n) command count p
  = (if negb (accepted a) then
       if count <? 2 then DeskCNC.executeCommand n command (count + 1)
       else raise wrong_response
     else ret tt)
      (after_round p (framed command) (List.length polls) rest).
Proof.
  intros Ho Hi Hc Hn. cbn [DeskCNC.executeCommand].
  unfold bind at 1. rewrite (write_open _ _ Ho).
  unfold bind at 1. erewrite read_data; [|reflexivity|exact Hi].
  unfold bind at 1.
  change (while_not n DeskCNC.machineReady sleep) with (wait_ready n).
  rewrite (wait_ready_completes polls rest); try assumption; try reflexivity.
  cbn [written opening]. unfold after_round. rewrite <- app_assoc.
  reflexivity.
Qed.

Lemma transmissions_app frame l1 l2 :
  transmissions frame (l1 ++ l2)
  = (transmissions frame l1 + transmissions frame l2)%nat.
Proof. unfold transmissions. now rewrite filter_app, length_app. Qed.

Lemma transmissions_repeat frame other k :
  frame <> other -> transmissions frame (repeat other k) = O.
Proof.
  intros Hne. unfold transmissions. induction k as [|k IH]; [reflexivity|].
  cbn [repeat filter]. destruct (bytes_eqb frame other) eqn:E.
  - apply bytes_eqb_eq in E. contradiction.
  - exact IH.
Qed.

Lemma transmissions_round frame k :
  frame <> STATUS_FRAME ->
  transmissions frame (frame :: repeat STATUS_FRAME k) = 1%nat.
Proof.
  intros Hne. change (frame :: repeat STATUS_FRAME k)
    with ([frame] ++ repeat STATUS_FRAME k).
  rewrite transmissions_app, (transmissions_repeat _ _ _ Hne).
  unfold transmissions. cbn [filter]. rewrite bytes_eqb_refl. reflexivity.
Qed.

Lemma machineReady_writes p r p' :
  DeskCNC.machineReady p = (r, p') ->
  written p' = written p \/ written p' = written p ++ [STATUS_FRAME].
Proof.
  unfold DeskCNC.machineReady, bind, Port.write, Port.read.
  destruct (is_open p) eqn:Ho.
  - cbn [is_open incoming written opening].
    destruct (incoming p) as [|[b|] rest].
    + cbn [bytes_eqb]. intros H. inversion H. right. reflexivity.
    + unfold Port.set_incoming. cbn [is_open incoming written opening].
      destruct (bytes_eqb (firstn 18 b) []); intros H; inversion H;
        right; reflexivity.
    + intros H. inversion H. right. reflexivity.
  - intros H. inversion H. left. reflexivity.
Qed.

(** The wait writes status queries and nothing else. *)
Lemma wait_ready_writes n : forall p r p',
  wait_ready n p = (r, p') ->
  exists k, written p' = written p ++ repeat STATUS_FRAME k.
Proof.
  induction n as [|n IH]; intros p r p' H.
  - inversion H. exists O. cbn [repeat]. now rewrite app_nil_r.
  - unfold wait_ready in H. cbn [while_not] in H. unfold bind at 1 in H.
    destruct (DeskCNC.machineReady p) as [[b | e |] p1] eqn:E;
      apply machineReady_writes in E.
    + destruct b.
      * inversion H; subst.
        destruct E as [E | E]; rewrite E; [exists O | exists 1%nat];
          cbn [repeat]; now rewrite ?app_nil_r.
      * unfold sleep, bind at 1, ret at 1 in H.
        change (while_not n DeskCNC.machineReady (ret tt))
          with (wait_ready n) in H.
        apply IH in H. destruct H as [k Hk]. rewrite Hk.
        destruct E as [E | E]; rewrite E; [exists k | exists (S k)];
          cbn [repeat]; now rewrite <- ?app_assoc.
    + inversion H; subst.
      destruct E as [E | E]; rewrite E; [exists O | exists 1%nat];
        cbn [repeat]; now rewrite ?app_nil_r.
    + inversion H; subst.
      destruct E as [E | E]; rewrite E; [exists O | exists 1%nat];
        cbn [repeat]; now rewrite ?app_nil_r.
Qed.

(** However the port behaves and wherever the execution stops,
    [executeCommand] called with [count] transmits its frame at most
    [3 - count] times (once, when [count] is 2 or more). *)
Lemma executeCommand_transmissions fuel command :
  framed command <> STATUS_FRAME ->
  forall count p r p',
    DeskCNC.executeCommand fuel command count p = (r, p') ->
    exists more,
      written p' = written p ++ more
      /\ (transmissions (framed command) more
          <= Z.to_nat (Z.max 1 (3 - count)))%nat.
Proof.
  intros Hne. induction fuel as [|n IH]; intros count p r p' H.
  - inversion H. exists []. rewrite app_nil_r. split; [reflexivity|].
    cbn. lia.
  - cbn [DeskCNC.executeCommand] in H. unfold bind at 1 in H.
    unfold Port.write at 1 in H. fold (framed command) in H.
    destruct (is_open p) eqn:Ho.
    2:{ inversion H. exists []. rewrite app_nil_r. split; [reflexivity|].
        cbn. lia. }
    unfold bind at 1 in H.
    match type of H with context [Port.read 1 ?q] =>
      destruct (Port.read 1 q) as [[resp | e |] p1] eqn:Er;
        apply read_writes in Er; cbn [written] in Er
    end.
    2,3: inversion H; subst; exists [framed command];
      split; [assumption|]; unfold transmissions; cbn [filter];
      rewrite bytes_eqb_refl; cbn [List.length]; lia.
    unfold bind at 1 in H.
    change (while_not n DeskCNC.machineReady sleep) with (wait_ready n) in H.
    destruct (wait_ready n p1) as [[[] | e |] p2] eqn:Ew;
      apply wait_ready_writes in Ew; destruct Ew as [k Hk];
      rewrite Er in Hk.
    2,3: inversion H; subst;
      exists (framed command :: repeat STATUS_FRAME k);
      split; [now rewrite Hk, <- app_assoc|];
      rewrite (transmissions_round _ _ Hne); lia.
    pose proof (transmissions_round _ k Hne) as Hone.
    destruct (negb (bytes_eqb resp [2])).
    + destruct (Z.ltb_spec count 2) as [Hlt | Hge].
      * apply IH in H. destruct H as [more [Hm Hb]].
        exists ((framed command :: repeat STATUS_FRAME k) ++ more).
        split; [now rewrite Hm, Hk, <- !app_assoc|].
        rewrite transmissions_app, Hone. lia.
      * inversion H; subst.
        exists (framed command :: repeat STATUS_FRAME k).
        split; [now rewrite Hk, <- app_assoc|]. rewrite Hone. lia.
    + inversion H; subst.
      exists (framed command :: repeat STATUS_FRAME k).
      split; [now rewrite Hk, <- app_assoc|]. rewrite Hone. lia.
Qed.

(** C6: when the acknowledgement read after transmitting the frame differs
    from the accepted marker 0x02 three times in a row (each wait for
    readiness ending), [executeCommand] has transmitted the same frame
    exactly three times, the first submission and two retries, and raises
    "wrong response from device" without reading or writing anything more;
    and whatever the device answers, a call transmits the frame at most
    three times. *)
Theorem executeCommand_retries_twice_then_raises
    (command : bytes) (p : Serial) (a1 a2 a3 : bytes)
    (polls1 polls2 polls3 rest : list reading) (fuel : nat) :
  command <> DeskCNC.STATUS_QUERY ->
  is_open p = true ->
  incoming p
  = Data a1 :: polls1 ++ Data a2 :: polls2 ++ Data a3 :: polls3 ++ rest ->
  accepted a1 = false -> accepted a2 = false -> accepted a3 = false ->
  completes polls1 = true -> completes polls2 = true ->
  completes polls3 = true ->
  (List.length polls1 + List.length polls2 + List.length polls3 + 3
   <= fuel)%nat ->
  DeskCNC.executeCommand fuel command 0 p
  = (Exc wrong_response,
     mkSerial true
       (written p
        ++ framed command :: repeat STATUS_FRAME (List.length polls1)
        ++ framed command :: repeat STATUS_FRAME (List.length polls2)
        ++ framed command :: repeat STATUS_FRAME (List.length polls3))
       rest (opening p))
  /\ (forall fuel' p0 r p',
         DeskCNC.executeCommand fuel' command 0 p0 = (r, p') ->
         exists more,
           written p' = written p0 ++ more
           /\ (transmissions (framed command) more <= 3)%nat).
Proof.
  intros Hcmd Ho Hi Ha1 Ha2 Ha3 Hc1 Hc2 Hc3 Hf. split.
  - destruct fuel as [|[|[|n]]]; try lia.
    rewrite (executeCommand_round _ _ _ _ a1 polls1
               (Data a2 :: polls2 ++ Data a3 :: polls3 ++ rest));
      [|assumption|assumption|assumption|lia].
    rewrite Ha1. cbn [negb]. change (0 <? 2) with true. cbv iota.
    change (0 + 1) with 1.
    rewrite (executeCommand_round _ _ _ _ a2 polls2
               (Data a3 :: polls3 ++ rest));
      [|reflexivity|reflexivity|assumption|lia].
    rewrite Ha2. cbn [negb]. change (1 <? 2) with true. cbv iota.
    change (1 + 1) with 2.
    rewrite (executeCommand_round _ _ _ _ a3 polls3 rest);
      [|reflexivity|reflexivity|assumption|lia].
    rewrite Ha3. cbn [negb]. change (2 <? 2) with false. cbv iota.
    unfold raise, after_round. cbn [written opening].
    rewrite <- !app_assoc. reflexivity.
  - intros fuel' p0 r p' H.
    assert (Hne : framed command <> STATUS_FRAME).
    { intros E. apply Hcmd. now apply framed_inj. }
    destruct (executeCommand_transmissions fuel' command Hne 0 p0 r p' H)
      as [more [Hm Hb]].
    exists more. split; [assumption|]. cbn in Hb. lia.
Qed.

Lemma executeCommand_retries_twice_then_raises_witness :
  DeskCNC.executeCommand 7 [0x40; 0x4F] 0 rejecting_port
  = (Exc wrong_response,
     mkSerial true
       (written rejecting_port
        ++ framed [0x40; 0x4F] :: repeat STATUS_FRAME 2
        ++ framed [0x40; 0x4F] :: repeat STATUS_FRAME 1
        ++ framed [0x40; 0x4F] :: repeat STATUS_FRAME 1)
       [Data [0x02]] (opening rejecting_port))
  /\ (forall fuel' p0 r p',
         DeskCNC.executeCommand fuel' [0x40; 0x4F] 0 p0 = (r, p') ->
         exists more,
           written p' = written p0 ++ more
           /\ (transmissions (framed [0x40; 0x4F]%Z) more <= 3)%nat).
Proof.
  apply (executeCommand_retries_twice_then_raises [0x40; 0x4F]
           rejecting_port [0x03] [0x15] []
           [Data [0x00]; Data [0xEC]] [Data [0xEC]] [Data [0x00; 0xEC]]
           [Data [0x02]] 7);
    try reflexivity.
  discriminate.
Defined.

(** ** The modal translator *)

Lemma G0_rapid_command fuel x y z c :
  rapid_command x y z = inr c ->
  DeskCNC.G0 fuel x y z = DeskCNC.executeCommand fuel c 0.
Proof.
  unfold rapid_command, position_fields, DeskCNC.G0.
  destruct (encodeValueMM (- x)) as [e|bx]; [discriminate|].
  destruct (encodeValueMM y) as [e|by_]; [discriminate|].
  destruct (encodeValueMM z) as [e|bz]; [discriminate|].
  destruct (encodeFeedrate infinity) as [e|bf]; [discriminate|].
  intros H. inversion H; subst. cbn [lift_exn].
  unfold bind, ret. rewrite <- !app_assoc. reflexivity.
Qed.

Lemma G1_linear_command fuel x y z f c :
  linear_command x y z f = inr c ->
  DeskCNC.G1 fuel x y z f = DeskCNC.executeCommand fuel c 0.
Proof.
  unfold linear_command, position_fields, DeskCNC.G1.
  destruct (encodeValueMM (- x)) as [e|bx]; [discriminate|].
  destruct (encodeValueMM y) as [e|by_]; [discriminate|].
  destruct (encodeValueMM z) as [e|bz]; [discriminate|].
  destruct (encodeFeedrate f) as [e|bf]; [discriminate|].
  intros H. inversion H; subst. cbn [lift_exn].
  unfold bind, ret. rewrite <- !app_assoc. reflexivity.
Qed.

(** The layout of a linear-move command: opcode 40 4D, twelve position
    bytes, the two bytes of the encoded feed rate, seven zero bytes. *)
Lemma linear_command_layout x y z f c :
  linear_command x y z f = inr c ->
  exists pos fb,
    position_fields x y z = inr pos
    /\ encodeFeedrate f = inr fb
    /\ c = [0x40; 0x4D] ++ pos ++ fb ++ bytearray 7.
Proof.
  unfold linear_command.
  destruct (position_fields x y z) as [e|pos]; [discriminate|].
  destruct (encodeFeedrate f) as [e|fb]; [discriminate|].
  intros H. inversion H; subst. exists pos, fb.
  repeat split. now rewrite <- !app_assoc.
Qed.

Lemma rapid_command_layout x y z c :
  rapid_command x y z = inr c ->
  exists pos fb,
    position_fields x y z = inr pos
    /\ encodeFeedrate infinity = inr fb
    /\ c = [0x40; 0x4E] ++ pos ++ fb ++ [0xDB; 0x00] ++ bytearray 5.
Proof.
  unfold rapid_command.
  destruct (position_fields x y z) as [e|pos]; [discriminate|].
  destruct (encodeFeedrate infinity) as [e|fb]; [discriminate|].
  intros H. inversion H; subst. exists pos, fb.
  repeat split. now rewrite <- !app_assoc.
Qed.

Lemma executeCommand_first_frame n command count p r p' :
  is_open p = true ->
  DeskCNC.executeCommand (S n) command count p = (r, p') ->
  exists more, written p' = written p ++ framed command :: more.
Proof.
  intros Ho H. cbn [DeskCNC.executeCommand] in H.
  unfold bind at 1 in H. rewrite (write_open _ _ Ho) in H.
  match type of H with ?k ?q = _ =>
    assert (Hk : respects (grows written) k)
  end.
  { unfold sleep. respects_tac. }
  destruct (Hk _ _ _ H) as [more Hm]. cbn [written] in Hm.
  exists more. rewrite Hm, <- app_assoc. reflexivity.
Qed.

Ltac case_letters :=
  repeat match goal with
         | |- context [if (?a =? ?b)%string then _ else _] =>
             destruct (a =? b)%string
         end.

(** [applyWord] touches the position and the feed rate only. *)
Lemma applyWord_keeps (w : Word) (self : Parser) :
  device (applyWord w self) = device self
  /\ mode (applyWord w self) = mode self
  /\ offsetX (applyWord w self) = offsetX self
  /\ offsetY (applyWord w self) = offsetY self
  /\ offsetZ (applyWord w self) = offsetZ self
  /\ spindleOn (applyWord w self) = spindleOn self
  /\ absolutepositionmode (applyWord w self) = absolutepositionmode self.
Proof.
  unfold applyWord. destruct (absolutepositionmode self) eqn:E;
    case_letters; cbn; rewrite ?E; repeat split; reflexivity.
Qed.

Lemma applyWords_keeps (ws : list Word) : forall self : Parser,
  device (applyWords ws self) = device self
  /\ mode (applyWords ws self) = mode self
  /\ offsetX (applyWords ws self) = offsetX self
  /\ offsetY (applyWords ws self) = offsetY self
  /\ offsetZ (applyWords ws self) = offsetZ self
  /\ spindleOn (applyWords ws self) = spindleOn self
  /\ absolutepositionmode (applyWords ws self) = absolutepositionmode self.
Proof.
  induction ws as [|w ws IH]; intros self; [repeat split; reflexivity|].
  cbn [applyWords fold_left]. fold (applyWords ws (applyWord w self)).
  destruct (IH (applyWord w self)) as (H1 & H2 & H3 & H4 & H5 & H6 & H7).
  destruct (applyWord_keeps w self) as (K1 & K2 & K3 & K4 & K5 & K6 & K7).
  rewrite H1, H2, H3, H4, H5, H6, H7. repeat split; assumption.
Qed.

Lemma for_each_applyWord (ws : list Word) : forall self : Parser,
  for_each ws (fun word => modify (applyWord word)) self
  = (Val tt, applyWords ws self).
Proof.
  induction ws as [|w ws IH]; intros self; [reflexivity|].
  cbn [for_each]. unfold bind, modify at 1. rewrite IH. reflexivity.
Qed.

Lemma linear_ready_device gcode self :
  device (linear_ready gcode self) = device self.
Proof.
  unfold linear_ready. cbn [device set_feedrate].
  apply (proj1 (applyWords_keeps _ _)).
Qed.

(** What the [try] block does for the two moves. *)
Lemma executeGCode_try_rapid n gcode self :
  type gcode = GCodeRapidMove ->
  executeGCode_try n gcode self
  = (let s := applyWords (params gcode) self in
     (on_device (DeskCNC.G0 n (posX s + offsetX s) (posY s + offsetY s)
                   (posZ s + offsetZ s)) ;;
      modify (set_mode GCodeRapidMove))%monad s).
Proof.
  intros Ht. unfold executeGCode_try. unfold bind at 1.
  rewrite for_each_applyWord, Ht. reflexivity.
Qed.

Lemma executeGCode_try_linear n gcode self :
  type gcode = GCodeLinearMove ->
  executeGCode_try n gcode self
  = (let s := linear_ready gcode self in
     (on_device (DeskCNC.G1 n (posX s + offsetX s) (posY s + offsetY s)
                   (posZ s + offsetZ s) (feedrate s)) ;;
      modify (set_mode GCodeLinearMove))%monad s).
Proof.
  intros Ht. unfold executeGCode_try. unfold bind at 1.
  rewrite for_each_applyWord, Ht. cbv zeta.
  unfold linear_ready, clamp_feed.
  set (s := applyWords (params gcode) self).
  unfold bind at 1. unfold get at 1.
  destruct (1620 <? feedrate s)%float.
  - reflexivity.
  - rewrite set_feedrate_same. reflexivity.
Qed.

Lemma grows_on_device {A} (c : M Serial A) :
  respects (grows written) c -> respects (grows plog) (on_device c).
Proof.
  intros Hc s r s' H. unfold on_device in H.
  destruct (c (device s)) as [r1 d] eqn:E. inversion H; subst.
  unfold grows, plog. cbn [device set_device]. exact (Hc _ _ _ E).
Qed.

Lemma grows_setter (f : Parser -> Parser) :
  (forall s, device (f s) = device s) -> respects (grows plog) (modify f).
Proof.
  intros Hf. apply respects_modify. intros s. exists [].
  unfold plog. now rewrite Hf, app_nil_r.
Qed.

Lemma grows_applyWord w : respects (grows plog) (modify (applyWord w)).
Proof.
  apply grows_setter. intros s. apply (proj1 (applyWord_keeps w s)).
Qed.

#[local] Hint Resolve grows_applyWord : respects.
#[local] Hint Extern 1 (respects (grows plog) (on_device _)) =>
  apply grows_on_device : respects.
#[local] Hint Extern 1 (respects (grows plog) (modify _)) =>
  (apply grows_setter; intros []; reflexivity) : respects.
#[local] Hint Extern 1 (respects _ (for_each _ _)) =>
  (apply respects_for_each; [eauto with respects|eauto with respects|intro])
  : respects.

Lemma grows_executeGCode_try n gcode :
  respects (grows plog) (executeGCode_try n gcode).
Proof.
  unfold executeGCode_try, DeskCNC.G2, DeskCNC.G3, DeskCNC.G17, DeskCNC.G18,
    DeskCNC.G19, DeskCNC.G20, DeskCNC.G21, DeskCNC.G94, DeskCNC.M3,
    DeskCNC.M4, DeskCNC.M5, DeskCNC.M9.
  apply respects_bind; [eauto with respects|eauto with respects|intros _].
  destruct (type gcode); respects_tac.
Qed.

#[local] Hint Resolve grows_executeGCode_try : respects.

Lemma command_then_first_frame n c (f : Parser -> Parser) s0 r s1 :
  is_open (device s0) = true ->
  (forall s, device (f s) = device s) ->
  (on_device (DeskCNC.executeCommand (S n) c 0) ;; modify f)%monad s0
  = (r, s1) ->
  exists more, plog s1 = plog s0 ++ framed c :: more.
Proof.
  intros Ho Hf H. unfold bind, on_device in H.
  destruct (DeskCNC.executeCommand (S n) c 0 (device s0)) as [r1 d] eqn:Ec.
  destruct (executeCommand_first_frame _ _ _ _ _ _ Ho Ec) as [more Hm].
  exists more. unfold plog.
  destruct r1; inversion H; subst; rewrite ?Hf; cbn [device set_device];
    exact Hm.
Qed.

Lemma on_device_fields {A} (c : M Serial A) self r s :
  on_device c self = (r, s) -> modal_fields s = modal_fields self.
Proof.
  unfold on_device. destruct (c (device self)) as [r1 d].
  intros H. inversion H; subst. reflexivity.
Qed.

Ltac run_try :=
  repeat match goal with
         | H : bind (on_device ?c) _ ?s = _ |- _ =>
             unfold bind at 1 in H;
             let E := fresh "E" in
             destruct (on_device c s) as [[[]| |] ?] eqn:E;
             apply on_device_fields in E
         | H : on_device ?c ?s = _ |- _ => apply on_device_fields in H
         | H : modify _ _ = _ |- _ => unfold modify in H
         | H : ret _ _ = _ |- _ => unfold ret in H
         | H : (_, _) = (_, _) |- _ => inversion H; clear H; subst
         end.

(** Except for a feed-rate gcode, the [try] block leaves the position where
    the parameter words put it, and does not touch the offsets. *)
Lemma try_leaves n gcode self r s1 :
  executeGCode_try n gcode self = (r, s1) ->
  type gcode <> GCodeFeedRate ->
  posX s1 = posX (applyWords (params gcode) self)
  /\ posY s1 = posY (applyWords (params gcode) self)
  /\ posZ s1 = posZ (applyWords (params gcode) self)
  /\ offsetX s1 = offsetX self
  /\ offsetY s1 = offsetY self
  /\ offsetZ s1 = offsetZ self.
Proof.
  intros H Ht.
  destruct (applyWords_keeps (params gcode) self)
    as (_ & _ & K3 & K4 & K5 & _ & K7).
  destruct (type gcode) eqn:Ety; try contradiction.
  2:{ rewrite (executeGCode_try_linear _ _ _ Ety) in H. cbv zeta in H.
      run_try;
        match goal with
        | E : modal_fields _ = modal_fields _ |- _ =>
            unfold modal_fields, linear_ready in E; cbn in E; inversion E
        end; cbn; repeat split; congruence. }
  all: unfold executeGCode_try in H; unfold bind at 1 in H;
    rewrite for_each_applyWord, Ety in H;
    set (s := applyWords (params gcode) self) in *;
    try (unfold bind at 1, get at 1 in H);
    run_try;
    try match goal with
        | E : modal_fields _ = modal_fields _ |- _ =>
            unfold modal_fields in E; cbn in E; inversion E
        end;
    cbn; repeat split; try assumption; try congruence.
Qed.

(** A [try] block that raises stopped in its device call: the gcode is not
    a feed-rate gcode, and neither the spindle flag nor the distance mode
    has changed yet. *)
Lemma try_raises n gcode self e s1 :
  executeGCode_try n gcode self = (Exc e, s1) ->
  type gcode <> GCodeFeedRate
  /\ spindleOn s1 = spindleOn self
  /\ absolutepositionmode s1 = absolutepositionmode self.
Proof.
  intros H.
  destruct (applyWords_keeps (params gcode) self)
    as (_ & _ & _ & _ & _ & K6 & K7).
  destruct (type gcode) eqn:Ety.
  3:{ rewrite (executeGCode_try_linear _ _ _ Ety) in H. cbv zeta in H.
      run_try;
        match goal with
        | E : modal_fields _ = modal_fields _ |- _ =>
            unfold modal_fields, linear_ready in E; cbn in E; inversion E
        end; cbn; repeat split; congruence. }
  all: unfold executeGCode_try in H; unfold bind at 1 in H;
    rewrite for_each_applyWord, Ety in H;
    set (s := applyWords (params gcode) self) in *;
    try (unfold bind at 1, get at 1 in H);
    run_try;
    try match goal with
        | E : modal_fields _ = modal_fields _ |- _ =>
            unfold modal_fields in E; cbn in E; inversion E
        end;
    cbn; repeat split; try assumption; try congruence.
Qed.

Lemma while_not_exit {St} fuel (cond : M St bool) body : forall s s',
  while_not fuel cond body s = (Val tt, s') ->
  exists s0, cond s0 = (Val true, s').
Proof.
  induction fuel as [|n IH]; intros s s' H; [discriminate H|].
  cbn [while_not] in H. unfold bind at 1 in H.
  destruct (cond s) as [[[|] | e |] s1] eqn:E; try discriminate H.
  - inversion H; subst. now exists s.
  - unfold bind at 1 in H.
    destruct (body s1) as [[[] | e |] s2]; try discriminate H.
    exact (IH _ _ H).
Qed.

(** A restart that returns leaves the port open. *)
Lemma restart_device_opens fw rsp fuel p p' :
  DeskCNC.restart_device fw rsp fuel p = (Val tt, p') -> is_open p' = true.
Proof.
  unfold DeskCNC.restart_device. unfold bind at 1.
  destruct (Port.close p) as [[[] | e |] p1]; try discriminate.
  intros H. apply while_not_exit in H. destruct H as [s0 H].
  unfold DeskCNC.is_open_now in H. injection H as H1 H2. subst. exact H1.
Qed.

(** Float comparison: exchanging the operands reverses the outcome. *)
Lemma SFcompare_swap (x y : spec_float) (c : comparison) :
  SFcompare x y = Some c -> SFcompare y x = Some (CompOpp c).
Proof.
  destruct x as [sx | sx | | sx mx ex], y as [sy | sy | | sy my ey];
    cbn; try discriminate;
    try (destruct sx; intros H; inversion H; reflexivity);
    try (destruct sy; intros H; inversion H; reflexivity);
    try (destruct sx, sy; intros H; inversion H; reflexivity).
  rewrite (Z.compare_antisym ex ey).
  rewrite !Pos.compare_cont_spec. cbn [Pos.switch_Eq].
  rewrite (Pos.compare_antisym mx my).
  destruct sx, sy; intros H; inversion H; try reflexivity;
    destruct (ex ?= ey); cbn; try reflexivity;
    destruct (mx ?= my)%positive; reflexivity.
Qed.

Lemma leb_not_gt (x y : float) :
  (x <=? y)%float = true -> (y <? x)%float = false.
Proof.
  rewrite leb_spec, ltb_spec. unfold SFleb, SFltb.
  destruct (SFcompare (Prim2SF x) (Prim2SF y)) as [c|] eqn:E;
    [|discriminate].
  rewrite (SFcompare_swap _ _ _ E). destruct c; try discriminate;
    reflexivity.
Qed.

Lemma clamp_feed_spec f :
  ((1620 <? f)%float = true -> clamp_feed f = 1620%float)
  /\ ((f <=? 1620)%float = true -> clamp_feed f = f)
  /\ ((1620 <? f)%float = false -> clamp_feed f = f).
Proof.
  unfold clamp_feed. split; [|split].
  - now intros ->.
  - intros H. now rewrite (leb_not_gt _ _ H).
  - now intros ->.
Qed.

Lemma applyWords_no_F ws : forall self,
  no_F ws = true -> feedrate (applyWords ws self) = feedrate self.
Proof.
  induction ws as [|w ws IH]; intros self H; [reflexivity|].
  cbn [no_F forallb] in H. apply andb_true_iff in H. destruct H as [Hw H].
  apply negb_true_iff in Hw.
  cbn [applyWords fold_left]. fold (applyWords ws (applyWord w self)).
  rewrite (IH _ H). unfold applyWord. rewrite Hw.
  destruct (absolutepositionmode self); case_letters; reflexivity.
Qed.

Lemma applyWord_incremental w self :
  absolutepositionmode self = false ->
  posX (applyWord w self) = shift "X" [w] (posX self)
  /\ posY (applyWord w self) = shift "Y" [w] (posY self)
  /\ posZ (applyWord w self) = shift "Z" [w] (posZ self).
Proof.
  intros Hi. unfold applyWord, shift. rewrite Hi. cbn [fold_left].
  case_letters; repeat split; reflexivity.
Qed.

(** In Incremental mode a list of words adds to each axis the values of
    its words, one after the other. *)
Lemma applyWords_incremental ws : forall self,
  absolutepositionmode self = false ->
  posX (applyWords ws self) = shift "X" ws (posX self)
  /\ posY (applyWords ws self) = shift "Y" ws (posY self)
  /\ posZ (applyWords ws self) = shift "Z" ws (posZ self).
Proof.
  induction ws as [|w ws IH]; intros self Hi.
  - repeat split; reflexivity.
  - cbn [applyWords fold_left]. fold (applyWords ws (applyWord w self)).
    assert (Hi' : absolutepositionmode (applyWord w self) = false).
    { rewrite <- Hi. apply applyWord_keeps. }
    destruct (IH _ Hi') as (HX & HY & HZ).
    destruct (applyWord_incremental w self Hi) as (EX & EY & EZ).
    rewrite HX, HY, HZ, EX, EY, EZ. repeat split; reflexivity.
Qed.


(** *** What a restart that returns has done *)

Lemma while_not_exit_R {St} (R : St -> St -> Prop) fuel
    (cond : M St bool) body :
  (forall s, R s s) ->
  (forall s1 s2 s3, R s1 s2 -> R s2 s3 -> R s1 s3) ->
  respects R cond -> respects R body ->
  forall s s',
    while_not fuel cond body s = (Val tt, s') ->
    exists s0, R s s0 /\ cond s0 = (Val true, s').
Proof.
  intros Hrefl Htrans Hc Hb.
  induction fuel as [|n IH]; intros s s' H; [discriminate H|].
  cbn [while_not] in H. unfold bind at 1 in H.
  destruct (cond s) as [[[|] | e |] s1] eqn:E; try discriminate H.
  - inversion H; subst. exists s. split; [apply Hrefl|exact E].
  - unfold bind at 1 in H.
    destruct (body s1) as [[[] | e |] s2] eqn:Eb; try discriminate H.
    destruct (IH _ _ H) as [s0 [HR Hs0]]. exists s0. split; [|exact Hs0].
    apply Htrans with s2; [|exact HR].
    apply Htrans with s1; [exact (Hc _ _ _ E)|exact (Hb _ _ _ Eb)].
Qed.

Lemma write_val b p p' :
  Port.write b p = (Val tt, p') ->
  written p' = written p ++ [b] /\ is_open p' = true.
Proof.
  unfold Port.write. destruct (is_open p); [|discriminate].
  intros H. inversion H; subst. split; reflexivity.
Qed.

Lemma inWaiting_writes p r p' :
  Port.inWaiting p = (r, p') -> written p' = written p.
Proof.
  unfold Port.inWaiting. destruct (is_open p); [|now inversion 1].
  destruct (incoming p) as [|[b|] rest]; now inversion 1.
Qed.

Lemma waiting_read_writes {A} (k : bytes -> M Serial A) p r p' :
  (n <- Port.inWaiting ;; x <- Port.read n ;; k x)%monad p = (Val r, p') ->
  exists x q, written q = written p /\ k x q = (Val r, p').
Proof.
  unfold bind at 1.
  destruct (Port.inWaiting p) as [[n| |] p1] eqn:E1; try discriminate.
  unfold bind at 1.
  destruct (Port.read n p1) as [[x| |] p2] eqn:E2; try discriminate.
  intros H. exists x, p2. split; [|exact H].
  apply inWaiting_writes in E1. apply read_writes in E2. congruence.
Qed.

Lemma reset_val b p p' :
  DeskCNC.reset p = (Val b, p') -> written p' = written p ++ [COM_RESET].
Proof.
  unfold DeskCNC.reset. unfold bind at 1.
  destruct (Port.write COM_RESET p) as [[[]| |] p1] eqn:E; try discriminate.
  apply write_val in E. destruct E as [E _].
  intros H. apply waiting_read_writes in H.
  destruct H as (x & q & Hq & H). inversion H; subst. congruence.
Qed.

Lemma send_chunks_val cs : forall response p r p',
  DeskCNC.send_chunks cs response p = (Val r, p') ->
  written p' = written p ++ cs.
Proof.
  induction cs as [|c cs IH]; intros response p r p' H.
  - inversion H; subst. now rewrite app_nil_r.
  - cbn [DeskCNC.send_chunks] in H. unfold bind at 1 in H.
    destruct (Port.write c p) as [[[]| |] p1] eqn:E; try discriminate.
    apply write_val in E. destruct E as [E _].
    apply waiting_read_writes in H. destruct H as (x & q & Hq & H).
    apply IH in H. rewrite H, Hq, E, <- app_assoc. reflexivity.
Qed.

Lemma send_firmware_val fw rsp b p p' :
  DeskCNC.send_firmware fw rsp p = (Val b, p') ->
  written p' = written p ++ DeskCNC.chunks (List.length fw) fw.
Proof.
  unfold DeskCNC.send_firmware. unfold bind at 1.
  destruct (DeskCNC.send_chunks (DeskCNC.chunks (List.length fw) fw) [] p)
    as [[resp| |] p1] eqn:E; try discriminate.
  apply send_chunks_val in E.
  intros H. apply waiting_read_writes in H.
  destruct H as (x & q & Hq & H). inversion H; subst. congruence.
Qed.

Lemma same_openness_pass : respects same_openness (@pass Serial).
Proof. apply respects_ret. apply same_openness_refl. Qed.

Lemma grows_pass : respects (grows written) (@pass Serial).
Proof. apply respects_ret. apply grows_refl. Qed.

Lemma restart_attempt_val fw rsp fuel q q1 :
  is_open q = false ->
  restart_attempt fw rsp fuel q = (Val tt, q1) ->
  exists pre,
    written q1 = written q ++ pre
    /\ (is_open q1 = false
        \/ is_open q1 = true
           /\ exists pre', pre = pre' ++ DeskCNC.chunks (List.length fw) fw
                           /\ In COM_RESET pre').
Proof.
  intros Hc H. unfold restart_attempt, try_except in H.
  match type of H with
  | match ?inner q with _ => _ end = _ =>
      destruct (inner q) as [[[]|e|] qx] eqn:Ei
  end.
  - (* the attempt ran to its end *)
    inversion H; subst qx. clear H.
    unfold bind at 1 in Ei.
    destruct (Port.open q) as [[[]| |] qa] eqn:Eo; try discriminate.
    assert (Hqa : written qa = written q /\ is_open qa = true).
    { unfold Port.open in Eo. rewrite Hc in Eo.
      destruct (opening q) as [|[e|] rest]; inversion Eo; subst;
        split; reflexivity. }
    unfold bind at 1 in Ei.
    destruct (while_not fuel DeskCNC.reset pass qa) as [[[]| |] qb] eqn:Er;
      try discriminate.
    destruct (while_not_exit_R (grows written) _ _ _
                (grows_refl written) (grows_trans written)
                (respects_reset _ (grows_refl written) (grows_trans written)
                   grows_write grows_read grows_inWaiting)
                grows_pass _ _ Er) as (s0 & [m0 Hm0] & Hs0).
    apply reset_val in Hs0.
    destruct (while_not_exit_R (grows written) _ _ _
                (grows_refl written) (grows_trans written)
                (respects_send_firmware _ (grows_refl written)
                   (grows_trans written) grows_write grows_read
                   grows_inWaiting fw rsp)
                grows_pass _ _ Ei) as (s1 & [m1 Hm1] & Hs1).
    apply send_firmware_val in Hs1.
    assert (Hopen : is_open q1 = true).
    { pose proof (respects_while_not same_openness same_openness_refl
                    same_openness_trans fuel _ _
                    (respects_reset _ same_openness_refl same_openness_trans
                       same_openness_write same_openness_read
                       same_openness_inWaiting)
                    same_openness_pass _ _ _ Er) as O1.
      pose proof (respects_while_not same_openness same_openness_refl
                    same_openness_trans fuel _ _
                    (respects_send_firmware _ same_openness_refl
                       same_openness_trans same_openness_write
                       same_openness_read same_openness_inWaiting fw rsp)
                    same_openness_pass _ _ _ Ei) as O2.
      unfold same_openness in O1, O2. destruct Hqa. congruence. }
    exists ((m0 ++ [COM_RESET] ++ m1) ++ DeskCNC.chunks (List.length fw) fw).
    split.
    + rewrite Hs1, Hm1, Hs0, Hm0, (proj1 Hqa), <- !app_assoc. reflexivity.
    + right. split; [exact Hopen|]. eexists. split; [reflexivity|].
      apply in_or_app. right. left. reflexivity.
  - (* the attempt raised *)
    destruct (DeskCNC.caught_on_restart e); [|discriminate H].
    unfold bind, Port.close, modify, sleep, ret in H.
    inversion H; subst q1. clear H.
    assert (Hg : respects (grows written)
                   (Port.open;; while_not fuel DeskCNC.reset pass;;
                    while_not fuel (DeskCNC.send_firmware fw rsp) pass)%monad).
    { apply respects_bind; eauto with respects. intros _.
      apply respects_bind; eauto with respects.
      - apply respects_while_not; eauto with respects.
        apply respects_reset; eauto with respects.
      - intros _. apply respects_while_not; eauto with respects.
        apply respects_send_firmware; eauto with respects. }
    destruct (Hg _ _ _ Ei) as [pre Hpre].
    exists pre. split; [exact Hpre|]. left. reflexivity.
  - discriminate H.
Qed.

Lemma restart_loop_returns fw rsp fuel n : forall q q',
  is_open q = false ->
  while_not n DeskCNC.is_open_now (restart_attempt fw rsp fuel) q
  = (Val tt, q') ->
  is_open q' = true
  /\ exists pre,
       written q'
       = written q ++ pre ++ DeskCNC.chunks (List.length fw) fw
       /\ In COM_RESET pre.
Proof.
  induction n as [|n IH]; intros q q' Hc H; [discriminate H|].
  cbn [while_not] in H. unfold bind at 1 in H.
  unfold DeskCNC.is_open_now at 1 in H. rewrite Hc in H.
  unfold bind at 1 in H.
  destruct (restart_attempt fw rsp fuel q) as [[[]| |] q1] eqn:Ea;
    try discriminate H.
  destruct (restart_attempt_val _ _ _ _ _ Hc Ea)
    as (pre & Hpre & [Hcl | (Hop & pre' & Hpre' & Hin)]).
  - destruct (IH _ _ Hcl H) as (Ho & pre2 & Hw & Hin).
    split; [exact Ho|]. exists (pre ++ pre2). split.
    + rewrite Hw, Hpre, <- !app_assoc. reflexivity.
    + apply in_or_app. now right.
  - destruct n as [|n]; [discriminate H|].
    cbn [while_not] in H. unfold bind at 1 in H.
    unfold DeskCNC.is_open_now at 1 in H. rewrite Hop in H.
    inversion H; subst q'. split; [exact Hop|].
    exists pre'. split; [|exact Hin].
    rewrite Hpre, Hpre'. reflexivity.
Qed.

Lemma restart_device_returns fw rsp fuel p p' :
  DeskCNC.restart_device fw rsp fuel p = (Val tt, p') ->
  is_open p' = true
  /\ exists pre,
       written p'
       = written p ++ pre ++ DeskCNC.chunks (List.length fw) fw
       /\ In COM_RESET pre.
Proof.
  unfold DeskCNC.restart_device. unfold bind at 1.
  unfold Port.close, modify. intros H.
  apply (restart_loop_returns fw rsp fuel fuel (Port.set_open false p) p');
    [reflexivity|exact H].
Qed.

(** The chunks [send_firmware] transmits make up the firmware. *)
Lemma chunks_concat k : forall fw,
  (List.length fw <= k)%nat -> List.concat (DeskCNC.chunks k fw) = fw.
Proof.
  induction k as [|k IH]; intros fw Hk.
  - destruct fw; [reflexivity|cbn in Hk; lia].
  - cbn [DeskCNC.chunks]. destruct fw as [|b fw]; [reflexivity|].
    cbn [List.concat]. rewrite IH.
    + apply firstn_skipn.
    + rewrite length_skipn. cbn [List.length] in *. lia.
Qed.

(** *** The spindle-on command *)

Lemma M3_executeCommand n p :
  DeskCNC.M3 n p = DeskCNC.executeCommand n SPINDLE_ON 0 p.
Proof.
  unfold DeskCNC.M3, DeskCNC.spindle, bind, sleep, ret.
  change (((([64; 79] ++ bytearray 14) ++ [2]) ++ [1]) ++ bytearray 5)
    with SPINDLE_ON.
  destruct (DeskCNC.executeCommand n SPINDLE_ON 0 p) as [[[] | e |] p'];
    reflexivity.
Qed.

(** With the port open, the first frame [M3] writes is the spindle-on
    command. *)
Lemma M3_first_frame n d r d' :
  is_open d = true ->
  DeskCNC.M3 (S n) d = (r, d') ->
  exists more, written d' = written d ++ framed SPINDLE_ON :: more.
Proof.
  intros Ho H. rewrite M3_executeCommand in H.
  exact (executeCommand_first_frame _ _ _ _ _ _ Ho H).
Qed.

(** *** Feed-rate gcodes *)

Lemma applyWord_F v self : applyWord (mkWord "F" v) self = set_feedrate v self.
Proof. unfold applyWord. destruct (absolutepositionmode self); reflexivity. Qed.

(** A feed-rate gcode is executed without any device call. *)
Lemma executeGCode_try_feed n gcode self :
  type gcode = GCodeFeedRate ->
  executeGCode_try n gcode self
  = (Val tt, applyWord (word gcode) (applyWords (params gcode) self)).
Proof.
  intros Ht. unfold executeGCode_try. unfold bind at 1.
  rewrite for_each_applyWord, Ht. reflexivity.
Qed.

(** *** The motion mode *)

(** The [try] block records the class of a motion gcode once its device
    call has returned, and leaves the mode alone otherwise. *)
Lemma try_mode n gcode self r s1 :
  executeGCode_try n gcode self = (r, s1) ->
  mode s1
  = match r with
    | Val _ => if is_motion (type gcode) then type gcode else mode self
    | _ => mode self
    end.
Proof.
  intros H.
  destruct (applyWords_keeps (params gcode) self) as (_ & K2 & _).
  destruct (applyWord_keeps (word gcode) (applyWords (params gcode) self))
    as (_ & F2 & _).
  destruct (type gcode) eqn:Ety.
  3:{ rewrite (executeGCode_try_linear _ _ _ Ety) in H. cbv zeta in H.
      run_try;
        match goal with
        | E : modal_fields _ = modal_fields _ |- _ =>
            unfold modal_fields, linear_ready in E; cbn in E; inversion E
        end; cbn; congruence. }
  all: unfold executeGCode_try in H; unfold bind at 1 in H;
    rewrite for_each_applyWord, Ety in H;
    set (s := applyWords (params gcode) self) in *;
    try (unfold bind at 1, get at 1 in H);
    run_try;
    try match goal with
        | E : modal_fields _ = modal_fields _ |- _ =>
            unfold modal_fields in E; cbn in E; inversion E
        end;
    cbn; try assumption; try congruence;
    try (destruct r; congruence).
Qed.

(** *** What raises, and where *)

Lemma bind_raises {St A B} (c : M St A) (k : A -> M St B) s e s' :
  bind c k s = (Exc e, s') ->
  c s = (Exc e, s') \/ exists a s0, c s = (Val a, s0) /\ k a s0 = (Exc e, s').
Proof.
  unfold bind. destruct (c s) as [[a | e0 |] s0]; intros H.
  - right. now exists a, s0.
  - left. inversion H; subst. reflexivity.
  - discriminate H.
Qed.

Lemma for_each_raises {St A} (xs : list A) (body : A -> M St unit) :
  forall s e s',
    for_each xs body s = (Exc e, s') ->
    exists x s0, In x xs /\ body x s0 = (Exc e, s').
Proof.
  induction xs as [|x xs IH]; intros s e s' H; [discriminate H|].
  cbn [for_each] in H. apply bind_raises in H.
  destruct H as [H | ([] & s0 & _ & H)].
  - exists x, s. split; [now left|exact H].
  - destruct (IH _ _ _ H) as (y & s1 & Hy & Hb).
    exists y, s1. split; [now right|exact Hb].
Qed.

Lemma while_not_raises {St} fuel (cond : M St bool) body : forall s e s',
  while_not fuel cond body s = (Exc e, s') ->
  exists s0, cond s0 = (Exc e, s') \/ body s0 = (Exc e, s').
Proof.
  induction fuel as [|n IH]; intros s e s' H; [discriminate H|].
  cbn [while_not] in H. apply bind_raises in H.
  destruct H as [H | (b & s0 & _ & H)]; [exists s; now left|].
  destruct b; [discriminate H|].
  apply bind_raises in H. destruct H as [H | ([] & s1 & _ & H)].
  - exists s0. now right.
  - exact (IH _ _ _ H).
Qed.

(** [restart_device] handles every serial and OS error itself: what it
    lets through is neither. *)
Lemma restart_attempt_raises fw rsp fuel q e q1 :
  restart_attempt fw rsp fuel q = (Exc e, q1) ->
  DeskCNC.caught_on_restart e = false.
Proof.
  unfold restart_attempt, try_except.
  match goal with
  | |- match ?inner q with _ => _ end = _ -> _ =>
      destruct (inner q) as [[[] | e' |] qx]
  end; try discriminate.
  destruct (DeskCNC.caught_on_restart e') eqn:E.
  - unfold bind, Port.close, modify, sleep, ret. discriminate.
  - intros H. inversion H; subst. exact E.
Qed.

Lemma restart_device_raises fw rsp fuel p e p' :
  DeskCNC.restart_device fw rsp fuel p = (Exc e, p') ->
  DeskCNC.caught_on_restart e = false.
Proof.
  unfold DeskCNC.restart_device. intros H.
  apply bind_raises in H.
  destruct H as [H | ([] & s0 & _ & H)]; [discriminate H|].
  change (while_not fuel DeskCNC.is_open_now (restart_attempt fw rsp fuel) s0
          = (Exc e, p')) in H.
  apply while_not_raises in H. destruct H as (s1 & [H | H]).
  - discriminate H.
  - exact (restart_attempt_raises _ _ _ _ _ _ H).
Qed.

Lemma serial_is_caught_on_restart e :
  is_SerialException e = true -> DeskCNC.caught_on_restart e = true.
Proof. destruct e; try discriminate; reflexivity. Qed.
Section Translator.

Variable firmware_txt : bytes.
Variable firmware_response_txt : bytes.
Variable exec_order : GCodeType -> Z.
Variable default_word : GCodeType -> Word.

#[local] Abbreviation restart_device :=
  (DeskCNC.restart_device firmware_txt firmware_response_txt).
#[local] Abbreviation executeGCode_except :=
  (executeGCode_except firmware_txt firmware_response_txt).
#[local] Abbreviation executeGCode :=
  (executeGCode firmware_txt firmware_response_txt).
#[local] Abbreviation parseLine :=
  (parseLine firmware_txt firmware_response_txt exec_order default_word).
#[local] Abbreviation run :=
  (run firmware_txt firmware_response_txt exec_order default_word).

(** An [except] clause that runs to its end has restarted the device,
    reissued spindle-on when the spindle flag was set, left the port open
    and set the offsets to the negated position. *)
Lemma except_completes n s1 s3 :
  executeGCode_except n s1 = (Val tt, s3) ->
  (exists d,
      restart_device n (device s1) = (Val tt, d)
      /\ (if spindleOn s1 then DeskCNC.M3 n d = (Val tt, device s3)
          else device s3 = d))
  /\ is_open (device s3) = true
  /\ modal_fields s3
     = (posX s1, posY s1, posZ s1, feedrate s1, mode s1,
        (- posX s1, - posY s1, - posZ s1)%float,
        spindleOn s1, absolutepositionmode s1).
Proof.
  unfold ModalGCodeParser.executeGCode_except. unfold bind at 1.
  unfold on_device at 1.
  destruct (restart_device n (device s1)) as [[[] | e |] d] eqn:Er;
    try discriminate.
  pose proof (restart_device_opens _ _ _ _ _ Er) as Hopen.
  unfold bind, modify, get.
  cbn [device posX posY posZ spindleOn set_device set_offsetX set_offsetY
       set_offsetZ].
  destruct (spindleOn s1) eqn:Hs.
  - unfold on_device.
    cbn [device set_device set_offsetX set_offsetY set_offsetZ].
    destruct (DeskCNC.M3 n d) as [[[] | e |] d'] eqn:Em; try discriminate.
    intros H. injection H as H. subst s3. cbn.
    split; [exists d; split; [reflexivity|assumption]|].
    split; [|unfold modal_fields; cbn; now rewrite Hs].
    pose proof (same_openness_spindle _ _ _ _ _ Em) as Hso.
    unfold same_openness in Hso. congruence.
  - unfold ret. intros H. injection H as H. subst s3. cbn.
    split; [exists d; split; reflexivity|].
    split; [assumption|unfold modal_fields; cbn; now rewrite Hs].
Qed.

Lemma grows_executeGCode_except n :
  respects (grows plog) (executeGCode_except n).
Proof.
  unfold ModalGCodeParser.executeGCode_except, DeskCNC.M3. respects_tac.
Qed.

#[local] Hint Resolve grows_executeGCode_except : respects.

Lemma grows_executeGCode fuel gcode :
  respects (grows plog) (executeGCode fuel gcode).
Proof.
  induction fuel as [|n IH]; cbn [ModalGCodeParser.executeGCode];
    respects_tac.
Qed.

#[local] Hint Resolve grows_executeGCode : respects.

(** A serial exception in the [try] block hands over to the [except] clause
    and then to the same call again. *)
Lemma executeGCode_handles n gcode self msg s1 :
  executeGCode_try n gcode self = (Exc (SerialException msg), s1) ->
  executeGCode (S n) gcode self
  = (executeGCode_except n ;; executeGCode n gcode)%monad s1.
Proof.
  intros H. cbn [ModalGCodeParser.executeGCode]. unfold try_except.
  rewrite H. reflexivity.
Qed.

Lemma executeGCode_first_frame n gcode self c f s0 :
  executeGCode_try (S n) gcode self
  = (on_device (DeskCNC.executeCommand (S n) c 0) ;; modify f)%monad s0 ->
  device s0 = device self ->
  is_open (device self) = true ->
  (forall s, device (f s) = device s) ->
  exists more,
    plog (snd (executeGCode (S (S n)) gcode self))
    = plog self ++ framed c :: more.
Proof.
  intros Htry Hd Ho Hf.
  destruct (executeGCode (S (S n)) gcode self) as [r s'] eqn:H.
  cbn [snd ModalGCodeParser.executeGCode] in H |- *.
  unfold try_except in H. rewrite Htry in H.
  destruct ((on_device (DeskCNC.executeCommand (S n) c 0) ;; modify f)%monad
              s0) as [r1 s1] eqn:E.
  apply command_then_first_frame in E; [|now rewrite Hd|assumption].
  destruct E as [m1 Hm1]. unfold plog in Hm1 at 2. rewrite Hd in Hm1.
  fold (plog self) in Hm1.
  destruct r1 as [a | e |]; try (inversion H; subst; now exists m1).
  destruct (is_SerialException e); [|inversion H; subst; now exists m1].
  assert (Hh : respects (grows plog)
                 (executeGCode_except (S n) ;;
                  executeGCode (S n) gcode)%monad).
  { respects_tac. }
  destruct (Hh _ _ _ H) as [m2 Hm2]. exists (m1 ++ m2).
  rewrite Hm2, Hm1, <- app_assoc. reflexivity.
Qed.

(** With the port open and the fields encodable, the first frame a linear
    move puts on the wire is its linear-move command. *)
Lemma executeGCode_linear_first_frame n gcode self c :
  type gcode = GCodeLinearMove ->
  is_open (device self) = true ->
  (let s := linear_ready gcode self in
   linear_command (posX s + offsetX s) (posY s + offsetY s)
     (posZ s + offsetZ s) (feedrate s)) = inr c ->
  exists more,
    plog (snd (executeGCode (S (S n)) gcode self))
    = plog self ++ framed c :: more.
Proof.
  intros Ht Ho Hc. cbv zeta in Hc.
  eapply executeGCode_first_frame; [| |exact Ho|].
  - rewrite (executeGCode_try_linear _ _ _ Ht). cbv zeta.
    rewrite (G1_linear_command _ _ _ _ _ _ Hc). reflexivity.
  - apply linear_ready_device.
  - intros []; reflexivity.
Qed.

Lemma executeGCode_rapid_first_frame n gcode self c :
  type gcode = GCodeRapidMove ->
  is_open (device self) = true ->
  (let s := applyWords (params gcode) self in
   rapid_command (posX s + offsetX s) (posY s + offsetY s)
     (posZ s + offsetZ s)) = inr c ->
  exists more,
    plog (snd (executeGCode (S (S n)) gcode self))
    = plog self ++ framed c :: more.
Proof.
  intros Ht Ho Hc. cbv zeta in Hc.
  eapply executeGCode_first_frame; [| |exact Ho|].
  - rewrite (executeGCode_try_rapid _ _ _ Ht). cbv zeta.
    rewrite (G0_rapid_command _ _ _ _ _ Hc). reflexivity.
  - apply (proj1 (applyWords_keeps _ _)).
  - intros []; reflexivity.
Qed.

Lemma parseLine_without_gcodes fuel block self :
  gcodes block = [] ->
  parseLine fuel block self
  = executeGCode fuel (instantiate default_word (mode self))
      (applyWords (modal_params block) self).
Proof.
  intros Hg. unfold ModalGCodeParser.parseLine. unfold bind at 1.
  rewrite for_each_applyWord, Hg.
  cbn [sorted fold_left for_each List.length Nat.eqb].
  unfold bind at 1, ret at 1, bind at 1, get at 1.
  now rewrite (proj1 (proj2 (applyWords_keeps _ self))).
Qed.

Lemma parseLine_carries_rapid n block self c :
  gcodes block = [] ->
  mode self = GCodeRapidMove ->
  is_open (device self) = true ->
  (let s := applyWords (modal_params block) self in
   rapid_command (posX s + offsetX s) (posY s + offsetY s)
     (posZ s + offsetZ s)) = inr c ->
  exists more,
    plog (snd (parseLine (S (S n)) block self))
    = plog self ++ framed c :: more.
Proof.
  intros Hg Hm Ho Hc. rewrite (parseLine_without_gcodes _ _ _ Hg).
  replace (plog self) with (plog (applyWords (modal_params block) self))
    by (unfold plog; now rewrite (proj1 (applyWords_keeps _ self))).
  apply executeGCode_rapid_first_frame.
  - cbn [type instantiate]. exact Hm.
  - now rewrite (proj1 (applyWords_keeps _ self)).
  - exact Hc.
Qed.

Lemma parseLine_carries_linear n block self c :
  gcodes block = [] ->
  mode self = GCodeLinearMove ->
  is_open (device self) = true ->
  (let s := applyWords (modal_params block) self in
   linear_command (posX s + offsetX s) (posY s + offsetY s)
     (posZ s + offsetZ s) (clamp_feed (feedrate s))) = inr c ->
  exists more,
    plog (snd (parseLine (S (S n)) block self))
    = plog self ++ framed c :: more.
Proof.
  intros Hg Hm Ho Hc. rewrite (parseLine_without_gcodes _ _ _ Hg).
  replace (plog self) with (plog (applyWords (modal_params block) self))
    by (unfold plog; now rewrite (proj1 (applyWords_keeps _ self))).
  apply executeGCode_linear_first_frame.
  - cbn [type instantiate]. exact Hm.
  - now rewrite (proj1 (applyWords_keeps _ self)).
  - exact Hc.
Qed.


(** The [except] clause, outcome by outcome: the restart, then the three
    assignments, then the reissue of spindle-on when the flag is set.
    Nothing in it is inside a [try]. *)
Lemma executeGCode_except_outcome n s1 :
  executeGCode_except n s1
  = match restart_device n (device s1) with
    | (Val _, d) =>
        let s2 := with_offsets (set_device d s1) in
        if spindleOn s1 then on_device (DeskCNC.M3 n) s2 else (Val tt, s2)
    | (Exc e, d) => (Exc e, set_device d s1)
    | (OutOfFuel, d) => (OutOfFuel, set_device d s1)
    end.
Proof.
  unfold ModalGCodeParser.executeGCode_except. unfold bind at 1.
  unfold on_device at 1.
  destruct (restart_device n (device s1)) as [[[] | e |] d];
    try reflexivity.
  unfold bind, modify, get, with_offsets. cbn [spindleOn set_device
    set_offsetX set_offsetY set_offsetZ].
  destruct (spindleOn s1); reflexivity.
Qed.

(** What [executeGCode] does once its [try] block has raised a serial
    exception. *)
Lemma recovery_outcome n gcode self msg s1 :
  executeGCode_try n gcode self = (Exc (SerialException msg), s1) ->
  executeGCode (S n) gcode self
  = match restart_device n (device s1) with
    | (Val _, d) =>
        let s2 := with_offsets (set_device d s1) in
        if spindleOn self then
          match DeskCNC.M3 n d with
          | (Val _, d') => executeGCode n gcode (set_device d' s2)
          | (Exc e, d') => (Exc e, set_device d' s2)
          | (OutOfFuel, d') => (OutOfFuel, set_device d' s2)
          end
        else executeGCode n gcode s2
    | (Exc e, d) => (Exc e, set_device d s1)
    | (OutOfFuel, d) => (OutOfFuel, set_device d s1)
    end.
Proof.
  intros Hfault.
  destruct (try_raises _ _ _ _ _ Hfault) as (_ & Hsp & _).
  rewrite (executeGCode_handles _ _ _ _ _ Hfault).
  unfold bind. rewrite executeGCode_except_outcome.
  destruct (restart_device n (device s1)) as [[[] | e |] d];
    try reflexivity.
  cbv zeta. rewrite Hsp.
  destruct (spindleOn self); [|reflexivity].
  unfold on_device. cbn [device with_offsets set_device set_offsetX
    set_offsetY set_offsetZ].
  destruct (DeskCNC.M3 n d) as [[[] | e |] d']; reflexivity.
Qed.

Lemma with_offsets_fields d s1 :
  modal_fields (with_offsets (set_device d s1))
  = (posX s1, posY s1, posZ s1, feedrate s1, mode s1,
     (- posX s1, - posY s1, - posZ s1)%float,
     spindleOn s1, absolutepositionmode s1).
Proof. reflexivity. Qed.

Lemma except_mode n s1 r s3 :
  executeGCode_except n s1 = (r, s3) -> mode s3 = mode s1.
Proof.
  rewrite executeGCode_except_outcome.
  destruct (restart_device n (device s1)) as [[[] | e |] d].
  - cbv zeta. destruct (spindleOn s1).
    + intros H. apply on_device_fields in H.
      rewrite with_offsets_fields in H. unfold modal_fields in H.
      congruence.
    + intros H. inversion H; subst. reflexivity.
  - intros H. inversion H; subst. reflexivity.
  - intros H. inversion H; subst. reflexivity.
Qed.

(** [mode] holds the class of the motion gcode executed last: a motion
    gcode that returns leaves its class there, and nothing else changes
    it. *)
Lemma executeGCode_mode fuel gcode : forall self r s',
  executeGCode fuel gcode self = (r, s') ->
  mode s'
  = match r with
    | Val _ => if is_motion (type gcode) then type gcode else mode self
    | _ => mode self
    end.
Proof.
  induction fuel as [|n IH]; intros self r s' H.
  - inversion H; subst. reflexivity.
  - cbn [ModalGCodeParser.executeGCode] in H. unfold try_except in H.
    destruct (executeGCode_try n gcode self) as [[[] | e |] s1] eqn:Et;
      pose proof (try_mode _ _ _ _ _ Et) as Hm; cbv iota in Hm.
    + inversion H; subst. exact Hm.
    + destruct (is_SerialException e).
      * unfold bind in H.
        destruct (executeGCode_except n s1) as [[[] | e2 |] s3] eqn:Ee;
          pose proof (except_mode _ _ _ _ Ee) as Hx.
        -- rewrite (IH _ _ _ H), Hx, Hm. reflexivity.
        -- inversion H; subst. congruence.
        -- inversion H; subst. congruence.
      * inversion H; subst. exact Hm.
    + inversion H; subst. exact Hm.
Qed.

(** A feed-rate gcode updates the state and touches nothing else. *)
Lemma executeGCode_feed k gcode self :
  type gcode = GCodeFeedRate ->
  executeGCode (S k) gcode self
  = (Val tt, applyWord (word gcode) (applyWords (params gcode) self)).
Proof.
  intros Ht. cbn [ModalGCodeParser.executeGCode]. unfold try_except.
  now rewrite (executeGCode_try_feed _ _ _ Ht).
Qed.

(** A line of parameter words with an F word: the words are applied, the
    feed rate is set, and no gcode of the motion mode is executed. *)
Lemma parseLine_feed_line k ws v self :
  parseLine (S k) (parameter_line ws (Some v)) self
  = (Val tt, set_feedrate v (applyWords ws self)).
Proof.
  unfold ModalGCodeParser.parseLine, parameter_line.
  cbn [modal_params gcodes]. unfold bind at 1.
  rewrite for_each_applyWord.
  cbn [sorted fold_left insert_sorted for_each List.length Nat.eqb].
  unfold bind at 1. unfold bind at 1.
  rewrite executeGCode_feed by reflexivity.
  cbn [word params applyWords fold_left]. rewrite applyWord_F.
  reflexivity.
Qed.

(** A serial exception leaves [executeGCode] only from the reissue of
    spindle-on in an [except] clause: the state it leaves is the one that
    failing reissue left. *)
Lemma serial_exception_origin fuel gcode : forall self e s',
  executeGCode fuel gcode self = (Exc e, s') ->
  is_SerialException e = true ->
  exists k s2,
    spindleOn s2 = true /\ on_device (DeskCNC.M3 k) s2 = (Exc e, s').
Proof.
  induction fuel as [|n IH]; intros self e s' H He; [discriminate H|].
  cbn [ModalGCodeParser.executeGCode] in H. unfold try_except in H.
  destruct (executeGCode_try n gcode self) as [[[] | e0 |] s1];
    try discriminate H.
  destruct (is_SerialException e0) eqn:E0.
  2:{ inversion H; subst. congruence. }
  apply bind_raises in H. destruct H as [H | ([] & s3 & _ & H)].
  - rewrite executeGCode_except_outcome in H.
    destruct (restart_device n (device s1)) as [[[] | e1 |] d] eqn:Er.
    + cbv zeta in H. destruct (spindleOn s1) eqn:Hs; [|discriminate H].
      exists n, (with_offsets (set_device d s1)). split; [exact Hs|exact H].
    + inversion H; subst.
      pose proof (restart_device_raises _ _ _ _ _ _ Er) as Hc.
      rewrite (serial_is_caught_on_restart _ He) in Hc. discriminate Hc.
    + discriminate H.
  - exact (IH _ _ _ H He).
Qed.

Lemma parseLine_serial_exception_origin fuel block self e s' :
  parseLine fuel block self = (Exc e, s') ->
  is_SerialException e = true ->
  exists k s2,
    spindleOn s2 = true /\ on_device (DeskCNC.M3 k) s2 = (Exc e, s').
Proof.
  unfold ModalGCodeParser.parseLine. unfold bind at 1.
  rewrite for_each_applyWord. intros H He.
  apply bind_raises in H. destruct H as [H | ([] & s0 & _ & H)].
  - apply for_each_raises in H. destruct H as (g & s0 & _ & H).
    exact (serial_exception_origin _ _ _ _ _ H He).
  - destruct (List.length (gcodes block) =? 0)%nat; [|discriminate H].
    unfold bind, get in H.
    exact (serial_exception_origin _ _ _ _ _ H He).
Qed.

Lemma run_serial_exception_origin fuel input self e s' :
  run fuel input self = (Exc e, s') ->
  is_SerialException e = true ->
  exists k s2,
    spindleOn s2 = true /\ on_device (DeskCNC.M3 k) s2 = (Exc e, s').
Proof.
  unfold ModalGCodeParser.run. intros H He.
  apply for_each_raises in H. destruct H as (block & s0 & _ & H).
  exact (parseLine_serial_exception_origin _ _ _ _ _ H He).
Qed.

(** After a recovery the offsets are the negated position at fault time,
    so a rapid or a linear move transmits position plus offset. *)
Lemma recovered_rapid_first_frame k move s1 s2 s3 c :
  modal_fields s2
  = (posX s1, posY s1, posZ s1, feedrate s1, mode s1,
     (- posX s1, - posY s1, - posZ s1)%float,
     spindleOn s1, absolutepositionmode s1) ->
  modal_fields s3 = modal_fields s2 ->
  is_open (device s3) = true ->
  type move = GCodeRapidMove ->
  (let s := applyWords (params move) s3 in
   rapid_command (posX s + - posX s1) (posY s + - posY s1)
     (posZ s + - posZ s1)) = inr c ->
  exists more,
    plog (snd (executeGCode (S (S k)) move s3))
    = plog s3 ++ framed c :: more.
Proof.
  intros H2 H3 Ho Ht Hc. cbv zeta in Hc.
  rewrite H2 in H3. unfold modal_fields in H3.
  injection H3 as _ _ _ _ _ HoX HoY HoZ _ _.
  apply executeGCode_rapid_first_frame; [exact Ht|exact Ho|].
  cbv zeta.
  destruct (applyWords_keeps (params move) s3)
    as (_ & _ & K3 & K4 & K5 & _).
  now rewrite K3, K4, K5, HoX, HoY, HoZ.
Qed.

Lemma recovered_linear_first_frame k move s1 s2 s3 c :
  modal_fields s2
  = (posX s1, posY s1, posZ s1, feedrate s1, mode s1,
     (- posX s1, - posY s1, - posZ s1)%float,
     spindleOn s1, absolutepositionmode s1) ->
  modal_fields s3 = modal_fields s2 ->
  is_open (device s3) = true ->
  type move = GCodeLinearMove ->
  (let s := linear_ready move s3 in
   linear_command (posX s + - posX s1) (posY s + - posY s1)
     (posZ s + - posZ s1) (feedrate s)) = inr c ->
  exists more,
    plog (snd (executeGCode (S (S k)) move s3))
    = plog s3 ++ framed c :: more.
Proof.
  intros H2 H3 Ho Ht Hc. cbv zeta in Hc.
  rewrite H2 in H3. unfold modal_fields in H3.
  injection H3 as _ _ _ _ _ HoX HoY HoZ _ _.
  apply executeGCode_linear_first_frame; [exact Ht|exact Ho|].
  cbv zeta. unfold linear_ready in Hc |- *.
  cbn [posX posY posZ offsetX offsetY offsetZ feedrate set_feedrate]
    in Hc |- *.
  destruct (applyWords_keeps (params move) s3)
    as (_ & _ & K3 & K4 & K5 & _).
  now rewrite K3, K4, K5, HoX, HoY, HoZ.
Qed.

(** C7, amended: [mode] is the class of the motion command executed last
    (a motion gcode that returns leaves its class there, and no other gcode
    changes it); on a line on which the parser found no gcode at all,
    [parseLine] first applies the line's bare parameter words to the modal
    state and then executes a gcode of that class, built without
    parameters; so, with the port open and the fields encodable, the first
    frame written is the rapid or linear move at the updated position (and,
    for a linear move, the updated feed rate).  A line of parameter words
    with an F word is not such a line: its F word arrives as a feed-rate
    gcode, the words are applied and the feed rate set, and nothing is
    re-issued. *)
Theorem parseLine_modal_carry_over
    (n fuel : nat) (move : GCode) (block : Block) (self s1 : Parser) :
  is_motion (type move) = true ->
  executeGCode fuel move self = (Val tt, s1) ->
  gcodes block = [] ->
  let s := applyWords (modal_params block) s1 in
  let carried := instantiate default_word (type move) in
  mode s1 = type move
  /\ (forall fuel', parseLine fuel' block s1 = executeGCode fuel' carried s)
  /\ type carried = type move
  /\ params carried = []
  /\ (forall c,
        type move = GCodeRapidMove ->
        is_open (device s1) = true ->
        rapid_command (posX s + offsetX s) (posY s + offsetY s)
          (posZ s + offsetZ s) = inr c ->
        exists more,
          plog (snd (parseLine (S (S n)) block s1))
          = plog s1 ++ framed c :: more)
  /\ (forall c,
        type move = GCodeLinearMove ->
        is_open (device s1) = true ->
        linear_command (posX s + offsetX s) (posY s + offsetY s)
          (posZ s + offsetZ s) (clamp_feed (feedrate s)) = inr c ->
        exists more,
          plog (snd (parseLine (S (S n)) block s1))
          = plog s1 ++ framed c :: more)
  /\ (forall fuel' g r s',
        is_motion (type g) = false ->
        executeGCode fuel' g s1 = (r, s') -> mode s' = type move)
  /\ (forall k ws v,
        parseLine (S k) (parameter_line ws (Some v)) s1
        = (Val tt, set_feedrate v (applyWords ws s1))
        /\ plog (set_feedrate v (applyWords ws s1)) = plog s1
        /\ mode (set_feedrate v (applyWords ws s1)) = type move).
Proof.
  intros Hmotion Hmove Hg s carried.
  assert (Hmode : mode s1 = type move).
  { rewrite (executeGCode_mode _ _ _ _ _ Hmove). now rewrite Hmotion. }
  split; [exact Hmode|].
  split.
  { intros fuel'. unfold carried. rewrite <- Hmode.
    now apply parseLine_without_gcodes. }
  split; [reflexivity|]. split; [reflexivity|].
  split; [|split; [|split]].
  - intros c Ht Ho Hc. apply parseLine_carries_rapid; try assumption.
    congruence.
  - intros c Ht Ho Hc. apply parseLine_carries_linear; try assumption.
    congruence.
  - intros fuel' g r s' Hg' H.
    rewrite (executeGCode_mode _ _ _ _ _ H), Hg'.
    destruct r; exact Hmode.
  - intros k ws v.
    destruct (applyWords_keeps ws s1) as (K1 & K2 & _).
    split; [apply parseLine_feed_line|].
    split; [unfold plog; cbn [device set_feedrate]; now rewrite K1|].
    cbn [mode set_feedrate]. now rewrite K2.
Qed.

(** C8: when a linear move is executed, the feed rate in force after the
    parameter words is limited to 1620: above 1620 it becomes exactly 1620,
    at or below 1620 it is unchanged; the limited value is stored, passed
    to [G1] and encoded into the linear-move command, which is the first
    frame written. *)
Theorem linear_move_feed_is_clamped
    (n : nat) (gcode : GCode) (self : Parser) :
  type gcode = GCodeLinearMove ->
  let s := applyWords (params gcode) self in
  let f := clamp_feed (feedrate s) in
  ((1620 <? feedrate s)%float = true -> f = 1620%float)
  /\ ((feedrate s <=? 1620)%float = true -> f = feedrate s)
  /\ executeGCode_try n gcode self
     = (on_device (DeskCNC.G1 n (posX s + offsetX s) (posY s + offsetY s)
                     (posZ s + offsetZ s) f) ;;
        modify (set_mode GCodeLinearMove))%monad (set_feedrate f s)
  /\ (forall c,
        linear_command (posX s + offsetX s) (posY s + offsetY s)
          (posZ s + offsetZ s) f = inr c ->
        (exists pos fb,
            encodeFeedrate f = inr fb
            /\ c = [0x40; 0x4D] ++ pos ++ fb ++ bytearray 7)
        /\ (is_open (device self) = true ->
            exists more,
              plog (snd (executeGCode (S (S n)) gcode self))
              = plog self ++ framed c :: more)).
Proof.
  intros Ht s f.
  destruct (clamp_feed_spec (feedrate s)) as (Hhi & Hlo & _).
  split; [exact Hhi|]. split; [exact Hlo|].
  split; [exact (executeGCode_try_linear n gcode self Ht)|].
  intros c Hc. split.
  - destruct (linear_command_layout _ _ _ _ _ Hc) as (pos & fb & _ & Hf & E).
    now exists pos, fb.
  - intros Ho. now apply executeGCode_linear_first_frame.
Qed.

(** C10, amended: a freshly constructed translator is in Absolute distance
    mode at position (0, 0, 0) with offsets (0, 0, 0), feed rate 300,
    spindle off and last motion mode Linear; hence a first line made of
    parameter words without an F word is executed as a linear move: [G1] is
    called at the position the words give, with feed rate 300; with the
    port open and the fields encodable, the first frame written is that
    linear-move command.  A first line of parameter words with an F word
    emits no move: the words are applied, the feed rate is set, and nothing
    is written. *)
Theorem fresh_translator_first_line (mill : Serial) (ws : list Word) :
  let s := applyWords ws (init mill) in
  let f := clamp_feed (feedrate s) in
  (absolutepositionmode (init mill) = true
   /\ (posX (init mill), posY (init mill), posZ (init mill))
      = (0, 0, 0)%float
   /\ (offsetX (init mill), offsetY (init mill), offsetZ (init mill))
      = (0, 0, 0)%float
   /\ feedrate (init mill) = 300%float
   /\ spindleOn (init mill) = false
   /\ mode (init mill) = GCodeLinearMove
   /\ device (init mill) = mill)
  /\ (forall fuel,
        parseLine fuel (parameter_line ws None) (init mill)
        = executeGCode fuel (instantiate default_word GCodeLinearMove) s)
  /\ (forall k,
        executeGCode_try k (instantiate default_word GCodeLinearMove) s
        = (on_device (DeskCNC.G1 k (posX s + 0) (posY s + 0) (posZ s + 0)
                        f) ;;
           modify (set_mode GCodeLinearMove))%monad (set_feedrate f s))
  /\ (no_F ws = true -> f = 300%float)
  /\ (forall n c,
        is_open mill = true ->
        linear_command (posX s + 0) (posY s + 0) (posZ s + 0) f = inr c ->
        (exists more,
            plog (snd (parseLine (S (S n)) (parameter_line ws None)
                         (init mill)))
            = written mill ++ framed c :: more)
        /\ (exists pos fb,
               encodeFeedrate f = inr fb
               /\ c = [0x40; 0x4D] ++ pos ++ fb ++ bytearray 7))
  /\ encodeFeedrate 300 = inr [0xFD; 0x2B]
  /\ (forall k v,
        parseLine (S k) (parameter_line ws (Some v)) (init mill)
        = (Val tt, set_feedrate v s)
        /\ device (set_feedrate v s) = mill).
Proof.
  intros s f.
  destruct (applyWords_keeps ws (init mill))
    as (K1 & K2 & K3 & K4 & K5 & _).
  fold s in K1, K2, K3, K4, K5.
  cbn [init device offsetX offsetY offsetZ] in K1, K3, K4, K5.
  split; [repeat split|].
  split.
  { intros fuel.
    exact (parseLine_without_gcodes fuel (parameter_line ws None)
             (init mill) eq_refl). }
  split.
  { intros k.
    rewrite (executeGCode_try_linear k
               (instantiate default_word GCodeLinearMove) s eq_refl).
    cbv zeta.
    unfold linear_ready. cbn [instantiate params applyWords fold_left].
    cbn [posX posY posZ offsetX offsetY offsetZ feedrate set_feedrate].
    rewrite K3, K4, K5. reflexivity. }
  split.
  { intros HF. unfold f, s. rewrite (applyWords_no_F _ _ HF). reflexivity. }
  split; [|split; [reflexivity|]].
  - intros n c Ho Hc. split.
    + apply parseLine_carries_linear;
        [reflexivity|reflexivity|exact Ho|].
      cbv zeta. cbn [parameter_line modal_params]. fold s.
      rewrite K3, K4, K5. exact Hc.
    + destruct (linear_command_layout _ _ _ _ _ Hc)
        as (pos & fb & _ & Hf & E).
      now exists pos, fb.
  - intros k v. split; [apply parseLine_feed_line|].
    cbn [device set_feedrate]. exact K1.
Qed.

(** C1, amended: when the [try] block of [executeGCode] raises a serial
    exception, the device is restarted.  When the restart returns, the port
    is open, a reset frame and then the whole firmware have been written,
    and the offsets become the negated position at fault time on all three
    axes (the position itself is kept).  With the spindle flag off,
    [executeGCode] then goes on as the same call on the same gcode.  With
    the spindle flag on (as it was before the fault), spindle-on is reissued
    first, its command being the next frame written; when that reissue
    returns, [executeGCode] goes on as the same call on the same gcode, and
    when it raises, its exception leaves [executeGCode] on the spot and the
    gcode is not attempted again.  After the recovery a rapid or linear move
    whose fields encode writes, as its first frame, the command at position
    plus offset, the offset being minus the position at fault time.  A
    restart that raises (never a serial or OS error) or does not end leaves
    [executeGCode] the same way. *)
Theorem transport_fault_recovery
    (n : nat) (gcode : GCode) (self s1 : Parser) (msg : string) :
  executeGCode_try (S n) gcode self = (Exc (SerialException msg), s1) ->
  (forall d,
      restart_device (S n) (device s1) = (Val tt, d) ->
      let s2 := with_offsets (set_device d s1) in
      (is_open d = true
       /\ (exists pre,
              written d
              = plog s1 ++ pre
                ++ DeskCNC.chunks (List.length firmware_txt) firmware_txt
              /\ In COM_RESET pre)
       /\ List.concat (DeskCNC.chunks (List.length firmware_txt) firmware_txt)
          = firmware_txt)
      /\ (offsetX s2, offsetY s2, offsetZ s2)
         = (- posX s1, - posY s1, - posZ s1)%float
      /\ (posX s2, posY s2, posZ s2) = (posX s1, posY s1, posZ s1)
      /\ (spindleOn self = false ->
          executeGCode (S (S n)) gcode self = executeGCode (S n) gcode s2)
      /\ (spindleOn self = true ->
          forall r d',
            DeskCNC.M3 (S n) d = (r, d') ->
            (exists more, written d' = written d ++ framed SPINDLE_ON :: more)
            /\ is_open d' = true
            /\ executeGCode (S (S n)) gcode self
               = match r with
                 | Val _ => executeGCode (S n) gcode (set_device d' s2)
                 | Exc e => (Exc e, set_device d' s2)
                 | OutOfFuel => (OutOfFuel, set_device d' s2)
                 end)
      /\ (forall s3 k move c,
            modal_fields s3 = modal_fields s2 ->
            is_open (device s3) = true ->
            type move = GCodeRapidMove ->
            (let s := applyWords (params move) s3 in
             rapid_command (posX s + - posX s1) (posY s + - posY s1)
               (posZ s + - posZ s1)) = inr c ->
            exists more,
              plog (snd (executeGCode (S (S k)) move s3))
              = plog s3 ++ framed c :: more)
      /\ (forall s3 k move c,
            modal_fields s3 = modal_fields s2 ->
            is_open (device s3) = true ->
            type move = GCodeLinearMove ->
            (let s := linear_ready move s3 in
             linear_command (posX s + - posX s1) (posY s + - posY s1)
               (posZ s + - posZ s1) (feedrate s)) = inr c ->
            exists more,
              plog (snd (executeGCode (S (S k)) move s3))
              = plog s3 ++ framed c :: more))
  /\ (forall e d,
        restart_device (S n) (device s1) = (Exc e, d) ->
        DeskCNC.caught_on_restart e = false
        /\ executeGCode (S (S n)) gcode self = (Exc e, set_device d s1))
  /\ (forall d,
        restart_device (S n) (device s1) = (OutOfFuel, d) ->
        executeGCode (S (S n)) gcode self = (OutOfFuel, set_device d s1)).
Proof.
  intros Hfault.
  pose proof (recovery_outcome _ _ _ _ _ Hfault) as Hrec.
  split; [|split].
  - intros d Hr s2. rewrite Hr in Hrec. cbv zeta in Hrec. fold s2 in Hrec.
    destruct (restart_device_returns _ _ _ _ _ Hr) as (Hopen & Hlog).
    split.
    { split; [exact Hopen|]. split; [exact Hlog|].
      apply chunks_concat. apply Nat.le_refl. }
    split; [reflexivity|]. split; [reflexivity|].
    split; [intros Hs; now rewrite Hs in Hrec|].
    split.
    { intros Hs r d' Hm. rewrite Hs, Hm in Hrec.
      split; [exact (M3_first_frame _ _ _ _ Hopen Hm)|].
      split.
      - pose proof (same_openness_spindle _ _ _ _ _ Hm) as Hso.
        unfold same_openness in Hso. congruence.
      - destruct r as [[] | e |]; exact Hrec. }
    split.
    + intros s3 k move c. apply recovered_rapid_first_frame.
      apply with_offsets_fields.
    + intros s3 k move c. apply recovered_linear_first_frame.
      apply with_offsets_fields.
  - intros e d Hr. rewrite Hr in Hrec.
    split; [exact (restart_device_raises _ _ _ _ _ _ Hr)|exact Hrec].
  - intros d Hr. now rewrite Hr in Hrec.
Qed.

(** C2, amended: the error [executeCommand] raises after its retries is a
    serial exception like any transport error; when the [try] block of
    [executeGCode] raises it, the [except] clause catches it and runs the
    recovery path: the device is restarted and, once the restart has
    returned, the same gcode is executed again, straight away when the
    spindle flag is off and after the reissue of spindle-on when it is on.
    The error is passed on to the caller in one case only: a serial
    exception leaves the translator only from that reissue of spindle-on,
    which runs inside the [except] clause. *)
Theorem wrong_response_takes_recovery_path
    (n : nat) (gcode : GCode) (self s1 : Parser) :
  executeGCode_try (S n) gcode self = (Exc wrong_response, s1) ->
  is_SerialException wrong_response = true
  /\ executeGCode (S (S n)) gcode self
     = (executeGCode_except (S n) ;; executeGCode (S n) gcode)%monad s1
  /\ (forall d,
        restart_device (S n) (device s1) = (Val tt, d) ->
        let s2 := with_offsets (set_device d s1) in
        (spindleOn self = false ->
         executeGCode (S (S n)) gcode self = executeGCode (S n) gcode s2)
        /\ (spindleOn self = true ->
            forall r d',
              DeskCNC.M3 (S n) d = (r, d') ->
              executeGCode (S (S n)) gcode self
              = match r with
                | Val _ => executeGCode (S n) gcode (set_device d' s2)
                | Exc e => (Exc e, set_device d' s2)
                | OutOfFuel => (OutOfFuel, set_device d' s2)
                end))
  /\ (forall fuel input s e s',
        run fuel input s = (Exc e, s') ->
        is_SerialException e = true ->
        exists k s2,
          spindleOn s2 = true
          /\ on_device (DeskCNC.M3 k) s2 = (Exc e, s')).
Proof.
  intros Hfault. split; [reflexivity|].
  split; [exact (executeGCode_handles _ _ _ _ _ Hfault)|].
  pose proof (recovery_outcome _ _ _ _ _ Hfault) as Hrec.
  split.
  - intros d Hr s2. rewrite Hr in Hrec. cbv zeta in Hrec. fold s2 in Hrec.
    split; [intros Hs; now rewrite Hs in Hrec|].
    intros Hs r d' Hm. rewrite Hs, Hm in Hrec.
    destruct r as [[] | e |]; exact Hrec.
  - intros fuel input s e s'. apply run_serial_exception_origin.
Qed.

(** C9: recovery does not roll the modal state back.  When the [try] block
    raises a serial exception, the position it leaves is the one the
    parameter words produced; the [except] clause keeps it, and the
    re-attempt applies the same parameter words to it again; so in
    Incremental mode, after one recovered fault, each axis has had the
    values of its words added to it twice. *)
Theorem recovered_fault_reapplies_words
    (k : nat) (gcode : GCode) (self s1 s3 s5 : Parser) (msg : string)
    (r : result unit) :
  executeGCode_try (S k) gcode self = (Exc (SerialException msg), s1) ->
  executeGCode_except (S k) s1 = (Val tt, s3) ->
  executeGCode_try k gcode s3 = (r, s5) ->
  let once := applyWords (params gcode) self in
  (posX s1, posY s1, posZ s1) = (posX once, posY once, posZ once)
  /\ (posX s3, posY s3, posZ s3) = (posX once, posY once, posZ once)
  /\ executeGCode (S (S k)) gcode self = executeGCode (S k) gcode s3
  /\ (posX s5, posY s5, posZ s5)
     = (posX (applyWords (params gcode) s3),
        posY (applyWords (params gcode) s3),
        posZ (applyWords (params gcode) s3))
  /\ (absolutepositionmode self = false ->
      posX s5
      = shift "X" (params gcode) (shift "X" (params gcode) (posX self))
      /\ posY s5
         = shift "Y" (params gcode) (shift "Y" (params gcode) (posY self))
      /\ posZ s5
         = shift "Z" (params gcode) (shift "Z" (params gcode) (posZ self))).
Proof.
  intros Hfault Hexc Hagain once.
  destruct (try_raises _ _ _ _ _ Hfault) as (Hnf & _ & Habs).
  destruct (try_leaves _ _ _ _ _ Hfault Hnf)
    as (X1 & Y1 & Z1 & _ & _ & _).
  destruct (except_completes _ _ _ Hexc) as (_ & _ & Hf).
  unfold modal_fields in Hf. injection Hf as HX HY HZ _ _ _ _ _ _ Ha3.
  destruct (try_leaves _ _ _ _ _ Hagain Hnf)
    as (X5 & Y5 & Z5 & _ & _ & _).
  fold once in X1, Y1, Z1.
  split; [now rewrite X1, Y1, Z1|].
  split; [now rewrite HX, HY, HZ, X1, Y1, Z1|].
  split.
  { rewrite (executeGCode_handles _ _ _ _ _ Hfault).
    unfold bind. now rewrite Hexc. }
  split; [now rewrite X5, Y5, Z5|].
  intros Hinc.
  assert (Hinc3 : absolutepositionmode s3 = false) by congruence.
  destruct (applyWords_incremental (params gcode) self Hinc)
    as (IX & IY & IZ).
  destruct (applyWords_incremental (params gcode) s3 Hinc3)
    as (JX & JY & JZ).
  rewrite X5, Y5, Z5, JX, JY, JZ, HX, HY, HZ, X1, Y1, Z1.
  unfold once. rewrite IX, IY, IZ. repeat split; reflexivity.
Qed.

End Translator.

(** ** Concrete runs *)

#[local] Abbreviation bench_executeGCode :=
  (executeGCode bench_firmware bench_response).
#[local] Abbreviation bench_parseLine :=
  (parseLine bench_firmware bench_response unordered bench_default_word).
#[local] Abbreviation bench_run :=
  (run bench_firmware bench_response unordered bench_default_word).
#[local] Abbreviation bench_restart :=
  (DeskCNC.restart_device bench_firmware bench_response).

(** A rapid move to X10 is accepted; the line Y5 that follows is executed
    as a rapid move to X10 Y5. *)
Lemma parseLine_modal_carry_over_witness :
  let self := init accepting_twice_port in
  let s1 := snd (bench_executeGCode 3 rapid_X10 self) in
  is_motion (type rapid_X10) = true
  /\ bench_executeGCode 3 rapid_X10 self = (Val tt, s1)
  /\ gcodes line_Y5 = []
  /\ mode self = GCodeLinearMove
  /\ mode s1 = GCodeRapidMove
  /\ exists c10 c10_5,
       rapid_command 10 0 0 = inr c10
       /\ rapid_command 10 5 0 = inr c10_5
       /\ plog (snd (bench_parseLine 3 line_Y5 s1))
          = [framed c10; STATUS_FRAME; framed c10_5; STATUS_FRAME].
Proof.
  cbv zeta.
  assert (H1 : bench_executeGCode 3 rapid_X10 (init accepting_twice_port)
               = (Val tt,
                  snd (bench_executeGCode 3 rapid_X10
                         (init accepting_twice_port))))
    by (vm_compute; reflexivity).
  split; [reflexivity|]. split; [exact H1|]. split; [reflexivity|].
  split; [reflexivity|].
  split.
  - exact (proj1 (parseLine_modal_carry_over bench_firmware bench_response
                    unordered bench_default_word 1 3 rapid_X10 line_Y5
                    _ _ eq_refl H1 eq_refl)).
  - eexists. eexists.
    split; [vm_compute; reflexivity|].
    split; vm_compute; reflexivity.
Defined.

(** C7, as stated, fails: after an accepted rapid move to X10, the line
    X20 F500 holds parameter words only, yet nothing is re-issued: the
    words are applied (X is 20, the feed rate 500) and not a single frame
    is written, the answers of the device staying unread; the line X20, on
    which the parser finds no gcode, does re-issue the rapid move. *)
Lemma line_with_F_word_reissues_nothing :
  let self := init accepting_twice_port in
  let s1 := snd (bench_executeGCode 3 rapid_X10 self) in
  let s2 := snd (bench_parseLine 3 line_X20_F500 s1) in
  fst (bench_executeGCode 3 rapid_X10 self) = Val tt
  /\ mode s1 = GCodeRapidMove
  /\ fst (bench_parseLine 3 line_X20_F500 s1) = Val tt
  /\ plog s2 = plog s1
  /\ incoming (device s2) = accepting
  /\ (posX s2, feedrate s2, mode s2) = (20%float, 500%float, GCodeRapidMove)
  /\ exists c20,
       rapid_command 20 0 0 = inr c20
       /\ plog (snd (bench_parseLine 3 line_X20 s1))
          = plog s1 ++ [framed c20; STATUS_FRAME].
Proof.
  cbv zeta. split; [vm_compute; reflexivity|].
  split; [vm_compute; reflexivity|]. split; [vm_compute; reflexivity|].
  split; [vm_compute; reflexivity|]. split; [vm_compute; reflexivity|].
  split; [vm_compute; reflexivity|].
  eexists. split; vm_compute; reflexivity.
Qed.

(** A linear move asking for 2000 mm/min goes out at 1620 mm/min: the feed
    field of its frame holds 2085, which is 3378400 / 1620 truncated. *)
Lemma linear_move_feed_is_clamped_witness :
  type fast_move = GCodeLinearMove
  /\ feedrate (applyWords (params fast_move) (init accepting_twice_port))
     = 2000%float
  /\ clamp_feed
       (feedrate (applyWords (params fast_move) (init accepting_twice_port)))
     = 1620%float
  /\ exists c pos fb more,
       linear_command 10 0 0 1620 = inr c
       /\ c = [0x40; 0x4D] ++ pos ++ fb ++ bytearray 7
       /\ encodeFeedrate 1620 = inr fb
       /\ decodeFeed fb = 2085
       /\ plog (snd (bench_executeGCode 3 fast_move
                       (init accepting_twice_port)))
          = framed c :: more.
Proof.
  split; [reflexivity|]. split; [reflexivity|].
  destruct (linear_move_feed_is_clamped bench_firmware bench_response 1
              fast_move (init accepting_twice_port) eq_refl)
    as (Hhi & _ & _ & Hframe).
  split; [apply Hhi; reflexivity|].
  assert (Hc : exists c, linear_command 10 0 0 1620 = inr c)
    by (eexists; vm_compute; reflexivity).
  destruct Hc as [c Hc].
  destruct (Hframe c Hc) as ((pos & fb & Hfb & Elay) & Hlog).
  destruct (Hlog eq_refl) as [more Hmore].
  exists c, pos, fb, more.
  split; [exact Hc|]. split; [exact Elay|]. split; [exact Hfb|].
  split; [|exact Hmore].
  assert (E : encodeFeedrate 1620 = inr [0x25; 0x08])
    by (vm_compute; reflexivity).
  change (encodeFeedrate 1620 = inr fb) in Hfb.
  rewrite E in Hfb. injection Hfb as <-. reflexivity.
Defined.

(** The first line X10 Y5 of a fresh translator goes out as a linear move
    at 300 mm/min. *)
Lemma fresh_translator_first_line_witness :
  no_F (modal_params line_X10_Y5) = true
  /\ clamp_feed
       (feedrate (applyWords (modal_params line_X10_Y5) (init idle_port)))
     = 300%float
  /\ (exists more,
        plog (snd (bench_parseLine 2 line_X10_Y5 (init idle_port)))
        = written idle_port
          ++ framed [0x40; 0x4D; 0x66; 0xFD; 0xFF; 0xFF; 0x4D; 0x01; 0; 0;
                     0; 0; 0; 0; 0xFD; 0x2B; 0; 0; 0; 0; 0; 0; 0]
          :: more)
  /\ bench_parseLine 2 line_X20_F500 (init idle_port)
     = (Val tt,
        set_feedrate 500 (applyWords [mkWord "X" 20] (init idle_port))).
Proof.
  split; [reflexivity|].
  destruct (fresh_translator_first_line bench_firmware bench_response
              unordered bench_default_word idle_port
              [mkWord "X" 10; mkWord "Y" 5])
    as (_ & _ & _ & H & Hframe & _ & HF).
  split; [apply H; reflexivity|].
  split; [apply (Hframe O); reflexivity|].
  destruct (fresh_translator_first_line bench_firmware bench_response
              unordered bench_default_word idle_port [mkWord "X" 20])
    as (_ & _ & _ & _ & _ & _ & HF20).
  exact (proj1 (HF20 1%nat 500%float)).
Defined.

(** C10, as stated, fails: the first line X20 F500 consists of parameter
    words only, yet it emits no move, neither at feed rate 500 nor at feed
    rate 300: nothing at all is written; the line X20 does emit its linear
    move. *)
Lemma first_line_with_F_word_emits_no_move :
  let s := snd (bench_parseLine 3 line_X20_F500 (init accepting_twice_port)) in
  fst (bench_parseLine 3 line_X20_F500 (init accepting_twice_port)) = Val tt
  /\ plog s = []
  /\ incoming (device s) = accepting ++ accepting
  /\ (posX s, feedrate s, mode s) = (20%float, 500%float, GCodeLinearMove)
  /\ exists c20,
       linear_command 20 0 0 300 = inr c20
       /\ plog (snd (bench_parseLine 3 line_X20 (init accepting_twice_port)))
          = [framed c20; STATUS_FRAME].
Proof.
  cbv zeta. split; [vm_compute; reflexivity|].
  split; [vm_compute; reflexivity|]. split; [vm_compute; reflexivity|].
  split; [vm_compute; reflexivity|].
  eexists. split; vm_compute; reflexivity.
Qed.

(** The spindle is running and the acknowledgement of a linear move to X10
    cannot be read.  The device is restarted (reset frame, firmware),
    spindle-on is reissued and accepted, and the move is sent again, now at
    position plus offset, which is X0. *)
Lemma transport_fault_recovery_witness :
  let self := set_spindleOn true (init faulting_port_spindle) in
  let s1 := snd (executeGCode_try 4 move_X10 self) in
  let d := snd (bench_restart 4 (device s1)) in
  let d' := snd (DeskCNC.M3 4 d) in
  let s2 := with_offsets (set_device d s1) in
  executeGCode_try 4 move_X10 self = (Exc (SerialException "read failed"), s1)
  /\ bench_restart 4 (device s1) = (Val tt, d)
  /\ spindleOn self = true
  /\ DeskCNC.M3 4 d = (Val tt, d')
  /\ bench_executeGCode 5 move_X10 self
     = bench_executeGCode 4 move_X10 (set_device d' s2)
  /\ (posX s2, offsetX s2) = (10, -10)%float
  /\ exists c10 c0,
       linear_command 10 0 0 300 = inr c10
       /\ linear_command 0 0 0 300 = inr c0
       /\ bench_executeGCode 5 move_X10 self
          = (Val tt,
             snd (bench_executeGCode 5 move_X10 self))
       /\ plog (snd (bench_executeGCode 5 move_X10 self))
          = [framed c10; COM_RESET; bench_firmware;
             framed SPINDLE_ON; STATUS_FRAME; framed c0; STATUS_FRAME].
Proof.
  cbv zeta.
  set (self := set_spindleOn true (init faulting_port_spindle)).
  assert (H1 : executeGCode_try 4 move_X10 self
               = (Exc (SerialException "read failed"),
                  snd (executeGCode_try 4 move_X10 self)))
    by (vm_compute; reflexivity).
  assert (H2 : bench_restart 4 (device (snd (executeGCode_try 4 move_X10 self)))
               = (Val tt,
                  snd (bench_restart 4
                         (device (snd (executeGCode_try 4 move_X10 self))))))
    by (vm_compute; reflexivity).
  assert (H3 : DeskCNC.M3 4
                 (snd (bench_restart 4
                         (device (snd (executeGCode_try 4 move_X10 self)))))
               = (Val tt,
                  snd (DeskCNC.M3 4
                         (snd (bench_restart 4
                                 (device (snd (executeGCode_try 4 move_X10
                                                 self))))))))
    by (vm_compute; reflexivity).
  destruct (transport_fault_recovery bench_firmware bench_response 3
              move_X10 self _ _ H1) as (Hret & _).
  destruct (Hret _ H2) as (_ & _ & _ & _ & Hon & _).
  destruct (Hon eq_refl _ _ H3) as (_ & _ & Hgo).
  split; [exact H1|]. split; [exact H2|]. split; [reflexivity|].
  split; [exact H3|]. split; [exact Hgo|].
  split; [vm_compute; reflexivity|].
  eexists. eexists.
  split; [vm_compute; reflexivity|].
  split; [vm_compute; reflexivity|].
  split; vm_compute; reflexivity.
Defined.

(** C1, as stated, fails: with the spindle running, a linear move to X10
    whose acknowledgement cannot be read makes the translator restart the
    device and reissue spindle-on; the device rejects that command three
    times, [executeCommand] raises "wrong response from device" inside the
    [except] clause, and the exception leaves [executeGCode] and [run].
    The move is never sent again: its frame is in the log once, from the
    attempt that faulted, and every frame after the restart is a spindle-on
    command or a status query. *)
Lemma failed_reissue_is_not_recovered :
  let self := set_spindleOn true (init reissue_rejecting_port) in
  let out := bench_executeGCode 6 move_X10 self in
  exists c10,
    linear_command 10 0 0 300 = inr c10
    /\ executeGCode_try 5 move_X10 self
       = (Exc (SerialException "read failed"),
          snd (executeGCode_try 5 move_X10 self))
    /\ fst out = Exc wrong_response
    /\ plog (snd out)
       = [framed c10; COM_RESET; bench_firmware;
          framed SPINDLE_ON; STATUS_FRAME;
          framed SPINDLE_ON; STATUS_FRAME;
          framed SPINDLE_ON; STATUS_FRAME]
    /\ transmissions (framed c10) (plog (snd out)) = 1%nat
    /\ fst (bench_run 6 [mkBlock [] [move_X10]] self) = Exc wrong_response.
Proof.
  cbv zeta. eexists.
  split; [vm_compute; reflexivity|].
  split; [vm_compute; reflexivity|].
  split; [vm_compute; reflexivity|].
  split; [vm_compute; reflexivity|].
  split; vm_compute; reflexivity.
Qed.

(** C2, as stated, fails: a linear move whose frame is rejected three times
    makes [executeCommand] raise "wrong response from device" inside the
    [try] block, yet [executeGCode] returns normally: the log shows the
    three rejected transmissions, then the reset frame and the firmware of
    a restart, then the same move sent again (now at position plus offset)
    and accepted. *)
Lemma wrong_response_is_recovered_not_surfaced :
  exists c10 c0,
    linear_command 10 0 0 300 = inr c10
    /\ linear_command 0 0 0 300 = inr c0
    /\ fst (executeGCode_try 5 move_X10 (init thrice_rejecting_port))
       = Exc wrong_response
    /\ fst (bench_executeGCode 6 move_X10 (init thrice_rejecting_port))
       = Val tt
    /\ plog (snd (bench_executeGCode 6 move_X10
                    (init thrice_rejecting_port)))
       = [framed c10; STATUS_FRAME; framed c10; STATUS_FRAME;
          framed c10; STATUS_FRAME; COM_RESET; bench_firmware;
          framed c0; STATUS_FRAME].
Proof.
  eexists. eexists.
  split; [vm_compute; reflexivity|].
  split; [vm_compute; reflexivity|].
  split; [vm_compute; reflexivity|].
  split; vm_compute; reflexivity.
Qed.

(** The move is rejected three times with the spindle off: the error is
    caught and, after the restart, the same call goes on. *)
Lemma wrong_response_takes_recovery_path_witness :
  let self := init thrice_rejecting_port in
  let s1 := snd (executeGCode_try 5 move_X10 self) in
  let d := snd (bench_restart 5 (device s1)) in
  executeGCode_try 5 move_X10 self = (Exc wrong_response, s1)
  /\ bench_restart 5 (device s1) = (Val tt, d)
  /\ spindleOn self = false
  /\ bench_executeGCode 6 move_X10 self
     = (executeGCode_except bench_firmware bench_response 5 ;;
        bench_executeGCode 5 move_X10)%monad s1
  /\ bench_executeGCode 6 move_X10 self
     = bench_executeGCode 5 move_X10 (with_offsets (set_device d s1)).
Proof.
  cbv zeta.
  assert (H1 : executeGCode_try 5 move_X10 (init thrice_rejecting_port)
               = (Exc wrong_response,
                  snd (executeGCode_try 5 move_X10
                         (init thrice_rejecting_port))))
    by (vm_compute; reflexivity).
  assert (H2 : bench_restart 5
                 (device (snd (executeGCode_try 5 move_X10
                                 (init thrice_rejecting_port))))
               = (Val tt,
                  snd (bench_restart 5
                         (device (snd (executeGCode_try 5 move_X10
                                         (init thrice_rejecting_port)))))))
    by (vm_compute; reflexivity).
  destruct (wrong_response_takes_recovery_path bench_firmware
              bench_response unordered bench_default_word 4 move_X10 _ _ H1)
    as (_ & Hpath & Hret & _).
  split; [exact H1|]. split; [exact H2|]. split; [reflexivity|].
  split; [exact Hpath|].
  exact (proj1 (Hret _ H2) eq_refl).
Defined.

(** With the spindle running, the same error raised by the reissue of
    spindle-on does leave the translator. *)
Example wrong_response_surfaces_from_the_reissue :
  let self := set_spindleOn true (init rejecting_throughout_port) in
  fst (executeGCode_try 5 move_X10 self) = Exc wrong_response
  /\ fst (bench_executeGCode 6 move_X10 self) = Exc wrong_response
  /\ fst (bench_run 6 [mkBlock [] [move_X10]] self) = Exc wrong_response.
Proof. cbv zeta. repeat split; vm_compute; reflexivity. Qed.

(** In Incremental mode a linear move by X10 whose acknowledgement cannot
    be read ends, after the recovery, at X20. *)
Lemma recovered_fault_reapplies_words_witness :
  let self := set_absolutepositionmode false (init faulting_port) in
  let s1 := snd (executeGCode_try 4 move_X10 self) in
  let s3 := snd (executeGCode_except bench_firmware bench_response 4 s1) in
  let s5 := snd (executeGCode_try 3 move_X10 s3) in
  executeGCode_try 4 move_X10 self = (Exc (SerialException "read failed"), s1)
  /\ executeGCode_except bench_firmware bench_response 4 s1 = (Val tt, s3)
  /\ executeGCode_try 3 move_X10 s3 = (Val tt, s5)
  /\ absolutepositionmode self = false
  /\ posX self = 0%float
  /\ posX s5
     = shift "X" (params move_X10) (shift "X" (params move_X10) (posX self))
  /\ shift "X" (params move_X10) (shift "X" (params move_X10) (posX self))
     = 20%float.
Proof.
  cbv zeta.
  set (self := set_absolutepositionmode false (init faulting_port)).
  assert (H1 : executeGCode_try 4 move_X10 self
               = (Exc (SerialException "read failed"),
                  snd (executeGCode_try 4 move_X10 self)))
    by (vm_compute; reflexivity).
  assert (H2 : executeGCode_except bench_firmware bench_response 4
                 (snd (executeGCode_try 4 move_X10 self))
               = (Val tt,
                  snd (executeGCode_except bench_firmware bench_response 4
                         (snd (executeGCode_try 4 move_X10 self)))))
    by (vm_compute; reflexivity).
  assert (H3 : executeGCode_try 3 move_X10
                 (snd (executeGCode_except bench_firmware bench_response 4
                         (snd (executeGCode_try 4 move_X10 self))))
               = (Val tt,
                  snd (executeGCode_try 3 move_X10
                         (snd (executeGCode_except bench_firmware
                                 bench_response 4
                                 (snd (executeGCode_try 4 move_X10
                                         self)))))))
    by (vm_compute; reflexivity).
  destruct (recovered_fault_reapplies_words bench_firmware bench_response 3
              move_X10 self _ _ _ _ _ H1 H2 H3) as (_ & _ & _ & _ & Hinc).
  split; [exact H1|]. split; [exact H2|]. split; [exact H3|].
  split; [reflexivity|]. split; [reflexivity|].
  split; [exact (proj1 (Hinc eq_refl))|].
  reflexivity.
Defined.

(** ** Further properties of the driver *)

(** *** The checksum *)

Lemma xor_fold_acc b : forall acc,
  fold_left Z.lxor b acc = Z.lxor acc (xor_fold b).
Proof.
  unfold xor_fold. induction b as [|x b IH]; intros acc; cbn [fold_left].
  - now rewrite Z.lxor_0_r.
  - rewrite IH, (IH (Z.lxor 0 x)), Z.lxor_0_l, Z.lxor_assoc. reflexivity.
Qed.

Lemma xor_fold_app a b : xor_fold (a ++ b) = Z.lxor (xor_fold a) (xor_fold b).
Proof. unfold xor_fold at 1. rewrite fold_left_app. apply xor_fold_acc. Qed.

Lemma xor_fold_cons x b : xor_fold (x :: b) = Z.lxor x (xor_fold b).
Proof. change (x :: b) with ([x] ++ b). rewrite xor_fold_app. now cbn. Qed.

Lemma checksum_xor_fold b : checksum b = [xor_fold b].
Proof. reflexivity. Qed.

Lemma lxor_cancel_l a b c : Z.lxor a b = Z.lxor a c -> b = c.
Proof.
  intros H. apply (f_equal (Z.lxor a)) in H.
  now rewrite <- !Z.lxor_assoc, Z.lxor_nilpotent, !Z.lxor_0_l in H.
Qed.

Lemma lxor_cancel_r a b c : Z.lxor b a = Z.lxor c a -> b = c.
Proof. rewrite !(Z.lxor_comm _ a). apply lxor_cancel_l. Qed.

(** X1: the checksum of a frame, which is a command followed by its
    checksum, is zero. *)
Theorem framed_checks_to_zero (command : bytes) :
  checksum (framed command) = [0].
Proof.
  unfold framed. rewrite !checksum_xor_fold, xor_fold_app, xor_fold_cons.
  cbn [xor_fold fold_left]. now rewrite Z.lxor_0_r, Z.lxor_nilpotent.
Qed.

(** X2: a frame in which one byte of the command has been replaced by a
    different one no longer checks to zero. *)
Theorem corrupted_byte_is_detected (pre post : bytes) (x y : Z) :
  x <> y ->
  checksum ((pre ++ y :: post) ++ checksum (pre ++ x :: post)) <> [0].
Proof.
  intros Hxy H.
  rewrite !checksum_xor_fold, xor_fold_app, xor_fold_cons in H.
  change (xor_fold []) with 0 in H. rewrite Z.lxor_0_r in H.
  injection H as H. apply Z.lxor_eq in H.
  rewrite !xor_fold_app, !xor_fold_cons in H.
  apply lxor_cancel_l, lxor_cancel_r in H. congruence.
Qed.

Lemma corrupted_byte_is_detected_witness :
  0x4E <> 0x4F
  /\ checksum (([0x40] ++ 0x4F :: [0x01])
               ++ checksum ([0x40] ++ 0x4E :: [0x01]))
     <> [0].
Proof.
  assert (H : 0x4E <> 0x4F) by discriminate.
  split; [exact H|]. exact (corrupted_byte_is_detected [0x40] [0x01] _ _ H).
Defined.

Lemma lxor_is_byte a b : is_byte a -> is_byte b -> is_byte (Z.lxor a b).
Proof.
  unfold is_byte. intros [Ha Ha'] [Hb Hb'].
  assert (H0 : 0 <= Z.lxor a b) by (apply Z.lxor_nonneg; tauto).
  split; [exact H0|].
  destruct (Z.eq_dec (Z.lxor a b) 0) as [E|E]; [rewrite E; lia|].
  change 256 with (2 ^ 8). apply Z.log2_lt_pow2; [lia|].
  pose proof (Z.log2_lxor a b Ha Hb) as Hl.
  assert (La : Z.log2 a < 8).
  { destruct (Z.eq_dec a 0) as [->|Na]; [cbn; lia|].
    apply Z.log2_lt_pow2; [lia|]. cbn. lia. }
  assert (Lb : Z.log2 b < 8).
  { destruct (Z.eq_dec b 0) as [->|Nb]; [cbn; lia|].
    apply Z.log2_lt_pow2; [lia|]. cbn. lia. }
  lia.
Qed.

Lemma xor_fold_is_byte b : Forall is_byte b -> is_byte (xor_fold b).
Proof.
  induction 1 as [|x b Hx Hb IH]; [unfold is_byte; cbn; lia|].
  rewrite xor_fold_cons. now apply lxor_is_byte.
Qed.

(** X3: the checksum of a string of bytes is a byte, so a frame is a string
    of bytes one longer than its command. *)
Theorem framed_is_a_byte_string (command : bytes) :
  Forall is_byte command ->
  Forall is_byte (framed command)
  /\ List.length (framed command) = S (List.length command).
Proof.
  intros H. unfold framed. split.
  - apply Forall_app. split; [exact H|].
    rewrite checksum_xor_fold. constructor; [|constructor].
    now apply xor_fold_is_byte.
  - rewrite length_app. cbn. lia.
Qed.

Lemma framed_is_a_byte_string_witness :
  Forall is_byte SPINDLE_ON
  /\ Forall is_byte (framed SPINDLE_ON)
  /\ List.length (framed SPINDLE_ON) = 24%nat.
Proof.
  assert (H : Forall is_byte SPINDLE_ON).
  { unfold SPINDLE_ON, bytearray. cbn [repeat app].
    repeat constructor; discriminate. }
  split; [exact H|]. exact (framed_is_a_byte_string SPINDLE_ON H).
Defined.

(** *** The command executor *)

Lemma executeCommand_accepts_after rejected :
  forall command p count fuel a polls rest,
    is_open p = true ->
    0 <= count ->
    (Z.of_nat (List.length rejected) + count <= 2) ->
    forallb rejected_round rejected = true ->
    accepted a = true ->
    completes polls = true ->
    incoming p = flat_map round_script rejected ++ Data a :: polls ++ rest ->
    (List.length (flat_map round_script rejected ++ Data a :: polls)
     < fuel)%nat ->
    DeskCNC.executeCommand fuel command count p
    = (Val tt,
       mkSerial true
         (written p ++ flat_map (round_frames (framed command)) rejected
          ++ framed command :: repeat STATUS_FRAME (List.length polls))
         rest (opening p)).
Proof.
  induction rejected as [|[a1 polls1] rejected IH];
    intros command p count fuel a polls rest Ho Hc0 Hc Hr Ha Hp Hi Hf.
  - cbn [flat_map app] in Hi, Hf |- *.
    destruct fuel as [|n]; [lia|]. cbn [List.length] in Hf.
    rewrite (executeCommand_round _ _ _ _ a polls rest Ho Hi Hp) by lia.
    rewrite Ha. reflexivity.
  - cbn [flat_map round_script fst snd app] in Hi, Hf.
    rewrite <- app_assoc in Hi.
    cbn [forallb] in Hr. apply andb_true_iff in Hr. destruct Hr as [Hr1 Hr].
    unfold rejected_round in Hr1. cbn [fst snd] in Hr1.
    apply andb_true_iff in Hr1. destruct Hr1 as [Hn1 Hp1].
    apply negb_true_iff in Hn1.
    destruct fuel as [|n]; [lia|].
    cbn [List.length] in Hf, Hc. rewrite !length_app in Hf.
    rewrite (executeCommand_round _ _ _ _ a1 polls1 _ Ho Hi Hp1) by lia.
    rewrite Hn1. cbn [negb].
    destruct (Z.ltb_spec count 2) as [Hlt|Hge]; [|lia].
    rewrite (IH command _ (count + 1) n a polls rest); try assumption;
      try reflexivity; try lia.
    + unfold after_round. cbn [written opening flat_map round_frames snd].
      rewrite <- !app_assoc. reflexivity.
    + rewrite length_app. cbn [List.length] in *. lia.
Qed.

Lemma executeCommand_accepted n command p a polls rest :
  is_open p = true ->
  incoming p = Data a :: polls ++ rest ->
  accepted a = true ->
  completes polls = true ->
  (List.length polls <= n)%nat ->
  DeskCNC.executeCommand (S n) command 0 p
  = (Val tt, after_round p (framed command) (List.length polls) rest).
Proof.
  intros Ho Hi Ha Hp Hn.
  rewrite (executeCommand_round _ _ _ _ a polls rest Ho Hi Hp Hn).
  now rewrite Ha.
Qed.

Lemma read_timeout p size :
  is_open p = true -> incoming p = [] -> Port.read size p = (Val [], p).
Proof. intros Ho Hi. unfold Port.read. now rewrite Ho, Hi. Qed.

Lemma machineReady_silent p :
  is_open p = true -> incoming p = [] ->
  DeskCNC.machineReady p
  = (Exc not_responding,
     mkSerial true (written p ++ [STATUS_FRAME]) [] (opening p)).
Proof.
  intros Ho Hi. unfold DeskCNC.machineReady.
  unfold bind at 1. rewrite (write_open _ _ Ho).
  unfold bind. rewrite read_timeout; [|reflexivity|exact Hi].
  cbn [bytes_eqb]. unfold raise. now rewrite Hi.
Qed.

Lemma wait_ready_silent polls : forall p n,
  forallb busy polls = true ->
  is_open p = true ->
  incoming p = polls ->
  (List.length polls < n)%nat ->
  wait_ready n p
  = (Exc not_responding,
     mkSerial true
       (written p ++ repeat STATUS_FRAME (S (List.length polls))) []
       (opening p)).
Proof.
  induction polls as [|r polls IH]; intros p n Hb Ho Hi Hn.
  - destruct n as [|n]; [cbn in Hn; lia|].
    unfold wait_ready. cbn [while_not]. unfold bind at 1.
    rewrite (machineReady_silent p Ho Hi). reflexivity.
  - destruct n as [|n]; [cbn in Hn; lia|].
    cbn [forallb] in Hb. apply andb_true_iff in Hb. destruct Hb as [Hr Hb].
    destruct r as [b|]; [|discriminate Hr].
    cbn [busy] in Hr. apply andb_true_iff in Hr. destruct Hr as [H1 H2].
    apply negb_true_iff in H1, H2.
    unfold wait_ready. cbn [while_not]. unfold bind at 1.
    rewrite (machineReady_data p b polls Ho Hi), H1, H2.
    unfold sleep, bind at 1, ret at 1.
    change (while_not n DeskCNC.machineReady (ret tt)) with (wait_ready n).
    rewrite (IH _ n Hb); try reflexivity.
    + cbn [written opening List.length repeat]. rewrite <- app_assoc.
      reflexivity.
    + cbn [List.length] in Hn. lia.
Qed.

(** X4: when the device rejects a command at most twice (each wait for
    readiness ending) and then accepts it, [executeCommand] returns
    normally, having transmitted the frame once per round, each time
    followed by one status query per answer of the wait. *)
Theorem executeCommand_accepted_after_retries
    (command : bytes) (p : Serial) (rejected : list (bytes * list reading))
    (a : bytes) (polls rest : list reading) (fuel : nat) :
  is_open p = true ->
  (List.length rejected <= 2)%nat ->
  forallb rejected_round rejected = true ->
  accepted a = true ->
  completes polls = true ->
  incoming p = flat_map round_script rejected ++ Data a :: polls ++ rest ->
  (List.length (flat_map round_script rejected ++ Data a :: polls)
   < fuel)%nat ->
  DeskCNC.executeCommand fuel command 0 p
  = (Val tt,
     mkSerial true
       (written p ++ flat_map (round_frames (framed command)) rejected
        ++ framed command :: repeat STATUS_FRAME (List.length polls))
       rest (opening p)).
Proof.
  intros Ho Hl Hr Ha Hp Hi Hf.
  apply (executeCommand_accepts_after rejected command p 0 fuel a polls rest);
    try assumption; lia.
Qed.

Lemma executeCommand_accepted_after_retries_witness :
  DeskCNC.executeCommand 8 SPINDLE_ON 0
    (mkSerial true []
       [Data [0x03]; Data [0x00]; Data [0xEC];
        Data [0x15]; Data [0xEC];
        Data [0x02]; Data [0xEC]; Data [0x07]] [])
  = (Val tt,
     mkSerial true
       [framed SPINDLE_ON; STATUS_FRAME; STATUS_FRAME;
        framed SPINDLE_ON; STATUS_FRAME;
        framed SPINDLE_ON; STATUS_FRAME]
       [Data [0x07]] []).
Proof.
  exact (executeCommand_accepted_after_retries SPINDLE_ON
           (mkSerial true []
              [Data [0x03]; Data [0x00]; Data [0xEC];
               Data [0x15]; Data [0xEC];
               Data [0x02]; Data [0xEC]; Data [0x07]] [])
           [([0x03], [Data [0x00]; Data [0xEC]]); ([0x15], [Data [0xEC]])]
           [0x02] [Data [0xEC]] [Data [0x07]] 8
           eq_refl (le_n 2) eq_refl eq_refl eq_refl eq_refl
           (proj1 (Nat.ltb_lt 7 8) eq_refl)).
Defined.

(** X5: when the device stops answering, at once or after the
    acknowledgement and some busy answers, the status query that gets no
    answer makes [executeCommand] raise "device not responding"; the frame
    has been written once, followed by one status query per busy answer and
    the unanswered one. *)
Theorem executeCommand_silent_device
    (command : bytes) (count : Z) (p : Serial) (ack polls : list reading)
    (fuel : nat) :
  is_open p = true ->
  incoming p = ack ++ polls ->
  (ack = [] /\ polls = [] \/ exists a, ack = [Data a]) ->
  forallb busy polls = true ->
  (List.length polls + 1 < fuel)%nat ->
  DeskCNC.executeCommand fuel command count p
  = (Exc not_responding,
     mkSerial true
       (written p ++ framed command
        :: repeat STATUS_FRAME (S (List.length polls)))
       [] (opening p)).
Proof.
  intros Ho Hi Hack Hb Hf.
  destruct fuel as [|n]; [lia|]. cbn [DeskCNC.executeCommand].
  unfold bind at 1. rewrite (write_open _ _ Ho).
  unfold bind at 1.
  destruct Hack as [[-> ->] | [a ->]].
  - rewrite read_timeout; [|reflexivity|exact Hi].
    unfold bind at 1.
    change (while_not n DeskCNC.machineReady sleep) with (wait_ready n).
    rewrite (wait_ready_silent []); try reflexivity; try assumption.
    + cbn [written opening List.length repeat]. rewrite <- app_assoc.
      reflexivity.
    + cbn [List.length] in *. lia.
  - erewrite read_data; [|reflexivity|exact Hi].
    unfold bind at 1.
    change (while_not n DeskCNC.machineReady sleep) with (wait_ready n).
    rewrite (wait_ready_silent polls); try reflexivity; try assumption.
    + cbn [written opening]. rewrite <- app_assoc. reflexivity.
    + lia.
Qed.

Lemma executeCommand_silent_device_witness :
  DeskCNC.executeCommand 4 SPINDLE_ON 0
    (mkSerial true [] [Data [0x02]; Data [0x00]] [])
  = (Exc not_responding,
     mkSerial true
       [framed SPINDLE_ON; STATUS_FRAME; STATUS_FRAME] [] []).
Proof.
  exact (executeCommand_silent_device SPINDLE_ON 0
           (mkSerial true [] [Data [0x02]; Data [0x00]] [])
           [Data [0x02]] [Data [0x00]] 4
           eq_refl eq_refl (or_intror (ex_intro _ [0x02] eq_refl)) eq_refl
           (proj1 (Nat.ltb_lt 2 4) eq_refl)).
Defined.

(** *** The restart *)

(** X6: a restart that returns has left the port open, and the last frames
    it wrote are the chunks of the whole firmware, with a reset frame
    somewhere before them; a restart never raises a serial or an OS error,
    which it handles itself; and whatever its outcome it has only added
    frames to the log. *)
Theorem restart_device_outcomes
    (fw rsp : bytes) (fuel : nat) (p p' : Serial) (r : result unit) :
  DeskCNC.restart_device fw rsp fuel p = (r, p') ->
  match r with
  | Val _ =>
      is_open p' = true
      /\ exists pre,
           written p'
           = written p ++ pre ++ DeskCNC.chunks (List.length fw) fw
           /\ In COM_RESET pre
  | Exc e => DeskCNC.caught_on_restart e = false
  | OutOfFuel => True
  end
  /\ exists more, written p' = written p ++ more.
Proof.
  intros H. split; [|exact (grows_restart_device fw rsp fuel _ _ _ H)].
  destruct r as [[] | e |].
  - exact (restart_device_returns _ _ _ _ _ H).
  - exact (restart_device_raises _ _ _ _ _ _ H).
  - exact I.
Qed.

Lemma restart_device_outcomes_witness :
  DeskCNC.restart_device bench_firmware bench_response 4 reopening_port
  = (Val tt, mkSerial true [COM_RESET; bench_firmware] [] [])
  /\ exists pre,
       [COM_RESET; bench_firmware]
       = [] ++ pre ++ DeskCNC.chunks 3 bench_firmware
       /\ In COM_RESET pre.
Proof.
  assert (H : DeskCNC.restart_device bench_firmware bench_response 4
                reopening_port
              = (Val tt, mkSerial true [COM_RESET; bench_firmware] [] []))
    by (vm_compute; reflexivity).
  split; [exact H|].
  exact (proj2 (proj1 (restart_device_outcomes _ _ _ _ _ _ H))).
Defined.

(** *** Gcodes that do not move *)

Lemma set_device_same (self : Parser) : set_device (device self) self = self.
Proof. destruct self; reflexivity. Qed.

Lemma on_device_ret (self : Parser) :
  on_device (ret tt) self = (Val tt, self).
Proof. unfold on_device, ret. now rewrite set_device_same. Qed.

Lemma on_device_raise {A} e (self : Parser) :
  on_device (@raise Serial A e) self = (Exc e, self).
Proof. unfold on_device, raise. now rewrite set_device_same. Qed.

Lemma try_unsupported n gcode self :
  unsupported (type gcode) = true ->
  executeGCode_try n gcode self
  = (Exc NotImplementedError, applyWords (params gcode) self).
Proof.
  intros Hu. unfold executeGCode_try. unfold bind at 1.
  rewrite for_each_applyWord.
  destruct (type gcode); try discriminate Hu;
    unfold DeskCNC.G2, DeskCNC.G3, DeskCNC.G18, DeskCNC.G19, DeskCNC.G20;
    unfold bind; rewrite ?on_device_raise; reflexivity.
Qed.

Lemma try_local n gcode self f :
  local_effect gcode = Some f ->
  executeGCode_try n gcode self
  = (Val tt, f (applyWords (params gcode) self)).
Proof.
  unfold local_effect. intros Hl. unfold executeGCode_try. unfold bind at 1.
  rewrite for_each_applyWord.
  destruct (type gcode); try discriminate Hl; inversion Hl; subst;
    unfold DeskCNC.G17, DeskCNC.G21, DeskCNC.G94, DeskCNC.M9;
    rewrite ?on_device_ret; reflexivity.
Qed.

Lemma local_effect_keeps gcode f s :
  local_effect gcode = Some f ->
  device (f s) = device s
  /\ mode (f s) = mode s
  /\ (offsetX (f s), offsetY (f s), offsetZ (f s))
     = (offsetX s, offsetY s, offsetZ s)
  /\ spindleOn (f s) = spindleOn s.
Proof.
  unfold local_effect. intros Hl.
  destruct (applyWord_keeps (word gcode) s)
    as (K1 & K2 & K3 & K4 & K5 & K6 & _).
  destruct (type gcode); try discriminate Hl; inversion Hl; subst;
    repeat split; try reflexivity; try assumption; congruence.
Qed.

(** *** The motion mode, over a whole run *)

Lemma keeps_motion_mode_refl s : keeps_motion_mode s s.
Proof. intros H. exact H. Qed.

Lemma keeps_motion_mode_trans s1 s2 s3 :
  keeps_motion_mode s1 s2 -> keeps_motion_mode s2 s3 ->
  keeps_motion_mode s1 s3.
Proof. unfold keeps_motion_mode. auto. Qed.

Lemma motion_applyWord w :
  respects keeps_motion_mode (modify (applyWord w)).
Proof.
  apply respects_modify. intros s Hm.
  now rewrite (proj1 (proj2 (applyWord_keeps w s))).
Qed.

Section Lines.

Variable firmware_txt : bytes.
Variable firmware_response_txt : bytes.
Variable exec_order : GCodeType -> Z.
Variable default_word : GCodeType -> Word.

#[local] Abbreviation executeGCode :=
  (executeGCode firmware_txt firmware_response_txt).
#[local] Abbreviation parseLine :=
  (parseLine firmware_txt firmware_response_txt exec_order default_word).
#[local] Abbreviation run :=
  (run firmware_txt firmware_response_txt exec_order default_word).

Lemma executeGCode_passes k gcode self e s1 :
  executeGCode_try k gcode self = (Exc e, s1) ->
  is_SerialException e = false ->
  executeGCode (S k) gcode self = (Exc e, s1).
Proof.
  intros H He. cbn [ModalGCodeParser.executeGCode]. unfold try_except.
  now rewrite H, He.
Qed.

Lemma executeGCode_returns k gcode self s1 :
  executeGCode_try k gcode self = (Val tt, s1) ->
  executeGCode (S k) gcode self = (Val tt, s1).
Proof.
  intros H. cbn [ModalGCodeParser.executeGCode]. unfold try_except.
  now rewrite H.
Qed.

Lemma parseLine_one_gcode fuel ws gcode self :
  parseLine fuel (mkBlock ws [gcode]) self
  = executeGCode fuel gcode (applyWords ws self).
Proof.
  unfold ModalGCodeParser.parseLine. cbn [modal_params gcodes].
  unfold bind at 1. rewrite for_each_applyWord.
  cbn [sorted fold_left insert_sorted for_each List.length Nat.eqb].
  unfold bind, ret.
  destruct (executeGCode fuel gcode (applyWords ws self)) as [[[] | e |] s];
    reflexivity.
Qed.

(** X7: an arc move, a plane other than XY or the inch unit system is not
    implemented: once the parameter words are applied, the device method
    raises [NotImplementedError], which [executeGCode] does not handle;
    nothing is written, the exception leaves [executeGCode], and a run ends
    with it on the line that holds such a gcode. *)
Theorem unsupported_gcode_raises
    (k : nat) (gcode : GCode) (self : Parser) :
  unsupported (type gcode) = true ->
  executeGCode (S k) gcode self
  = (Exc NotImplementedError, applyWords (params gcode) self)
  /\ plog (applyWords (params gcode) self) = plog self
  /\ mode (applyWords (params gcode) self) = mode self
  /\ (forall ws later,
        run (S k) (mkBlock ws [gcode] :: later) self
        = (Exc NotImplementedError,
           applyWords (params gcode) (applyWords ws self))).
Proof.
  intros Hu.
  destruct (applyWords_keeps (params gcode) self) as (K1 & K2 & _).
  split; [|split; [|split]].
  - apply executeGCode_passes; [now apply try_unsupported|reflexivity].
  - unfold plog. now rewrite K1.
  - exact K2.
  - intros ws later. unfold ModalGCodeParser.run. cbn [for_each].
    unfold bind. rewrite parseLine_one_gcode.
    rewrite (executeGCode_passes k gcode _ NotImplementedError
               (applyWords (params gcode) (applyWords ws self)));
      [reflexivity|now apply try_unsupported|reflexivity].
Qed.

(** X8: a feed-rate gcode, a distance-mode gcode, the XY plane, the
    millimetre unit system, the feed-per-minute mode, coolant off and every
    gcode of a class the translator does not know are executed without the
    port: the parameter words are applied, the gcode's own effect follows
    (the feed rate or the distance mode is set, or nothing), and the call
    returns; the log, the motion mode, the offsets and the spindle flag are
    as before. *)
Theorem local_gcode_needs_no_device
    (k : nat) (gcode : GCode) (self : Parser) (f : Parser -> Parser) :
  local_effect gcode = Some f ->
  let s := f (applyWords (params gcode) self) in
  executeGCode (S k) gcode self = (Val tt, s)
  /\ device s = device self
  /\ mode s = mode self
  /\ (offsetX s, offsetY s, offsetZ s)
     = (offsetX self, offsetY self, offsetZ self)
  /\ spindleOn s = spindleOn self.
Proof.
  intros Hl s.
  destruct (applyWords_keeps (params gcode) self)
    as (K1 & K2 & K3 & K4 & K5 & K6 & _).
  destruct (local_effect_keeps gcode f (applyWords (params gcode) self) Hl)
    as (L1 & L2 & L3 & L4).
  split; [apply executeGCode_returns; now apply try_local|].
  unfold s. rewrite L1, L2, L3, L4, K1, K2, K3, K4, K5, K6.
  repeat split.
Qed.

Lemma motion_executeGCode fuel gcode :
  respects keeps_motion_mode (executeGCode fuel gcode).
Proof.
  intros s r s' H Hm. rewrite (executeGCode_mode _ _ _ _ _ _ _ H).
  destruct r as [[] | e |]; try exact Hm.
  destruct (is_motion (type gcode)) eqn:E; [exact E|exact Hm].
Qed.

Lemma motion_parseLine fuel block :
  respects keeps_motion_mode (parseLine fuel block).
Proof.
  unfold ModalGCodeParser.parseLine.
  apply respects_bind;
    [exact keeps_motion_mode_trans
    |apply respects_for_each;
       [exact keeps_motion_mode_refl|exact keeps_motion_mode_trans
       |intros w; apply motion_applyWord]
    |intros _].
  apply respects_bind;
    [exact keeps_motion_mode_trans
    |apply respects_for_each;
       [exact keeps_motion_mode_refl|exact keeps_motion_mode_trans
       |intros g; apply motion_executeGCode]
    |intros _].
  apply respects_if.
  - apply respects_bind;
      [exact keeps_motion_mode_trans
      |apply respects_get; exact keeps_motion_mode_refl
      |intros self; apply motion_executeGCode].
  - apply respects_ret. exact keeps_motion_mode_refl.
Qed.

(** X9: whatever the lines of the input and whatever the device does, the
    motion mode of a translator that started fresh is the class of a motion
    gcode (rapid, linear or arc move), so the gcode built from it on a line
    without gcodes is always a motion gcode. *)
Theorem mode_is_always_a_motion
    (fuel : nat) (input : list Block) (mill : Serial) :
  is_motion (mode (snd (run fuel input (init mill)))) = true.
Proof.
  destruct (run fuel input (init mill)) as [r s] eqn:E. cbn [snd].
  assert (Hr : respects keeps_motion_mode (run fuel input)).
  { unfold ModalGCodeParser.run.
    apply respects_for_each;
      [exact keeps_motion_mode_refl|exact keeps_motion_mode_trans
      |intros b; apply motion_parseLine]. }
  exact (Hr _ _ _ E eq_refl).
Qed.

End Lines.

Lemma unsupported_gcode_raises_witness :
  bench_executeGCode 1
    (mkGCode GCodeArcMoveCW (mkWord "G" 2) [mkWord "X" 10]) (init idle_port)
  = (Exc NotImplementedError, set_posX 10 (init idle_port)).
Proof.
  exact (proj1 (unsupported_gcode_raises bench_firmware bench_response
                  unordered bench_default_word 0
                  (mkGCode GCodeArcMoveCW (mkWord "G" 2) [mkWord "X" 10])
                  (init idle_port) eq_refl)).
Defined.

Lemma local_gcode_needs_no_device_witness :
  bench_executeGCode 1
    (mkGCode GCodeIncrementalDistanceMode (mkWord "G" 91) [])
    (init idle_port)
  = (Val tt, set_absolutepositionmode false (init idle_port)).
Proof.
  exact (proj1 (local_gcode_needs_no_device bench_firmware bench_response 0
                  (mkGCode GCodeIncrementalDistanceMode (mkWord "G" 91) [])
                  (init idle_port) _ eq_refl)).
Defined.

(** *** The frames of the moves *)

Lemma encodeValueMM_inr v b :
  encodeValueMM v = inr b ->
  exists n,
    numsteps v = inr n
    /\ - 2 ^ 31 <= n < 2 ^ 31
    /\ b = le_digits 4 (n mod 2 ^ 32).
Proof.
  rewrite encodeValueMM_numsteps.
  destruct (numsteps v) as [e | n]; [discriminate|].
  cbn [and_then]. unfold to_bytes.
  change (8 * Z.of_nat 4 - 1) with 31. change (8 * Z.of_nat 4) with 32.
  destruct (Z.leb_spec (- 2 ^ 31) n); [|discriminate].
  destruct (Z.ltb_spec n (2 ^ 31)); [|discriminate].
  rewrite Bool.andb_true_l.
  remember (le_digits 4 (n mod 2 ^ 32)) as l eqn:El.
  intros Hb. injection Hb as <-. subst l. exists n.
  split; [reflexivity|]. split; [lia|reflexivity].
Qed.

Lemma encodeValueMM_field v b :
  encodeValueMM v = inr b ->
  List.length b = 4%nat /\ numsteps v = inr (decodeSteps b).
Proof.
  intros H. destruct (encodeValueMM_inr v b H) as (n & Hn & Hr & ->).
  split; [apply length_le_digits|].
  unfold decodeSteps. now rewrite (from_bytes_signed4 n Hr).
Qed.

Lemma encodeFeedrate_field f b :
  encodeFeedrate f = inr b ->
  List.length b = 2%nat /\ 1250 <= decodeFeed b <= 62500.
Proof.
  unfold encodeFeedrate.
  destruct (truediv 3378400 f) as [e | q]; [discriminate|].
  cbn [and_then]. destruct (int q) as [e | n]; [discriminate|].
  cbn [and_then]. rewrite encodeFeedrate_clipped.
  remember (le_digits 2 (clip n MAX_FEEDRATE MIN_FEEDRATE)) as l eqn:El.
  intros H. injection H as <-. subst l.
  pose proof (clip_bounds n) as Hb.
  split; [apply length_le_digits|].
  unfold decodeFeed. rewrite from_bytes_unsigned2; lia.
Qed.

Lemma encodeFeedrate_infinity : encodeFeedrate infinity = inr [0xE2; 0x04].
Proof. reflexivity. Qed.

(** X10: the command of a rapid move, when its three coordinates encode: 23
    bytes, which are the opcode 40 4E, the fields of X negated, of Y and of
    Z (each four bytes that read back as the step count of the coordinate),
    the feed field E2 04 (1250, the fastest), the marker DB 00 and five
    zero bytes; [G0] hands it to [executeCommand], which sends it as a
    frame of 24 bytes. *)
Theorem G0_frame (fuel : nat) (x y z : float) (bx by_ bz : bytes) :
  encodeValueMM (- x) = inr bx ->
  encodeValueMM y = inr by_ ->
  encodeValueMM z = inr bz ->
  let command :=
    [0x40; 0x4E] ++ bx ++ by_ ++ bz ++ [0xE2; 0x04; 0xDB; 0x00]
    ++ bytearray 5 in
  DeskCNC.G0 fuel x y z = DeskCNC.executeCommand fuel command 0
  /\ List.length command = 23%nat
  /\ List.length (framed command) = 24%nat
  /\ numsteps (- x) = inr (decodeSteps bx)
  /\ numsteps y = inr (decodeSteps by_)
  /\ numsteps z = inr (decodeSteps bz)
  /\ decodeFeed [0xE2; 0x04] = 1250.
Proof.
  intros Hx Hy Hz command.
  destruct (encodeValueMM_field _ _ Hx) as [Lx Nx].
  destruct (encodeValueMM_field _ _ Hy) as [Ly Ny].
  destruct (encodeValueMM_field _ _ Hz) as [Lz Nz].
  assert (Hlen : List.length command = 23%nat).
  { unfold command. rewrite !length_app, Lx, Ly, Lz. reflexivity. }
  split.
  { apply G0_rapid_command. unfold rapid_command, position_fields.
    rewrite Hx, Hy, Hz, encodeFeedrate_infinity. unfold command.
    now rewrite <- !app_assoc. }
  split; [exact Hlen|].
  split; [unfold framed; rewrite length_app, Hlen; reflexivity|].
  repeat split; assumption.
Qed.

Lemma G0_frame_witness :
  DeskCNC.G0 3 10 5 0
  = DeskCNC.executeCommand 3
      [0x40; 0x4E; 0x66; 0xFD; 0xFF; 0xFF; 0x4D; 0x01; 0; 0; 0; 0; 0; 0;
       0xE2; 0x04; 0xDB; 0; 0; 0; 0; 0; 0] 0
  /\ decodeSteps [0x66; 0xFD; 0xFF; 0xFF] = -666
  /\ numsteps (-10) = inr (-666).
Proof.
  destruct (G0_frame 3 10 5 0 [0x66; 0xFD; 0xFF; 0xFF] [0x4D; 0x01; 0; 0]
              [0; 0; 0; 0] eq_refl eq_refl eq_refl)
    as (Hg & _ & _ & Hn & _).
  split; [exact Hg|]. split; [reflexivity|exact Hn].
Defined.

(** X11: the command of a linear move, when its coordinates and its feed
    rate encode: 23 bytes, which are the opcode 40 4D, the fields of X
    negated, of Y and of Z, the two bytes of the feed field, whose value
    lies in [1250, 62500], and seven zero bytes; [G1] hands it to
    [executeCommand]. *)
Theorem G1_frame (fuel : nat) (x y z f : float) (bx by_ bz bf : bytes) :
  encodeValueMM (- x) = inr bx ->
  encodeValueMM y = inr by_ ->
  encodeValueMM z = inr bz ->
  encodeFeedrate f = inr bf ->
  let command := [0x40; 0x4D] ++ bx ++ by_ ++ bz ++ bf ++ bytearray 7 in
  DeskCNC.G1 fuel x y z f = DeskCNC.executeCommand fuel command 0
  /\ List.length command = 23%nat
  /\ List.length (framed command) = 24%nat
  /\ numsteps (- x) = inr (decodeSteps bx)
  /\ numsteps y = inr (decodeSteps by_)
  /\ numsteps z = inr (decodeSteps bz)
  /\ 1250 <= decodeFeed bf <= 62500.
Proof.
  intros Hx Hy Hz Hf command.
  destruct (encodeValueMM_field _ _ Hx) as [Lx Nx].
  destruct (encodeValueMM_field _ _ Hy) as [Ly Ny].
  destruct (encodeValueMM_field _ _ Hz) as [Lz Nz].
  destruct (encodeFeedrate_field _ _ Hf) as [Lf Nf].
  assert (Hlen : List.length command = 23%nat).
  { unfold command. rewrite !length_app, Lx, Ly, Lz, Lf. reflexivity. }
  split.
  { apply G1_linear_command. unfold linear_command, position_fields.
    rewrite Hx, Hy, Hz, Hf. unfold command.
    now rewrite <- !app_assoc. }
  split; [exact Hlen|].
  split; [unfold framed; rewrite length_app, Hlen; reflexivity|].
  repeat split; try assumption; apply Nf.
Qed.

Lemma G1_frame_witness :
  DeskCNC.G1 3 10 5 0 300
  = DeskCNC.executeCommand 3
      [0x40; 0x4D; 0x66; 0xFD; 0xFF; 0xFF; 0x4D; 0x01; 0; 0; 0; 0; 0; 0;
       0xFD; 0x2B; 0; 0; 0; 0; 0; 0; 0] 0
  /\ decodeFeed [0xFD; 0x2B] = 11261.
Proof.
  split; [|reflexivity].
  exact (proj1 (G1_frame 3 10 5 0 300 [0x66; 0xFD; 0xFF; 0xFF]
                  [0x4D; 0x01; 0; 0] [0; 0; 0; 0] [0xFD; 0x2B]
                  eq_refl eq_refl eq_refl eq_refl)).
Defined.

(** *** Moves and spindle commands the device accepts *)

Lemma on_device_accepted n c (self : Parser) a polls rest :
  is_open (device self) = true ->
  incoming (device self) = Data a :: polls ++ rest ->
  accepted a = true ->
  completes polls = true ->
  (List.length polls <= n)%nat ->
  on_device (DeskCNC.executeCommand (S n) c 0) self
  = (Val tt,
     set_device
       (after_round (device self) (framed c) (List.length polls) rest) self).
Proof.
  intros Ho Hi Ha Hp Hn. unfold on_device.
  now rewrite (executeCommand_accepted n c _ a polls rest Ho Hi Ha Hp Hn).
Qed.

Lemma spindle_executeCommand n state p :
  DeskCNC.spindle n [state] p
  = DeskCNC.executeCommand n
      ([0x40; 0x4F] ++ bytearray 14 ++ [0x02] ++ [state] ++ bytearray 5) 0 p.
Proof.
  unfold DeskCNC.spindle, bind, sleep, ret.
  rewrite <- !app_assoc.
  match goal with
  | |- context [DeskCNC.executeCommand n ?c 0 p] =>
      destruct (DeskCNC.executeCommand n c 0 p) as [[[] | e |] p']
  end; reflexivity.
Qed.

Section Accepted.

Variable firmware_txt : bytes.
Variable firmware_response_txt : bytes.

#[local] Abbreviation executeGCode :=
  (executeGCode firmware_txt firmware_response_txt).

(** X12: a rapid move whose coordinates encode and which the device
    accepts: the parameter words are applied, the frame of the command at
    position plus offset is written, followed by one status query per
    answer of the wait, the motion mode becomes Rapid, and nothing else
    changes. *)
Theorem rapid_move_accepted
    (n : nat) (gcode : GCode) (self : Parser) (c a : bytes)
    (polls rest : list reading) :
  type gcode = GCodeRapidMove ->
  let s := applyWords (params gcode) self in
  rapid_command (posX s + offsetX s) (posY s + offsetY s)
    (posZ s + offsetZ s) = inr c ->
  is_open (device self) = true ->
  incoming (device self) = Data a :: polls ++ rest ->
  accepted a = true ->
  completes polls = true ->
  (List.length polls <= n)%nat ->
  executeGCode (S (S n)) gcode self
  = (Val tt,
     set_mode GCodeRapidMove
       (set_device
          (after_round (device self) (framed c) (List.length polls) rest)
          s)).
Proof.
  intros Ht s Hc Ho Hi Ha Hp Hn.
  cbn [ModalGCodeParser.executeGCode]. unfold try_except.
  rewrite (executeGCode_try_rapid _ _ _ Ht). cbv zeta. fold s.
  rewrite (G0_rapid_command _ _ _ _ _ Hc). unfold bind.
  assert (Hd : device s = device self)
    by apply (proj1 (applyWords_keeps _ _)).
  rewrite (on_device_accepted n c s a polls rest); rewrite ?Hd;
    try assumption.
  reflexivity.
Qed.

(** X13: a linear move whose coordinates and feed rate encode and which the
    device accepts: the parameter words are applied, the feed rate is
    limited to 1620, the frame of the command at position plus offset and
    at that feed rate is written, followed by one status query per answer
    of the wait, the motion mode becomes Linear, and nothing else
    changes. *)
Theorem linear_move_accepted
    (n : nat) (gcode : GCode) (self : Parser) (c a : bytes)
    (polls rest : list reading) :
  type gcode = GCodeLinearMove ->
  let s := linear_ready gcode self in
  linear_command (posX s + offsetX s) (posY s + offsetY s)
    (posZ s + offsetZ s) (feedrate s) = inr c ->
  is_open (device self) = true ->
  incoming (device self) = Data a :: polls ++ rest ->
  accepted a = true ->
  completes polls = true ->
  (List.length polls <= n)%nat ->
  executeGCode (S (S n)) gcode self
  = (Val tt,
     set_mode GCodeLinearMove
       (set_device
          (after_round (device self) (framed c) (List.length polls) rest)
          s)).
Proof.
  intros Ht s Hc Ho Hi Ha Hp Hn.
  cbn [ModalGCodeParser.executeGCode]. unfold try_except.
  rewrite (executeGCode_try_linear _ _ _ Ht). cbv zeta. fold s.
  rewrite (G1_linear_command _ _ _ _ _ _ Hc). unfold bind.
  assert (Hd : device s = device self) by apply linear_ready_device.
  rewrite (on_device_accepted n c s a polls rest); rewrite ?Hd;
    try assumption.
  reflexivity.
Qed.

(** X14: a spindle gcode the device accepts: M3 and M4 alike send the
    spindle command with state 01 (the hardware has no reverse) and set the
    spindle flag, M5 sends it with state 00 and clears the flag; the
    parameter words are applied first and nothing else changes. *)
Theorem spindle_gcode_accepted
    (n : nat) (gcode : GCode) (self : Parser) (command a : bytes)
    (flag : bool) (polls rest : list reading) :
  spindle_effect (type gcode) = Some (command, flag) ->
  is_open (device self) = true ->
  incoming (device self) = Data a :: polls ++ rest ->
  accepted a = true ->
  completes polls = true ->
  (List.length polls <= n)%nat ->
  executeGCode (S (S n)) gcode self
  = (Val tt,
     set_spindleOn flag
       (set_device
          (after_round (device self) (framed command) (List.length polls)
             rest)
          (applyWords (params gcode) self))).
Proof.
  intros He Ho Hi Ha Hp Hn.
  cbn [ModalGCodeParser.executeGCode]. unfold try_except.
  unfold executeGCode_try. unfold bind at 1. rewrite for_each_applyWord.
  set (s := applyWords (params gcode) self).
  assert (Hd : device s = device self)
    by apply (proj1 (applyWords_keeps _ _)).
  assert (Hon : on_device (DeskCNC.executeCommand (S n) command 0) s
                = (Val tt,
                   set_device
                     (after_round (device self) (framed command)
                        (List.length polls) rest) s)).
  { rewrite (on_device_accepted n command s a polls rest); rewrite ?Hd;
      try assumption.
    reflexivity. }
  assert (Hsp : forall state,
             command
             = [0x40; 0x4F] ++ bytearray 14 ++ [0x02] ++ [state]
               ++ bytearray 5 ->
             on_device (DeskCNC.spindle (S n) [state]) s
             = (Val tt,
                set_device
                  (after_round (device self) (framed command)
                     (List.length polls) rest) s)).
  { intros state ->. rewrite <- Hon. unfold on_device.
    now rewrite spindle_executeCommand. }
  unfold spindle_effect in He.
  destruct (type gcode); try discriminate He; inversion He; subst;
    unfold DeskCNC.M3, DeskCNC.M4, DeskCNC.M5, bind;
    rewrite (Hsp _ eq_refl); reflexivity.
Qed.

(** X15: a move with a field that does not encode (a coordinate whose step
    count does not fit four signed bytes or is not a number, a feed rate of
    zero) raises the encoder's error out of [executeGCode]: it is not a
    serial exception, so nothing recovers it; nothing is written, and the
    motion mode is not updated. *)
Theorem move_that_does_not_encode
    (k : nat) (gcode : GCode) (self : Parser) (e : exn) :
  (type gcode = GCodeRapidMove
   /\ (let s := applyWords (params gcode) self in
       rapid_command (posX s + offsetX s) (posY s + offsetY s)
         (posZ s + offsetZ s)) = inl e)
  \/ (type gcode = GCodeLinearMove
      /\ (let s := linear_ready gcode self in
          linear_command (posX s + offsetX s) (posY s + offsetY s)
            (posZ s + offsetZ s) (feedrate s)) = inl e) ->
  (e = OverflowError \/ e = ValueError \/ e = ZeroDivisionError)
  /\ exists s,
       executeGCode (S k) gcode self = (Exc e, s)
       /\ plog s = plog self
       /\ mode s = mode self
       /\ (type gcode = GCodeRapidMove ->
           s = applyWords (params gcode) self)
       /\ (type gcode = GCodeLinearMove -> s = linear_ready gcode self).
Proof.
  assert (Hv : forall v e0, encodeValueMM v = inl e0 ->
                 e0 = OverflowError \/ e0 = ValueError
                 \/ e0 = ZeroDivisionError).
  { intros v e0. unfold encodeValueMM, truediv.
    change ((0.015 =? 0)%float) with false. cbn [and_then].
    unfold int, to_bytes.
    destruct (Prim2SF (v / 0.015)) as [s | s | | s m ex]; cbn [and_then];
      try (destruct (_ && _));
      intros H; inversion H; auto. }
  assert (Hf : forall f e0, encodeFeedrate f = inl e0 ->
                 e0 = OverflowError \/ e0 = ValueError
                 \/ e0 = ZeroDivisionError).
  { intros f e0. unfold encodeFeedrate, truediv.
    destruct (f =? 0)%float; cbn [and_then];
      [intros H; inversion H; auto|].
    destruct (int (3378400 / f)) as [e1 | num] eqn:Ei; cbn [and_then].
    - unfold int in Ei.
      destruct (Prim2SF (3378400 / f)); inversion Ei;
        intros H; inversion H; subst; auto.
    - rewrite encodeFeedrate_clipped. discriminate. }
  assert (Hp : forall x y z e0, position_fields x y z = inl e0 ->
                 e0 = OverflowError \/ e0 = ValueError
                 \/ e0 = ZeroDivisionError).
  { intros x y z e0. unfold position_fields.
    destruct (encodeValueMM (- x)) as [e1|bx] eqn:Ex.
    - destruct (encodeValueMM y), (encodeValueMM z);
        intros H; inversion H; subst; exact (Hv _ _ Ex).
    - destruct (encodeValueMM y) as [e2|by_] eqn:Ey.
      + destruct (encodeValueMM z);
          intros H; inversion H; subst; exact (Hv _ _ Ey).
      + destruct (encodeValueMM z) as [e3|bz] eqn:Ez; [|discriminate].
        intros H; inversion H; subst; exact (Hv _ _ Ez). }
  assert (HG0 : forall n x y z e0 p,
             rapid_command x y z = inl e0 ->
             DeskCNC.G0 n x y z p = (Exc e0, p)).
  { intros n x y z e0 p. unfold rapid_command, position_fields, DeskCNC.G0.
    rewrite encodeFeedrate_infinity.
    destruct (encodeValueMM (- x)) as [e1|bx].
    - destruct (encodeValueMM y), (encodeValueMM z);
        intros H; inversion H; subst; reflexivity.
    - destruct (encodeValueMM y) as [e2|by_].
      + destruct (encodeValueMM z);
          intros H; inversion H; subst; reflexivity.
      + destruct (encodeValueMM z) as [e3|bz]; [|discriminate].
        intros H; inversion H; subst; reflexivity. }
  assert (HG1 : forall n x y z f e0 p,
             linear_command x y z f = inl e0 ->
             DeskCNC.G1 n x y z f p = (Exc e0, p)).
  { intros n x y z f e0 p. unfold linear_command, position_fields, DeskCNC.G1.
    destruct (encodeValueMM (- x)) as [e1|bx].
    - destruct (encodeValueMM y), (encodeValueMM z);
        intros H; inversion H; subst; reflexivity.
    - destruct (encodeValueMM y) as [e2|by_].
      + destruct (encodeValueMM z);
          intros H; inversion H; subst; reflexivity.
      + destruct (encodeValueMM z) as [e3|bz].
        * intros H; inversion H; subst; reflexivity.
        * destruct (encodeFeedrate f) as [e4|bf]; [|discriminate].
          intros H; inversion H; subst; reflexivity. }
  intros [[Ht Hc] | [Ht Hc]]; cbv zeta in Hc.
  - assert (He : e = OverflowError \/ e = ValueError
                 \/ e = ZeroDivisionError).
    { unfold rapid_command in Hc.
      destruct (position_fields _ _ _) as [e1|pos] eqn:Ep.
      - inversion Hc; subst. exact (Hp _ _ _ _ Ep).
      - rewrite encodeFeedrate_infinity in Hc. discriminate Hc. }
    split; [exact He|].
    exists (applyWords (params gcode) self).
    destruct (applyWords_keeps (params gcode) self) as (K1 & K2 & _).
    split.
    { cbn [ModalGCodeParser.executeGCode]. unfold try_except.
      rewrite (executeGCode_try_rapid _ _ _ Ht). cbv zeta.
      unfold bind, on_device. rewrite (HG0 _ _ _ _ _ _ Hc).
      rewrite set_device_same.
      destruct He as [-> | [-> | ->]]; reflexivity. }
    split; [unfold plog; now rewrite K1|].
    split; [exact K2|]. split; [reflexivity|]. intros Hl. congruence.
  - assert (He : e = OverflowError \/ e = ValueError
                 \/ e = ZeroDivisionError).
    { unfold linear_command in Hc.
      destruct (position_fields _ _ _) as [e1|pos] eqn:Ep.
      - inversion Hc; subst. exact (Hp _ _ _ _ Ep).
      - destruct (encodeFeedrate _) as [e4|bf] eqn:Ef; [|discriminate Hc].
        inversion Hc; subst. exact (Hf _ _ Ef). }
    split; [exact He|].
    exists (linear_ready gcode self).
    destruct (applyWords_keeps (params gcode) self) as (K1 & K2 & _).
    split.
    { cbn [ModalGCodeParser.executeGCode]. unfold try_except.
      rewrite (executeGCode_try_linear _ _ _ Ht). cbv zeta.
      unfold bind, on_device. rewrite (HG1 _ _ _ _ _ _ _ Hc).
      rewrite set_device_same.
      destruct He as [-> | [-> | ->]]; reflexivity. }
    split; [unfold plog; now rewrite linear_ready_device|].
    split; [unfold linear_ready; cbn [mode set_feedrate]; exact K2|].
    split; [intros Hr; congruence|reflexivity].
Qed.

End Accepted.

Lemma rapid_move_accepted_witness :
  exists c,
    rapid_command 10 0 0 = inr c
    /\ bench_executeGCode 3 rapid_X10 (init accepting_twice_port)
       = (Val tt,
          set_mode GCodeRapidMove
            (set_device
               (mkSerial true [framed c; STATUS_FRAME] accepting [])
               (set_posX 10 (init accepting_twice_port)))).
Proof.
  assert (Hc : exists c, rapid_command 10 0 0 = inr c)
    by (eexists; vm_compute; reflexivity).
  destruct Hc as [c Hc]. exists c. split; [exact Hc|].
  exact (rapid_move_accepted bench_firmware bench_response 1 rapid_X10
           (init accepting_twice_port) c [0x02] [Data [0xEC]] accepting
           eq_refl Hc eq_refl eq_refl eq_refl eq_refl (le_n 1)).
Defined.

Lemma linear_move_accepted_witness :
  exists c,
    linear_command 10 0 0 1620 = inr c
    /\ bench_executeGCode 3 fast_move (init accepting_twice_port)
       = (Val tt,
          set_mode GCodeLinearMove
            (set_device
               (mkSerial true [framed c; STATUS_FRAME] accepting [])
               (set_feedrate 1620 (set_posX 10 (init accepting_twice_port))))).
Proof.
  assert (Hc : exists c, linear_command 10 0 0 1620 = inr c)
    by (eexists; vm_compute; reflexivity).
  destruct Hc as [c Hc]. exists c. split; [exact Hc|].
  exact (linear_move_accepted bench_firmware bench_response 1 fast_move
           (init accepting_twice_port) c [0x02] [Data [0xEC]] accepting
           eq_refl Hc eq_refl eq_refl eq_refl eq_refl (le_n 1)).
Defined.

Lemma spindle_gcode_accepted_witness :
  bench_executeGCode 3 (mkGCode GCodeStartSpindleCCW (mkWord "M" 4) [])
    (init accepting_twice_port)
  = (Val tt,
     set_spindleOn true
       (set_device
          (mkSerial true [framed SPINDLE_ON; STATUS_FRAME] accepting [])
          (init accepting_twice_port))).
Proof.
  exact (spindle_gcode_accepted bench_firmware bench_response 1
           (mkGCode GCodeStartSpindleCCW (mkWord "M" 4) [])
           (init accepting_twice_port) SPINDLE_ON [0x02] true
           [Data [0xEC]] accepting
           eq_refl eq_refl eq_refl eq_refl eq_refl (le_n 1)).
Defined.

Lemma move_that_does_not_encode_witness :
  let stopped :=
    mkGCode GCodeLinearMove (mkWord "G" 1) [mkWord "X" 10; mkWord "F" 0] in
  linear_command 10 0 0 0 = inl ZeroDivisionError
  /\ exists s,
       bench_executeGCode 1 stopped (init idle_port)
       = (Exc ZeroDivisionError, s)
       /\ plog s = [].
Proof.
  cbv zeta. split; [reflexivity|].
  destruct (move_that_does_not_encode bench_firmware bench_response 0
              (mkGCode GCodeLinearMove (mkWord "G" 1)
                 [mkWord "X" 10; mkWord "F" 0])
              (init idle_port) ZeroDivisionError
              (or_intror (conj eq_refl eq_refl)))
    as (_ & s & Hs & Hlog & _).
  exists s. split; [exact Hs|exact Hlog].
Defined.

(** *** The firmware *)

Lemma chunks_sizes k : forall fw,
  Forall (fun c => (1 <= List.length c <= 64)%nat) (DeskCNC.chunks k fw).
Proof.
  induction k as [|k IH]; intros fw; [constructor|].
  cbn [DeskCNC.chunks]. destruct fw as [|b fw]; [constructor|].
  constructor; [|apply IH].
  rewrite length_firstn. cbn [List.length]. lia.
Qed.

Lemma chunks_count k : forall fw,
  (List.length fw <= k)%nat ->
  List.length (DeskCNC.chunks k fw) = ((List.length fw + 63) / 64)%nat.
Proof.
  induction k as [|k IH]; intros fw Hk.
  - destruct fw; [reflexivity|cbn in Hk; lia].
  - cbn [DeskCNC.chunks]. destruct fw as [|b fw]; [reflexivity|].
    cbn [List.length]. rewrite IH.
    + rewrite length_skipn. cbn [List.length].
      destruct (Nat.le_gt_cases 64 (S (List.length fw))) as [Hge|Hlt].
      * replace (S (List.length fw) + 63)%nat
          with ((S (List.length fw) - 64 + 63) + 1 * 64)%nat by lia.
        rewrite Nat.div_add by lia. lia.
      * replace (S (List.length fw) - 64)%nat with 0%nat by lia.
        cbn [Nat.add]. rewrite (Nat.div_small 63 64) by lia.
        apply (Nat.div_unique _ 64 1 (List.length fw)); lia.
    + rewrite length_skipn. cbn [List.length] in *. lia.
Qed.

(** X16: the pieces [send_firmware] writes, [fw[i:i+64]] for [i] from 0 in
    steps of 64: put end to end they are the firmware, each holds between 1
    and 64 bytes, and there are as many as the length of the firmware
    divided by 64, rounded up (none for an empty firmware). *)
Theorem firmware_chunks (fw : bytes) :
  let cs := DeskCNC.chunks (List.length fw) fw in
  List.concat cs = fw
  /\ Forall (fun c => (1 <= List.length c <= 64)%nat) cs
  /\ List.length cs = ((List.length fw + 63) / 64)%nat.
Proof.
  cbv zeta. split; [apply chunks_concat; lia|].
  split; [apply chunks_sizes|apply chunks_count; lia].
Qed.
